(** * engagement_script.py: pacing and resilience layer

    A shallow embedding of [engagement_script.py].  The Python process is
    modelled by explicit state passing: a [World] holds the state the script
    owns (proxy cursor, metrics, daily counter, the files it writes) and the
    state of everything outside it ([env]: the instagrapi client and the
    platform behind it, the clock, the random generator, the console).

    Conventions.
    - Python [int] is [Z]; list positions are [nat]; [float] seconds are
      exact rationals [Q] (rounding of binary floating point is not
      modelled).
    - A computation is a function [World -> outcome A * World].  It returns,
      raises a Python exception, or exceeds the bound [fuel] on the depth of
      the recursion of [_secure_request] ([Diverge]).  The recursion limit
      of the interpreter and its RecursionError are not modelled: a run
      that would need more depth than [fuel] has no result here.
    - The client raises exceptions of class [Exception] only.
    - Calls of the [logging] module change nothing that the script reads back
      and raise nothing (a handler that fails reports it on stderr); they
      are left out.  The audit file written by [log_event_json], the console
      line written by [print] and the files the script opens itself are
      kept.  Opening those files for writing, and writing them, is taken to
      succeed; [print] fails when the encoding of the console lacks a
      character of the line.
    - last_run.json can be absent, hold bytes that are not text, text that
      is not JSON, or a JSON value that is not an object; the keys of an
      object hold values of the types the script writes.  proxies.txt
      and session.json, when they are there, hold text, and session.json
      holds settings or text that is not JSON.
    - Readings of a [datetime] clock are in microseconds, its resolution;
      [time.time()] and the sleeps are in seconds.
    - The wrappers [secure_story_seen] and [secure_account_insights] have no
      caller in the script and are left out. *)

From Stdlib Require Import ZArith QArith Ascii String List Bool Arith Lia Lqa.
From Stdlib Require Import Permutation.
Import ListNotations.

Close Scope Q_scope.

Set Implicit Arguments.

(** ** Python exceptions *)

(** What a call of the instagrapi client can raise.  [LoginRequired] and
    [TwoFactorRequired] are subclasses of [ClientError]; [OtherError] is any
    exception that is an [Exception] and not a [ClientError]. *)
Inductive api_exn : Type :=
| LoginRequired
| TwoFactorRequired
| ClientError
| OtherError.

(** What can travel up the Python stack of the script. *)
Inductive exn : Type :=
| Api (e : api_exn)
| IndexError
| JSONDecodeError
| UnicodeDecodeError
| UnicodeEncodeError
| AttributeError
| EnterpriseSecurityException   (* Exception("EnterpriseSecurityException") *)
| SystemExit (code : Z).           (* sys.exit(code) *)

Definition is_ClientError (e : exn) : bool :=
  match e with
  | Api LoginRequired | Api TwoFactorRequired | Api ClientError => true
  | _ => false
  end.

(** [SystemExit] derives from [BaseException], not from [Exception]. *)
Definition is_Exception (e : exn) : bool :=
  match e with
  | SystemExit _ => false
  | _ => true
  end.

Inductive outcome (A : Type) : Type :=
| Return (a : A)
| Raise (e : exn)
| Diverge.

Arguments Raise {A} e.
Arguments Diverge {A}.

(** ** Data of the platform *)

Record UserInfo : Type := mkUserInfo { is_private : bool; follower_count : Z }.

(** A [datetime]: the reading of a wall clock and, for an aware value, the
    offset of that clock from UTC ([tzinfo]). *)
Record datetime : Type := mkDatetime { wall : Z; tzinfo : option Z }.

(** d.replace(tzinfo=None): the same reading, the zone dropped. *)
Definition replace_tzinfo_None (d : datetime) : datetime :=
  mkDatetime (wall d) None.

Record Media : Type := mkMedia { media_id : string; taken_at : datetime }.
Record Story : Type := mkStory { story_id : string }.

(** The calls the script makes on the client, with their arguments. *)
Inductive api_call : Type :=
| CLogin (verification_code : option string)
| CUserIdFromUsername (username : string)
| CUserInfo (user_id : Z)
| CUserFollowers (user_id : Z) (amount : Z)
| CUserMedias (user_id : Z) (amount : option Z)
| CUserStories (user_id : Z)
| CMediaLike (id : string)
| CStoryLike (id : string).

Inductive reply (A : Type) : Type :=
| Ok (a : A)
| Err (e : api_exn).

Arguments Err {A} e.

(** ** The outside of the process

    [P] is the state of whatever the script talks to.  Every client call may
    change it and answers with a value or an exception. *)
Class Env (P : Type) : Type := {
  (* os.getenv *)
  USERNAME : string;
  PASSWORD : string;
  (* instagrapi.Client *)
  login : string -> string -> option string -> P -> reply unit * P;
  user_id_from_username : string -> P -> reply Z * P;
  user_info : Z -> P -> reply UserInfo * P;
  user_followers : Z -> Z -> P -> reply (list Z) * P;
  user_medias : Z -> option Z -> P -> reply (list Media) * P;
  user_stories : Z -> P -> reply (list Story) * P;
  media_like : string -> P -> reply unit * P;
  story_like : string -> P -> reply unit * P;
  set_proxy : string -> P -> P;
  set_user_agent : string -> P -> P;
  set_settings : string -> P -> P;
  get_settings : P -> string;
  (* datetime, time *)
  now_hour : P -> Z;               (* datetime.now().hour *)
  today : P -> string;             (* datetime.today().strftime("%Y-%m-%d") *)
  now : P -> Z;                    (* datetime.now(): local wall clock *)
  utcoffset : P -> Z;              (* offset of the local clock from UTC *)
  time_time : P -> Q;              (* time.time() *)
  sleep : Q -> P -> P;             (* time.sleep *)
  (* random: the 53 bits behind random.random() *)
  getrandbits : P -> N * P;
  (* input() *)
  input : P -> string * P;
  (* sys.stdout: whether its encoding has every character of a line *)
  stdout_encodes : string -> P -> bool
}.

(** ** State owned by the script *)

Record ProxyManager : Type := mkProxyManager {
  proxies : list string;
  index : nat
}.

(** [EnhancedPerformanceMonitor.metrics]; the keys "engagements" and
    "reciprocity" are never written by a caller and stay at their initial
    value. *)
Record Metrics : Type := mkMetrics {
  api_calls : nat;
  errors : nat;
  response_times : list Q;
  hourly_engagement : list (Z * nat)
}.

(** What last_run.json holds: a JSON object, with the keys "date" and
    "count" (an absent key is [None]), or something the tracker cannot
    use. *)
Inductive LastRun : Type :=
| mkLastRun (lr_date : option string) (lr_count : option Z)
| NotAnObject            (* a JSON value that is not an object *)
| NotJSON                (* text that json.load rejects *)
| NotText.               (* bytes that are not text in the encoding of open *)

Inductive json : Type :=
| JStr (s : string)
| JNum (q : Q).

Record AuditEntry : Type := mkAuditEntry {
  event : string;
  details : list (string * json)
}.

Record Files : Type := mkFiles {
  last_run_file : option LastRun;          (* None: no such file *)
  session_file : option (option string);   (* Some None: present, not JSON *)
  proxy_file : option (list string);       (* the lines of proxies.txt *)
  metrics_file : list Metrics;
  audit_log : list AuditEntry
}.

Record World (P : Type) : Type := mkWorld {
  env : P;
  proxy_manager : ProxyManager;
  metrics : Metrics;
  likes_today : Z;
  files : Files;
  (* what the outside observes *)
  calls : list (api_call * option api_exn);   (* client calls, in order *)
  slept : list Q;                             (* arguments of time.sleep *)
  stdout : list string
}.

(** Field updates. *)
Section Updates.

Context {P : Type}.

Definition with_env (p : P) (w : World P) : World P :=
  mkWorld p (proxy_manager w) (metrics w) (likes_today w) (files w)
          (calls w) (slept w) (stdout w).

Definition with_proxy_manager (pm : ProxyManager) (w : World P) : World P :=
  mkWorld (env w) pm (metrics w) (likes_today w) (files w)
          (calls w) (slept w) (stdout w).

Definition with_metrics (m : Metrics) (w : World P) : World P :=
  mkWorld (env w) (proxy_manager w) m (likes_today w) (files w)
          (calls w) (slept w) (stdout w).

Definition with_likes_today (n : Z) (w : World P) : World P :=
  mkWorld (env w) (proxy_manager w) (metrics w) n (files w)
          (calls w) (slept w) (stdout w).

Definition with_files (f : Files) (w : World P) : World P :=
  mkWorld (env w) (proxy_manager w) (metrics w) (likes_today w) f
          (calls w) (slept w) (stdout w).

Definition with_calls (c : list (api_call * option api_exn)) (w : World P)
  : World P :=
  mkWorld (env w) (proxy_manager w) (metrics w) (likes_today w) (files w)
          c (slept w) (stdout w).

Definition with_slept (s : list Q) (w : World P) : World P :=
  mkWorld (env w) (proxy_manager w) (metrics w) (likes_today w) (files w)
          (calls w) s (stdout w).

Definition with_stdout (s : list string) (w : World P) : World P :=
  mkWorld (env w) (proxy_manager w) (metrics w) (likes_today w) (files w)
          (calls w) (slept w) s.

End Updates.

(** ** The monad of the script *)
Section Monad.

Context {P : Type}.

Definition M (A : Type) : Type := World P -> outcome A * World P.

Definition ret {A} (a : A) : M A := fun w => (Return a, w).

Definition raise {A} (e : exn) : M A := fun w => (Raise e, w).

Definition diverge {A} : M A := fun w => (Diverge, w).

Definition bind {A B} (m : M A) (k : A -> M B) : M B :=
  fun w =>
    match m w with
    | (Return a, w') => k a w'
    | (Raise e, w') => (Raise e, w')
    | (Diverge, w') => (Diverge, w')
    end.

(** [try: m  except ...: h e]; the handler re-raises what no clause takes. *)
Definition try_except {A} (m : M A) (h : exn -> M A) : M A :=
  fun w =>
    match m w with
    | (Raise e, w') => h e w'
    | r => r
    end.

(** [try: m  finally: f] *)
Definition try_finally {A} (m : M A) (f : M unit) : M A :=
  fun w =>
    match m w with
    | (Diverge, w') => (Diverge, w')
    | (r, w') =>
        match f w' with
        | (Return _, w'') => (r, w'')
        | (Raise e, w'') => (Raise e, w'')
        | (Diverge, w'') => (Diverge, w'')
        end
    end.

Definition get {A} (f : World P -> A) : M A := fun w => (Return (f w), w).

Definition modify (f : World P -> World P) : M unit :=
  fun w => (Return tt, f w).

End Monad.

Declare Scope py_scope.
Delimit Scope py_scope with py.
Notation "x <- m ;; k" := (bind m (fun x => k))
  (at level 61, m at next level, right associativity) : py_scope.
Notation "m ;;; k" := (bind m (fun _ => k))
  (at level 61, right associativity) : py_scope.

Open Scope string_scope.
Open Scope list_scope.
Open Scope py_scope.

(** ** Library routines the script uses *)
Section Library.

Context {P : Type} {E : Env P}.

(** Reads and steps of the outside. *)
Definition ask {A} (f : P -> A) : M A :=
  fun w : World P => (Return (f (env w)), w).

Definition tell (f : P -> P) : M unit :=
  fun w : World P => (Return tt, with_env (f (env w)) w).

Definition step {A} (f : P -> A * P) : M A :=
  fun w : World P =>
    let (a, p) := f (env w) in (Return a, with_env p w).

(** A client call: its answer becomes a return value or an exception, and
    the call is appended to [calls]. *)
Record Call (A : Type) : Type := mkCall {
  tag : api_call;
  run : P -> reply A * P
}.

Definition invoke {A} (c : Call A) : M A :=
  fun w : World P =>
    match run c (env w) with
    | (Ok a, p) =>
        (Return a, with_calls (calls w ++ [(tag c, None)]) (with_env p w))
    | (Err e, p) =>
        (Raise (Api e),
         with_calls (calls w ++ [(tag c, Some e)]) (with_env p w))
    end.

(** random.random(): a multiple of 2^-53 in [0, 1). *)
Definition random : M Q :=
  k <- step getrandbits ;;
  ret (Qmake (Z.of_N (k mod 2 ^ 53)) (2 ^ 53)).

(** random.uniform(a, b) = a + (b - a) * random() *)
Definition uniform (a b : Q) : M Q :=
  u <- random ;;
  ret (a + (b - a) * u)%Q.

(** An integer below [n]; which one is up to the generator. *)
Definition randbelow (n : nat) : M nat :=
  k <- step getrandbits ;;
  ret (N.to_nat k mod n)%nat.

(** random.randint(a, b) = a + randbelow(b - a + 1) *)
Definition randint (a b : Z) : M Z :=
  k <- randbelow (Z.to_nat (b - a + 1)) ;;
  ret (a + Z.of_nat k)%Z.

(** random.choice(seq) = seq[randbelow(len(seq))]; IndexError on []. *)
Definition choice {A} (seq : list A) : M A :=
  match seq with
  | [] => raise IndexError
  | _ :: _ =>
      i <- randbelow (length seq) ;;
      match nth_error seq i with
      | Some x => ret x
      | None => raise IndexError
      end
  end.

Fixpoint list_set {A} (l : list A) (i : nat) (x : A) : list A :=
  match l, i with
  | [], _ => []
  | _ :: l', O => x :: l'
  | y :: l', S i' => y :: list_set l' i' x
  end.

(** x[i], x[j] = x[j], x[i] *)
Definition swap {A} (x : list A) (i j : nat) : list A :=
  match nth_error x i, nth_error x j with
  | Some a, Some b => list_set (list_set x i b) j a
  | _, _ => x
  end.

(** random.shuffle(x):
    for i in reversed(range(1, len(x))): j = randbelow(i + 1); swap *)
Fixpoint shuffle_from {A} (i : nat) (x : list A) : M (list A) :=
  match i with
  | O => ret x
  | S i' =>
      j <- randbelow (S i) ;;
      shuffle_from i' (swap x i j)
  end.

Definition shuffle {A} (x : list A) : M (list A) :=
  shuffle_from (length x - 1) x.

(** dict.get(k, 0) and d[k] = v on the hourly histogram. *)
Fixpoint dict_get (d : list (Z * nat)) (k : Z) : nat :=
  match d with
  | [] => O
  | (k', v) :: d' => if Z.eqb k k' then v else dict_get d' k
  end.

Fixpoint dict_set (d : list (Z * nat)) (k : Z) (v : nat) : list (Z * nat) :=
  match d with
  | [] => [(k, v)]
  | (k', v') :: d' =>
      if Z.eqb k k' then (k, v) :: d' else (k', v') :: dict_set d' k v
  end.

Definition Qlt_bool (a b : Q) : bool := negb (Qle_bool b a).

End Library.

(** ** Configuration *)

Definition TARGET_ACCOUNTS : list string :=
  [ "troyesivan"; "joeygraceffa"; "tyleroakley"; "connorfranta";
    "danielhowell"; "amazingphil"; "noataieb"; "calummcswiggan";
    "milesmckenna"; "nicktoteda"; "bran_flakezz"; "josh_rimer";
    "ulyandernesto"; "grantandash"; "michaelandmatt"; "joelerdmann_";
    "whosyourjordan"; "hannahrslattery"; "tristanwesson"; "collinpmcgee";
    "jacoby.dueck"; "joeedmondss"; "louisthebarber_" ]%string.

Definition POST_AGE_LIMIT_DAYS : Z := 15.

(** timedelta(days=n) *)
Definition timedelta_days (n : Z) : Z := n * 86400000000.

(** ** The script *)
Section Script.

Context {P : Type} {E : Env P}.

(** *** EnhancedPerformanceMonitor *)

Definition track_call (response_time : Q) : M unit :=
  modify (fun w : World P =>
    let m := metrics w in
    with_metrics
      (mkMetrics (api_calls m + 1) (errors m)
                 (response_times m ++ [response_time]) (hourly_engagement m))
      w).

Definition track_error : M unit :=
  modify (fun w : World P =>
    let m := metrics w in
    with_metrics
      (mkMetrics (api_calls m) (errors m + 1) (response_times m)
                 (hourly_engagement m))
      w).

Definition track_hourly_engagement : M unit :=
  hour <- ask now_hour ;;
  modify (fun w : World P =>
    let m := metrics w in
    with_metrics
      (mkMetrics (api_calls m) (errors m) (response_times m)
                 (dict_set (hourly_engagement m) hour
                           (dict_get (hourly_engagement m) hour + 1)))
      w).

Definition save_metrics : M unit :=
  modify (fun w : World P =>
    let f := files w in
    with_files
      (mkFiles (last_run_file f) (session_file f) (proxy_file f)
               (metrics_file f ++ [metrics w]) (audit_log f))
      w).

(** *** Delays *)

Definition get_time_aware_delay (base_range : Q * Q) : M Q :=
  current_hour <- ask now_hour ;;
  if ((8 <=? current_hour) && (current_hour <? 20))%Z
  then uniform (fst base_range * (7 # 10))%Q (snd base_range * (7 # 10))%Q
  else uniform (fst base_range * (13 # 10))%Q (snd base_range * (13 # 10))%Q.

Definition get_follower_limit (follower_count : Z) : M Z :=
  if (follower_count <? 10000)%Z then randint 8 12
  else if (follower_count <? 100000)%Z then randint 6 9
  else randint 4 6.

(** *** ProxyManager *)

(** The lines of proxies.txt are held stripped; empty ones are dropped. *)
Definition _load_proxies : M (list string) :=
  f <- get (fun w : World P => proxy_file (files w)) ;;
  match f with
  | Some lines =>
      ret (filter (fun line => negb (String.eqb line EmptyString)) lines)
  | None => ret []
  end.

Definition ProxyManager_init : M unit :=
  l <- _load_proxies ;;
  modify (with_proxy_manager (mkProxyManager l 0)).

(** [get_proxy] only touches the manager, so it is a function on it. *)
Definition get_proxy (self : ProxyManager)
  : outcome (option string) * ProxyManager :=
  match proxies self with
  | [] => (Return None, self)
  | _ :: _ =>
      match nth_error (proxies self) (index self) with
      | None => (Raise IndexError, self)
      | Some proxy =>
          (Return (Some proxy),
           mkProxyManager (proxies self)
                          ((index self + 1) mod length (proxies self)))
      end
  end.

Definition proxy_manager_get_proxy : M (option string) :=
  fun w : World P =>
    let (r, pm) := get_proxy (proxy_manager w) in
    (r, with_proxy_manager pm w).

(** *** EngagementTracker *)

(** [json.load] returns the value the text stands for; of the exceptions of
    [open] and [json.load] only FileNotFoundError and JSONDecodeError are
    caught. *)
Definition load_last_run : M LastRun :=
  f <- get (fun w : World P => last_run_file (files w)) ;;
  match f with
  | None | Some NotJSON => ret (mkLastRun (Some EmptyString) (Some 0%Z))
  | Some NotText => raise UnicodeDecodeError
  | Some data => ret data
  end.

Definition save_last_run (count : Z) : M unit :=
  d <- ask today ;;
  modify (fun w : World P =>
    let f := files w in
    with_files
      (mkFiles (Some (mkLastRun (Some d) (Some count))) (session_file f)
               (proxy_file f) (metrics_file f) (audit_log f))
      w).

Definition option_string_eqb (a : option string) (b : string) : bool :=
  match a with
  | Some s => String.eqb s b
  | None => false
  end.

(** [data.get] exists on a dict only. *)
Definition reset_counters : M unit :=
  data <- load_last_run ;;
  d <- ask today ;;
  match data with
  | mkLastRun lr_date lr_count =>
      if negb (option_string_eqb lr_date d)
      then
        modify (with_likes_today 0) ;;;
        save_last_run 0
      else
        modify (with_likes_today
                  (match lr_count with Some c => c | None => 0%Z end))
  | _ => raise AttributeError
  end.

Definition increment_likes : M unit :=
  modify (fun w : World P => with_likes_today (likes_today w + 1) w) ;;;
  n <- get (@likes_today P) ;;
  if (n mod 10 =? 0)%Z then save_last_run n else ret tt.

Definition limit_reached (w : World P) : bool :=
  (likes_today w >=? 200)%Z.

(** *** Audit and console *)

Definition log_event_json (event_type : string)
           (details : list (string * json)) : M unit :=
  modify (fun w : World P =>
    let f := files w in
    with_files
      (mkFiles (last_run_file f) (session_file f) (proxy_file f)
               (metrics_file f)
               (audit_log f ++ [mkAuditEntry event_type details]))
      w).

(** U+2705, the check mark at the start of the lines the script prints, in
    UTF-8. *)
Definition check_mark : string :=
  String "226"%char (String "156"%char (String "133"%char EmptyString)).

(** [print] encodes the line for the console; the encoder raises on a
    character the encoding of the console lacks. *)
Definition print (line : string) : M unit :=
  ok <- ask (stdout_encodes line) ;;
  if ok : bool
  then modify (fun w : World P => with_stdout (stdout w ++ [line]) w)
  else raise UnicodeEncodeError.

Definition time_sleep (seconds : Q) : M unit :=
  tell (sleep seconds) ;;;
  modify (fun w : World P => with_slept (slept w ++ [seconds]) w).

(** str(e), as written to the audit file; the texts stand for the messages
    of the library. *)
Definition str_exn (e : exn) : string :=
  match e with
  | Api LoginRequired => "login_required"
  | Api TwoFactorRequired => "two_factor_required"
  | Api ClientError => "client_error"
  | Api OtherError => "error"
  | IndexError => "list index out of range"
  | JSONDecodeError => "json decode error"
  | UnicodeDecodeError => "codec can't decode"
  | UnicodeEncodeError => "codec can't encode"
  | AttributeError => "object has no attribute 'get'"
  | EnterpriseSecurityException => "EnterpriseSecurityException"
  | SystemExit _ => "exit"
  end.

(** *** AdaptiveSafeClient *)

Record Device : Type := mkDevice { model : string; os : string }.

Definition devices : list Device :=
  [ mkDevice "iPhone15,4" "iOS 17.1.2";
    mkDevice "Pixel 8 Pro" "Android 14";
    mkDevice "SM-S928U" "Android 13" ]%string.

Definition _rotate_device : M unit :=
  device <- choice devices ;;
  tell (set_user_agent
          ("Instagram 297.0.0.28.119 (" ++ model device ++ "; "
             ++ os device ++ "; en_US)")%string).

(** self.dump_settings(SESSION_FILE) *)
Definition dump_settings : M unit :=
  s <- ask get_settings ;;
  modify (fun w : World P =>
    let f := files w in
    with_files
      (mkFiles (last_run_file f) (Some (Some s)) (proxy_file f)
               (metrics_file f) (audit_log f))
      w).

(** os.remove(SESSION_FILE) *)
Definition remove_session_file : M unit :=
  modify (fun w : World P =>
    let f := files w in
    with_files
      (mkFiles (last_run_file f) None (proxy_file f)
               (metrics_file f) (audit_log f))
      w).

Definition login_call (verification_code : option string) : Call unit :=
  mkCall (CLogin verification_code)
         (login USERNAME PASSWORD verification_code).

Definition _login : M unit :=
  try_except
    (invoke (login_call None) ;;;
     dump_settings)
    (fun e =>
       match e with
       | Api TwoFactorRequired =>
           verification_code <- step input ;;
           invoke (login_call (Some verification_code)) ;;;
           dump_settings
       | Api LoginRequired | Api ClientError =>
           raise (SystemExit 1)                       (* sys.exit(1) *)
       | _ => raise e
       end).

Definition truthy (proxy : option string) : bool :=
  match proxy with
  | Some s => negb (String.eqb s EmptyString)
  | None => false
  end.

(** The [try] block of [_secure_request]. *)
Definition _secure_request_try {A} (func : Call A) (start : Q) : M A :=
  proxy <- proxy_manager_get_proxy ;;
  (match proxy with
   | Some p => if truthy proxy then tell (set_proxy p) else ret tt
   | None => ret tt
   end) ;;;
  result <- invoke func ;;
  t <- ask time_time ;;
  track_call (t - start)%Q ;;;
  ret result.

Fixpoint _secure_request {A} (fuel : nat) (func : Call A) : M A :=
  match fuel with
  | O => diverge
  | S fuel' =>
      start <- ask time_time ;;
      try_except
        (_secure_request_try func start)
        (fun e =>
           match e with
           | Api LoginRequired =>
               _rotate_device ;;;
               _login ;;;                               (* re-authenticate *)
               _secure_request fuel' func               (* retry *)
           | Api TwoFactorRequired | Api ClientError =>
               track_error ;;;
               _rotate_device ;;;
               raise e
           | SystemExit _ => raise e
           | _ =>
               track_error ;;;
               raise EnterpriseSecurityException
           end)
  end.

Definition secure_user_medias (fuel : nat) (user_id : Z) (amount : option Z)
  : M (list Media) :=
  _secure_request fuel
    (mkCall (CUserMedias user_id amount) (user_medias user_id amount)).

Definition secure_user_stories (fuel : nat) (user_id : Z) : M (list Story) :=
  _secure_request fuel (mkCall (CUserStories user_id) (user_stories user_id)).

Definition secure_story_like (fuel : nat) (story_id : string) : M unit :=
  _secure_request fuel (mkCall (CStoryLike story_id) (story_like story_id)).

Definition secure_media_like (fuel : nat) (media_id : string) : M unit :=
  _secure_request fuel (mkCall (CMediaLike media_id) (media_like media_id)).

Definition secure_user_followers (fuel : nat) (user_id : Z) (amount : Z)
  : M (list Z) :=
  _secure_request fuel
    (mkCall (CUserFollowers user_id amount) (user_followers user_id amount)).

Definition secure_user_id_from_username (fuel : nat) (username : string)
  : M Z :=
  _secure_request fuel
    (mkCall (CUserIdFromUsername username) (user_id_from_username username)).

Definition secure_user_info (fuel : nat) (user_id : Z) : M UserInfo :=
  _secure_request fuel (mkCall (CUserInfo user_id) (user_info user_id)).

(** [session_file] says whether SESSION_FILE exists; [true] stands for the
    [return] inside the [try]. *)
Definition _load_session (fuel : nat) : M unit :=
  f <- get (fun w : World P => session_file (files w)) ;;
  match f with
  | Some content =>
      loaded <-
        try_except
          ((match content with
            | Some settings => tell (set_settings settings)
            | None => raise JSONDecodeError
            end) ;;;
           secure_user_id_from_username fuel USERNAME ;;;
           ret true)
          (fun e =>
             if is_ClientError e then remove_session_file ;;; ret false
             else match e with
                  | JSONDecodeError => remove_session_file ;;; ret false
                  | _ => raise e
                  end) ;;
      if loaded : bool then ret tt else _login
  | None => _login
  end.

Definition AdaptiveSafeClient_init (fuel : nat) : M unit :=
  _rotate_device ;;;
  _load_session fuel.

(** The condition of the [if] in [get_active_followers], after the profile
    lookup; [and] and [or] evaluate their right operand only when needed. *)
Definition is_active (fuel : nat) (fid : Z) (user_info : UserInfo) : M bool :=
  if negb (is_private user_info)
  then
    stories <- secure_user_stories fuel fid ;;
    match stories with
    | _ :: _ => ret true
    | [] =>
        medias <- secure_user_medias fuel fid (Some 1%Z) ;;
        ret (match medias with [] => false | _ :: _ => true end)
    end
  else ret false.

(** The [try] statement in the loop of [get_active_followers]: the list of
    active followers after [fid] has been looked at. *)
Definition probe_follower (fuel : nat) (fid : Z) (active_followers : list Z)
  : M (list Z) :=
  try_except
    (user_info <- secure_user_info fuel fid ;;
     a <- is_active fuel fid user_info ;;
     if a : bool then ret (active_followers ++ [fid])
     else ret active_followers)
    (fun e =>
       if is_Exception e then ret active_followers else raise e).

(** The [for fid in followers] loop of [get_active_followers]. *)
Fixpoint followers_loop (fuel : nat) (limit : Z) (followers : list Z)
         (active_followers : list Z) : M (list Z) :=
  match followers with
  | [] => ret active_followers
  | fid :: rest =>
      active_followers' <- probe_follower fuel fid active_followers ;;
      if (Z.of_nat (length active_followers') >=? limit)%Z
      then ret active_followers'                                  (* break *)
      else followers_loop fuel limit rest active_followers'
  end.

Definition get_active_followers (fuel : nat) (username : string) (limit : Z)
  : M (list Z) :=
  user_id <- secure_user_id_from_username fuel username ;;
  followers <- secure_user_followers fuel user_id 150 ;;
  followers_loop fuel limit followers [].

(** *** Engagement *)

(** Both operands of the subtraction are naive: it is the difference of two
    readings, the one of the local clock and the one [taken_at] carries. *)
Definition is_recent_post (post : Media) (max_days : Z) : M bool :=
  let post_time := replace_tzinfo_None (taken_at post) in
  t <- ask now ;;
  ret (t - wall post_time <? timedelta_days max_days)%Z.

(** [p for p in posts if is_recent_post(p)] *)
Fixpoint recent_posts (posts : list Media) : M (list Media) :=
  match posts with
  | [] => ret []
  | p :: posts' =>
      keep <- is_recent_post p POST_AGE_LIMIT_DAYS ;;
      valid <- recent_posts posts' ;;
      ret (if keep : bool then p :: valid else valid)
  end.

Definition process_posts (fuel : nat) (user_id : Z) (username : string)
  : M Z :=
  try_except
    (log_event_json "attempt_like_post" [("username", JStr username)] ;;;
     posts <- secure_user_medias fuel user_id (Some 6%Z) ;;
     valid_posts <- recent_posts posts ;;
     match valid_posts with
     | [] => ret 0%Z
     | _ :: _ =>
         post <- choice valid_posts ;;
         secure_media_like fuel (media_id post) ;;;
         increment_likes ;;;
         track_hourly_engagement ;;;
         log_event_json "liked_post"
           [("username", JStr username); ("post_id", JStr (media_id post))] ;;;
         print (check_mark ++ " Liked post from @" ++ username)%string ;;;
         d <- uniform 30 55 ;;
         time_sleep d ;;;
         ret 1%Z
     end)
    (fun e =>
       if is_Exception e
       then log_event_json "error"
              [("username", JStr username); ("error", JStr (str_exn e))] ;;;
            ret 0%Z
       else raise e).

Definition process_stories (fuel : nat) (user_id : Z) (username : string)
  : M Z :=
  try_except
    (log_event_json "attempt_view_story" [("username", JStr username)] ;;;
     stories <- secure_user_stories fuel user_id ;;
     match stories with
     | [] => ret 0%Z
     | _ :: _ =>
         story <- choice stories ;;
         log_event_json "attempt_like_story"
           [("username", JStr username);
            ("story_id", JStr (story_id story))] ;;;
         secure_story_like fuel (story_id story) ;;;
         increment_likes ;;;
         track_hourly_engagement ;;;
         log_event_json "liked_story"
           [("username", JStr username);
            ("story_id", JStr (story_id story))] ;;;
         print (check_mark ++ " Liked story from @" ++ username)%string ;;;
         d <- uniform 30 55 ;;
         time_sleep d ;;;
         ret 1%Z
     end)
    (fun e =>
       if is_Exception e
       then log_event_json "error"
              [("username", JStr username); ("error", JStr (str_exn e))] ;;;
            ret 0%Z
       else raise e).

(** The [for fid in active_followers] loop of [process_target_account]. *)
Fixpoint engage_loop (fuel : nat) (username : string)
         (active_followers : list Z) : M unit :=
  match active_followers with
  | [] => ret tt
  | fid :: rest =>
      process_posts fuel fid username ;;;
      process_stories fuel fid username ;;;
      engage_loop fuel username rest
  end.

Definition process_target_account (fuel : nat) (username : string) : M unit :=
  try_except
    (user_id <- secure_user_id_from_username fuel username ;;
     info <- secure_user_info fuel user_id ;;
     let account_size := follower_count info in
     follower_limit <- get_follower_limit account_size ;;
     active_followers <- get_active_followers fuel username follower_limit ;;
     engage_loop fuel username active_followers)
    (fun e =>
       if is_Exception e
       then log_event_json "error"
              [("username", JStr username); ("error", JStr (str_exn e))]
       else raise e).

(** *** main *)

(** The [for account in TARGET_ACCOUNTS] loop. *)
Fixpoint accounts_loop (fuel : nat) (accounts : list string) : M unit :=
  match accounts with
  | [] => ret tt
  | account :: rest =>
      try_except
        (start_time <- ask time_time ;;
         process_target_account fuel account ;;;
         t <- ask time_time ;;
         let processing_time := (t - start_time)%Q in
         let base_delay :=
           if Qlt_bool processing_time 60 then (120, 300)%Q
           else (300, 600)%Q in
         delay <- get_time_aware_delay base_delay ;;
         log_event_json "account_cooldown"
           [("account", JStr account); ("delay", JNum delay)] ;;;
         time_sleep delay)
        (fun e =>
           if is_Exception e
           then log_event_json "error"
                  [("account", JStr account); ("error", JStr (str_exn e))]
           else raise e) ;;;
      accounts_loop fuel rest
  end.

(** The [finally] clause of [main]. *)
Definition finalize : M unit :=
  save_metrics ;;;
  n <- get (@likes_today P) ;;
  save_last_run n ;;;
  log_event_json "session_complete" [("message", JStr "Session complete.")].

Definition main (fuel : nat) : M unit :=
  log_event_json "session_start"
    [("message", JStr "Starting engagement session...")] ;;;
  ProxyManager_init ;;;
  AdaptiveSafeClient_init fuel ;;;
  reset_counters ;;;                           (* EngagementTracker() *)
  try_finally
    (try_except
       (accounts <- shuffle TARGET_ACCOUNTS ;;
        accounts_loop fuel accounts)
       (fun e =>
          if is_Exception e
          then log_event_json "error" [("error", JStr (str_exn e))]
          else raise e))
    finalize.

(** The state of a process that has just started. *)
Definition initial_world (p : P) (f : Files) : World P :=
  mkWorld p (mkProxyManager [] 0) (mkMetrics 0 0 [] []) 0 f [] [] [].

(** The exit status of the interpreter: 0 when the script runs to its end,
    the argument of [sys.exit], 1 for an exception nobody caught. *)
Definition exit_status {A} (r : outcome A) : option Z :=
  match r with
  | Return _ => Some 0%Z
  | Raise (SystemExit code) => Some code
  | Raise _ => Some 1%Z
  | Diverge => None
  end.

(** The module body: the credentials check, then [main()]. *)
Definition script (fuel : nat) (w : World P) : option Z * World P :=
  if (String.eqb USERNAME EmptyString || String.eqb PASSWORD EmptyString)%bool
  then (Some 1%Z, w)                                        (* sys.exit(1) *)
  else let (r, w') := main fuel w in (exit_status r, w').

End Script.

(** ** Classification of the daily counter

    The states of the quota in the specification: FRESH for a count of 0,
    EXHAUSTED from 200 on ([limit_reached]), ACTIVE in between. *)
Inductive QuotaState : Type := FRESH | ACTIVE | EXHAUSTED.

Definition quota_state {P : Type} (w : World P) : QuotaState :=
  if limit_reached w then EXHAUSTED
  else if (likes_today w =? 0)%Z then FRESH
  else ACTIVE.

(** ** Iteration helpers for statements *)
Section Iteration.

Context {P : Type} {E : Env P}.

(** [n] consecutive calls of [get_proxy]: the values returned, in order, and
    the manager left behind. *)
Fixpoint get_proxy_n (n : nat) (pm : ProxyManager)
  : list (outcome (option string)) * ProxyManager :=
  match n with
  | O => ([], pm)
  | S n' =>
      let (r, pm') := get_proxy pm in
      let (rs, pm'') := get_proxy_n n' pm' in
      (r :: rs, pm'')
  end.

(** [n] consecutive calls of [tracker.increment_likes()]. *)
Fixpoint increment_likes_n (n : nat) : M unit :=
  match n with
  | O => ret tt
  | S n' => increment_likes ;;; increment_likes_n n'
  end.

(** The client calls made between two states of the world. *)
Definition calls_since (w w' : World P) : list (api_call * option api_exn) :=
  skipn (length (calls w)) (calls w').

Definition is_like (c : api_call) : bool :=
  match c with
  | CMediaLike _ | CStoryLike _ => true
  | _ => false
  end.

Definition is_login (c : api_call) : bool :=
  match c with
  | CLogin _ => true
  | _ => false
  end.

Definition succeeded (c : api_call * option api_exn) : bool :=
  match snd c with
  | None => true
  | Some _ => false
  end.

(** The engagement actions (likes) that went through, in a list of calls. *)
Definition likes_done (l : list (api_call * option api_exn))
  : list (api_call * option api_exn) :=
  filter (fun c => is_like (fst c) && succeeded c) l.

(** The attempts of [c] in a list of calls. *)
Definition api_call_eqb (a b : api_call) : bool :=
  match a, b with
  | CLogin None, CLogin None => true
  | CLogin (Some x), CLogin (Some y) => String.eqb x y
  | CUserIdFromUsername x, CUserIdFromUsername y => String.eqb x y
  | CUserInfo x, CUserInfo y => Z.eqb x y
  | CUserFollowers x n, CUserFollowers y m => Z.eqb x y && Z.eqb n m
  | CUserMedias x None, CUserMedias y None => Z.eqb x y
  | CUserMedias x (Some n), CUserMedias y (Some m) => Z.eqb x y && Z.eqb n m
  | CUserStories x, CUserStories y => Z.eqb x y
  | CMediaLike x, CMediaLike y => String.eqb x y
  | CStoryLike x, CStoryLike y => String.eqb x y
  | _, _ => false
  end.

Definition attempts (c : api_call) (l : list (api_call * option api_exn))
  : nat :=
  length (filter (fun x => api_call_eqb (fst x) c) l).

End Iteration.

(** ** Vocabulary of the statements *)

Definition entry : Type := api_call * option api_exn.

(** The cursor of the manager points into the pool (or the pool is empty);
    [ProxyManager()] establishes it and [get_proxy] keeps it. *)
Definition pm_ok (pm : ProxyManager) : Prop :=
  proxies pm = [] \/ index pm < length (proxies pm).

(** The last client call was a login and it failed. *)
Definition login_failed_last {P : Type} (w : World P) : Prop :=
  exists l c e, calls w = l ++ [(CLogin c, Some e)].

(** What [_secure_request] on the call [c] adds to [calls] apart from a
    success of [c]: logins, and failures of [c]. *)
Definition retry_entry (c : api_call) (x : entry) : Prop :=
  is_login (fst x) = true \/ (fst x = c /\ snd x <> None).

Definition auth_failure (x : entry) : bool :=
  match snd x with
  | Some LoginRequired => true
  | _ => false
  end.

(** At least [fuel] client calls were answered authentication-required. *)
Definition many_auth_failures {P : Type} (fuel : nat) (w' : World P) : Prop :=
  fuel <= length (filter auth_failure (calls w')).

(** From [w] to [w'] the client was called [new], and neither the daily
    counter nor the sleeps changed. *)
Definition grows {P : Type} (w w' : World P) (new : list entry) : Prop :=
  likes_today w' = likes_today w
  /\ slept w' = slept w
  /\ calls w' = calls w ++ new
  /\ (pm_ok (proxy_manager w) -> pm_ok (proxy_manager w')).

(** [Subseq l1 l2]: [l1] is [l2] with some elements left out. *)
Inductive Subseq {A : Type} : list A -> list A -> Prop :=
| Subseq_nil : Subseq [] []
| Subseq_skip (x : A) (l1 l2 : list A) : Subseq l1 l2 -> Subseq l1 (x :: l2)
| Subseq_take (x : A) (l1 l2 : list A) :
    Subseq l1 l2 -> Subseq (x :: l1) (x :: l2).

(** The calls made while one follower is looked at. *)
Definition probe_entry (fid : Z) (x : entry) : Prop :=
  is_login (fst x) = true
  \/ fst x = CUserInfo fid
  \/ fst x = CUserStories fid
  \/ fst x = CUserMedias fid (Some 1%Z).

Section Vocabulary.

Context {P : Type} {E : Env P}.

(** One pass through the [try] block of [_secure_request]. *)
Definition try_post {A} (func : @Call P A) (w : World P) (r : outcome A)
           (w1 : World P) : Prop :=
  match r with
  | Return _ => grows w w1 [(tag func, None)]
  | Raise (Api e) => grows w w1 [(tag func, Some e)]
  | Raise IndexError => grows w w1 [] /\ ~ pm_ok (proxy_manager w)
  | _ => False
  end.

(** Why [_secure_request] on [c] raised [e]: a login failed, or [c] failed
    with something else than authentication-required, or the proxy cursor
    was out of the pool. *)
Definition raise_cause (c : api_call) (e : exn) (w w' : World P) : Prop :=
  (login_failed_last w' /\ (is_Exception e = false -> e = SystemExit 1))
  \/ (exists l a, calls w' = l ++ [(c, Some a)] /\ a <> LoginRequired
        /\ e = match a with
               | OtherError => EnterpriseSecurityException
               | _ => Api a
               end)
  \/ (e = EnterpriseSecurityException /\ ~ pm_ok (proxy_manager w)).

Definition secure_post {A} (fuel : nat) (c : api_call) (w : World P)
           (r : outcome A) (w' : World P) : Prop :=
  exists new, grows w w' new /\
    match r with
    | Return _ =>
        exists pre, new = pre ++ [(c, None)] /\ Forall (retry_entry c) pre
    | Raise e => Forall (retry_entry c) new /\ raise_cause c e w w'
    | Diverge =>
        Forall (retry_entry c) new
        /\ fuel <= length (filter auth_failure new)
    end.

(** What one engagement step ([process_posts], [process_stories]) leaves
    behind, by its result.  It returns 1 after a like and its sleep; it
    returns 0 without a like, or after a like whose confirmation [line] the
    console could not take. *)
Definition engagement_post (fuel : nat) (line : string) (w : World P)
           (r : outcome Z) (w' : World P) : Prop :=
  exists new, calls w' = calls w ++ new /\
    match r with
    | Return n =>
        (n = 1%Z
         /\ likes_today w' = (likes_today w + 1)%Z
         /\ (exists pre c, new = pre ++ [(c, None)] /\ is_like c = true
                           /\ likes_done pre = [])
         /\ exists d, slept w' = slept w ++ [d] /\ (30 <= d)%Q /\ (d <= 55)%Q)
        \/ (n = 0%Z
            /\ likes_today w' = likes_today w
            /\ likes_done new = []
            /\ slept w' = slept w)
        \/ (n = 0%Z
            /\ likes_today w' = (likes_today w + 1)%Z
            /\ (exists pre c, new = pre ++ [(c, None)] /\ is_like c = true
                              /\ likes_done pre = [])
            /\ slept w' = slept w
            /\ stdout_encodes line (env w') = false)
    | Raise e =>
        e = SystemExit 1 /\ login_failed_last w'
        /\ likes_today w' = likes_today w
        /\ likes_done new = []
        /\ slept w' = slept w
    | Diverge =>
        fuel <= length (filter auth_failure new)
        /\ likes_today w' = likes_today w
        /\ likes_done new = []
        /\ slept w' = slept w
    end.

(** [fid] passes the checks of [get_active_followers] made from [w], and
    [w'] is the state they leave: the profile lookup returns a public
    profile, the story check returns, and when it returns no story the media
    check returns a media.  None of the calls raises. *)
Definition qualifies (fuel : nat) (fid : Z) (w w' : World P) : Prop :=
  exists info w1 stories w2,
    secure_user_info fuel fid w = (Return info, w1)
    /\ is_private info = false
    /\ secure_user_stories fuel fid w1 = (Return stories, w2)
    /\ match stories with
       | _ :: _ => w' = w2
       | [] =>
           exists medias,
             secure_user_medias fuel fid (Some 1%Z) w2 = (Return medias, w')
             /\ medias <> []
       end.

(** [probed fuel fs w kept w']: the followers [fs] were looked at one after
    the other, from [w] to [w']; [kept] are those that passed the checks in
    the state in which their turn came, in the order of [fs]. *)
Inductive probed (fuel : nat)
  : list Z -> World P -> list Z -> World P -> Prop :=
| probed_nil (w : World P) : probed fuel [] w [] w
| probed_keep (fid : Z) (fs : list Z) (w w1 : World P) (kept : list Z)
              (w' : World P) :
    qualifies fuel fid w w1 ->
    probed fuel fs w1 kept w' ->
    probed fuel (fid :: fs) w (fid :: kept) w'
| probed_drop (fid : Z) (fs : list Z) (w w1 : World P) (kept : list Z)
              (w' : World P) :
    (forall w2, ~ qualifies fuel fid w w2) ->
    w1 = snd (probe_follower fuel fid [] w) ->
    probed fuel fs w1 kept w' ->
    probed fuel (fid :: fs) w kept w'.

(** What the loop of [get_active_followers] has done when it returns
    [result], started on the page [fs] with [acc] collected so far. *)
Definition sampled (fuel : nat) (limit : Z) (fs acc result : list Z)
           (w w' : World P) : Prop :=
  exists examined skipped added new,
    fs = examined ++ skipped
    /\ result = acc ++ added
    /\ Subseq added examined
    /\ probed fuel examined w added w'
    /\ grows w w' new
    /\ (forall fid, In fid added ->
          In (CUserInfo fid, None) new /\ In (CUserStories fid, None) new)
    /\ Forall (fun x => exists fid, In fid examined /\ probe_entry fid x) new
    /\ ((Z.of_nat (length result) < limit)%Z -> skipped = [])
    /\ ((Z.of_nat (length acc) < limit)%Z ->
        (Z.of_nat (length result) <= limit)%Z
        /\ ((Z.of_nat (length result) = limit)%Z ->
            exists ex ad last,
              examined = ex ++ [last] /\ added = ad ++ [last])).

(** How a computation can end other than by returning: with an exception
    that is not an [Exception] only if it is the [SystemExit(1)] of a failed
    login, out of fuel only after [fuel] authentication failures. *)
Definition leaves (fuel : nat) {A} (r : outcome A) (w' : World P) : Prop :=
  match r with
  | Return _ => True
  | Raise e =>
      is_Exception e = false -> e = SystemExit 1 /\ login_failed_last w'
  | Diverge => many_auth_failures fuel w'
  end.

Definition leaves_strict (fuel : nat) {A} (r : outcome A) (w' : World P)
  : Prop :=
  match r with
  | Return _ => True
  | Raise e => e = SystemExit 1 /\ login_failed_last w'
  | Diverge => many_auth_failures fuel w'
  end.

(** The last client call was the check of the persisted session and it
    failed with an error that is not a [ClientError]. *)
Definition session_check_failed (w' : World P) : Prop :=
  exists l,
    calls w' = l ++ [(CUserIdFromUsername USERNAME, Some OtherError)].

(** last_run.json cannot be read as a JSON object: its bytes are not text,
    or the text is a JSON value of another kind. *)
Definition last_run_unreadable (w' : World P) : Prop :=
  last_run_file (files w') = Some NotText
  \/ last_run_file (files w') = Some NotAnObject.

Definition startup_post (fuel : nat) {A} (r : outcome A) (w' : World P)
  : Prop :=
  match r with
  | Return _ => True
  | Raise e =>
      (is_Exception e = false -> e = SystemExit 1)
      /\ (login_failed_last w' \/ session_check_failed w'
          \/ last_run_unreadable w')
  | Diverge => many_auth_failures fuel w'
  end.

(** [auth_retries func k w wk]: from [w], the operation fails with
    authentication-required [k] times in a row, each failure followed by a
    device rotation and a re-authentication that succeeds; [wk] is the world
    in which the next attempt starts. *)
Inductive auth_retries {A} (func : Call A)
  : nat -> World P -> World P -> Prop :=
| retries_0 (w : World P) : auth_retries func 0 w w
| retries_S (k : nat) (w w1 w2 w3 wk : World P) :
    _secure_request_try func (time_time (env w)) w
    = (Raise (Api LoginRequired), w1) ->
    _rotate_device w1 = (Return tt, w2) ->
    _login w2 = (Return tt, w3) ->
    auth_retries func k w3 wk ->
    auth_retries func (S k) w wk.

(** The world in which the retry starts, after an attempt of [func] in [w],
    the device rotation and the login. *)
Definition after_retry {A} (func : Call A) (w : World P) : World P :=
  snd (_login
         (snd (_rotate_device
                 (snd (_secure_request_try func (time_time (env w)) w))))).

End Vocabulary.

(** ** A scripted outside, to run the model on

    Every client call answers with the next entry of its own list and with a
    fixed success once the list is used up; the clock stands still, the
    local zone is UTC and the console takes every line. *)
Record Sim : Type := mkSim {
  s_hour : Z;
  s_today : string;
  s_now : Z;
  s_random : list N;
  s_login : list (reply unit);
  s_user_id : list (reply Z);
  s_user_info : list (reply UserInfo);
  s_followers : list (reply (list Z));
  s_medias : list (reply (list Media));
  s_stories : list (reply (list Story));
  s_media_like : list (reply unit);
  s_story_like : list (reply unit)
}.

Definition pop {A} (l : list A) (d : A) : A * list A :=
  match l with
  | [] => (d, [])
  | x :: l' => (x, l')
  end.

Definition sim_login (s : Sim) : reply unit * Sim :=
  let (r, l) := pop (s_login s) (Ok tt) in
  (r, mkSim (s_hour s) (s_today s) (s_now s) (s_random s) l (s_user_id s)
            (s_user_info s) (s_followers s) (s_medias s) (s_stories s)
            (s_media_like s) (s_story_like s)).

Definition sim_user_id (s : Sim) : reply Z * Sim :=
  let (r, l) := pop (s_user_id s) (Ok 1%Z) in
  (r, mkSim (s_hour s) (s_today s) (s_now s) (s_random s) (s_login s) l
            (s_user_info s) (s_followers s) (s_medias s) (s_stories s)
            (s_media_like s) (s_story_like s)).

Definition sim_user_info (s : Sim) : reply UserInfo * Sim :=
  let (r, l) := pop (s_user_info s) (Ok (mkUserInfo false 500)) in
  (r, mkSim (s_hour s) (s_today s) (s_now s) (s_random s) (s_login s)
            (s_user_id s) l (s_followers s) (s_medias s) (s_stories s)
            (s_media_like s) (s_story_like s)).

Definition sim_followers (s : Sim) : reply (list Z) * Sim :=
  let (r, l) := pop (s_followers s) (Ok []) in
  (r, mkSim (s_hour s) (s_today s) (s_now s) (s_random s) (s_login s)
            (s_user_id s) (s_user_info s) l (s_medias s) (s_stories s)
            (s_media_like s) (s_story_like s)).

Definition sim_medias (s : Sim) : reply (list Media) * Sim :=
  let (r, l) := pop (s_medias s) (Ok []) in
  (r, mkSim (s_hour s) (s_today s) (s_now s) (s_random s) (s_login s)
            (s_user_id s) (s_user_info s) (s_followers s) l (s_stories s)
            (s_media_like s) (s_story_like s)).

Definition sim_stories (s : Sim) : reply (list Story) * Sim :=
  let (r, l) := pop (s_stories s) (Ok []) in
  (r, mkSim (s_hour s) (s_today s) (s_now s) (s_random s) (s_login s)
            (s_user_id s) (s_user_info s) (s_followers s) (s_medias s) l
            (s_media_like s) (s_story_like s)).

Definition sim_media_like (s : Sim) : reply unit * Sim :=
  let (r, l) := pop (s_media_like s) (Ok tt) in
  (r, mkSim (s_hour s) (s_today s) (s_now s) (s_random s) (s_login s)
            (s_user_id s) (s_user_info s) (s_followers s) (s_medias s)
            (s_stories s) l (s_story_like s)).

Definition sim_story_like (s : Sim) : reply unit * Sim :=
  let (r, l) := pop (s_story_like s) (Ok tt) in
  (r, mkSim (s_hour s) (s_today s) (s_now s) (s_random s) (s_login s)
            (s_user_id s) (s_user_info s) (s_followers s) (s_medias s)
            (s_stories s) (s_media_like s) l).

Definition sim_getrandbits (s : Sim) : N * Sim :=
  let (r, l) := pop (s_random s) 0%N in
  (r, mkSim (s_hour s) (s_today s) (s_now s) l (s_login s)
            (s_user_id s) (s_user_info s) (s_followers s) (s_medias s)
            (s_stories s) (s_media_like s) (s_story_like s)).

(** The outside seen with the credentials [username] and [password]. *)
Definition SimEnv (username password : string) : Env Sim := {|
  USERNAME := username;
  PASSWORD := password;
  login := fun _ _ _ => sim_login;
  user_id_from_username := fun _ => sim_user_id;
  user_info := fun _ => sim_user_info;
  user_followers := fun _ _ => sim_followers;
  user_medias := fun _ _ => sim_medias;
  user_stories := fun _ => sim_stories;
  media_like := fun _ => sim_media_like;
  story_like := fun _ => sim_story_like;
  set_proxy := fun _ s => s;
  set_user_agent := fun _ s => s;
  set_settings := fun _ s => s;
  get_settings := fun _ => "{}";
  now_hour := s_hour;
  today := s_today;
  now := s_now;
  utcoffset := fun _ => 0%Z;
  time_time := fun _ => 0%Q;
  sleep := fun _ s => s;
  getrandbits := sim_getrandbits;
  input := fun s => ("123456", s);
  stdout_encodes := fun _ _ => true
|}.

Definition sim_env : Env Sim := SimEnv "alice" "secret".

(** A quiet outside at noon: every call succeeds with its default. *)
Definition sim0 : Sim :=
  mkSim 12 "2024-05-02" 1714651200000000 [] [] [] [] [] [] [] [] [].

Definition no_files : Files := mkFiles None None None [] [].

Definition world0 : World Sim := initial_world sim0 no_files.

Definition world_yesterday : World Sim :=
  initial_world sim0
    (mkFiles (Some (mkLastRun (Some "2024-05-01") (Some 137%Z)))
             None None [] []).

(** A post taken 200 seconds before the clock of the scenarios, in UTC. *)
Definition post1 : Media :=
  mkMedia "m1" (mkDatetime 1714651000000000 (Some 0%Z)).

Definition story1 : Story := mkStory "s1".

(** The record of a day on which 200 likes were already given, one target
    account with one active follower who has a recent post and a story. *)
Definition files_exhausted : Files :=
  mkFiles (Some (mkLastRun (Some "2024-05-02") (Some 200%Z)))
          None None [] [].

Definition sim_exhausted : Sim :=
  mkSim 12 "2024-05-02" 1714651200000000 [] [] [] []
        [Ok [11%Z]] [Ok [post1]] [Ok [story1]; Ok [story1]] [] [].

Definition world_exhausted : World Sim :=
  initial_world sim_exhausted files_exhausted.

(** A media fetch that is answered authentication-required twice and then
    succeeds. *)
Definition sim_flaky : Sim :=
  mkSim 12 "2024-05-02" 1714651200000000 [] [] [] [] []
        [Err LoginRequired; Err LoginRequired; Ok [post1]] [] [] [].

Definition world_flaky : World Sim := initial_world sim_flaky no_files.

Definition fetch_medias : @Call Sim (list Media) :=
  mkCall (CUserMedias 7 (Some 6%Z)) (@user_medias _ sim_env 7 (Some 6%Z)).

(** [world_flaky] after the two failed attempts and re-authentications. *)
Definition world_flaky2 : World Sim :=
  @after_retry _ sim_env _ fetch_medias
    (@after_retry _ sim_env _ fetch_medias world_flaky).

(** Noon, one recent post, and a draw of one half for the sleep. *)
Definition sim_noon : Sim :=
  mkSim 12 "2024-05-02" 1714651200000000 [0%N; (2 ^ 52)%N] [] [] [] []
        [Ok [post1]] [] [] [].

Definition world_noon : World Sim := initial_world sim_noon no_files.

(** The first login succeeds; the first lookup of the run is answered
    authentication-required and the login that follows is refused. *)
Definition sim_relogin_refused : Sim :=
  mkSim 12 "2024-05-02" 1714651200000000 [] [Ok tt; Err ClientError]
        [Err LoginRequired] [] [] [] [] [] [].

Definition world_relogin_refused : World Sim :=
  initial_world sim_relogin_refused no_files.

(** The lookup of the first account fails with a client error. *)
Definition sim_account_fails : Sim :=
  mkSim 12 "2024-05-02" 1714651200000000 [] [] [Err ClientError]
        [] [] [] [] [] [].

Definition world_account_fails : World Sim :=
  initial_world sim_account_fails no_files.

(** A page of two followers, the first one public with a story. *)
Definition sim_two_followers : Sim :=
  mkSim 12 "2024-05-02" 1714651200000000 [] [] [] []
        [Ok [11%Z; 12%Z]] [] [Ok [story1]] [] [].

Definition world_two_followers : World Sim :=
  initial_world sim_two_followers no_files.



(** An outside whose media fetch is answered authentication-required every
    time, while every login succeeds. *)
Definition StubbornEnv : Env unit := {|
  USERNAME := "alice";
  PASSWORD := "secret";
  login := fun _ _ _ p => (Ok tt, p);
  user_id_from_username := fun _ p => (Ok 1%Z, p);
  user_info := fun _ p => (Ok (mkUserInfo false 500), p);
  user_followers := fun _ _ p => (Ok [], p);
  user_medias := fun _ _ p => (Err LoginRequired, p);
  user_stories := fun _ p => (Ok [], p);
  media_like := fun _ p => (Ok tt, p);
  story_like := fun _ p => (Ok tt, p);
  set_proxy := fun _ p => p;
  set_user_agent := fun _ p => p;
  set_settings := fun _ p => p;
  get_settings := fun _ => "{}";
  now_hour := fun _ => 12%Z;
  today := fun _ => "2024-05-02";
  now := fun _ => 1714651200000000%Z;
  utcoffset := fun _ => 0%Z;
  time_time := fun _ => 0%Q;
  sleep := fun _ p => p;
  getrandbits := fun p => (0%N, p);
  input := fun p => ("123456", p);
  stdout_encodes := fun _ _ => true
|}.

Definition stubborn_medias : @Call unit (list Media) :=
  mkCall (CUserMedias 7 (Some 6%Z)) (@user_medias _ StubbornEnv 7 (Some 6%Z)).

(** ** Vocabulary of the further properties *)

(** The count that [load_last_run] would read back: [data.get("count", 0)]
    on the record, or on the default record when [load_last_run] falls back
    on it; 0 when the file cannot be read as an object. *)
Definition persisted_count {P : Type} (w : World P) : Z :=
  match last_run_file (files w) with
  | Some (mkLastRun _ (Some c)) => c
  | _ => 0%Z
  end.

Section MoreVocabulary.

Context {P : Type} {E : Env P}.

(** The statements of [main] before its [try]. *)
Definition main_startup (fuel : nat) : M unit :=
  log_event_json "session_start"
    [("message", JStr "Starting engagement session...")] ;;;
  ProxyManager_init ;;;
  AdaptiveSafeClient_init fuel ;;;
  reset_counters.

(** A computation that leaves the daily counter as it found it. *)
Definition keeps_likes {A} (m : @M P A) : Prop :=
  forall w, likes_today (snd (m w)) = likes_today w.

(** Whenever it is looked at, [fid] is private, or has neither a story nor
    a media. *)
Definition never_qualifies (fid : Z) : Prop :=
  (forall p info, fst (user_info fid p) = Ok info -> is_private info = true)
  \/ ((forall p l, fst (user_stories fid p) = Ok l -> l = [])
      /\ (forall p l, fst (user_medias fid (Some 1%Z) p) = Ok l -> l = [])).

(** The time that has passed since the aware datetime [d], at the state [p]
    of the outside: the readings are taken back to UTC and compared. *)
Definition elapsed (d : datetime) (p : P) : option Z :=
  match tzinfo d with
  | Some offset => Some ((now p - utcoffset p) - (wall d - offset))%Z
  | None => None
  end.

(** The session file is there and holds decodable settings. *)
Definition session_stored (w : World P) : Prop :=
  exists s, session_file (files w) = Some (Some s).

End MoreVocabulary.

(** An outside without state: followers 11 and 12, the first one private,
    every public follower with one story; every call succeeds. *)
Definition QuietEnv : Env unit := {|
  USERNAME := "alice";
  PASSWORD := "secret";
  login := fun _ _ _ p => (Ok tt, p);
  user_id_from_username := fun _ p => (Ok 1%Z, p);
  user_info := fun fid p => (Ok (mkUserInfo (fid =? 11)%Z 500), p);
  user_followers := fun _ _ p => (Ok [11%Z; 12%Z], p);
  user_medias := fun _ _ p => (Ok [post1], p);
  user_stories := fun _ p => (Ok [story1], p);
  media_like := fun _ p => (Ok tt, p);
  story_like := fun _ p => (Ok tt, p);
  set_proxy := fun _ p => p;
  set_user_agent := fun _ p => p;
  set_settings := fun _ p => p;
  get_settings := fun _ => "{}";
  now_hour := fun _ => 12%Z;
  today := fun _ => "2024-05-02";
  now := fun _ => 1714651200000000%Z;
  utcoffset := fun _ => 0%Z;
  time_time := fun _ => 0%Q;
  sleep := fun _ p => p;
  getrandbits := fun p => (0%N, p);
  input := fun p => ("123456", p);
  stdout_encodes := fun _ _ => true
|}.

Definition world_quiet : World unit := initial_world tt no_files.

(** A persisted session that is not JSON. *)
Definition world_corrupt_session : World Sim :=
  initial_world sim0 (mkFiles None (Some None) None [] []).

(** A persisted session that decodes. *)
Definition world_valid_session : World Sim :=
  initial_world sim0 (mkFiles None (Some (Some "{}")) None [] []).

(** A record of today without a count. *)
Definition world_no_count : World Sim :=
  initial_world sim0
    (mkFiles (Some (mkLastRun (Some "2024-05-02") None)) None None [] []).

(** A daily record whose bytes are not text, and one that holds a JSON
    list. *)
Definition world_not_text : World Sim :=
  initial_world sim0 (mkFiles (Some NotText) None None [] []).

Definition world_not_object : World Sim :=
  initial_world sim0 (mkFiles (Some NotAnObject) None None [] []).

(** The outside [E] seen from the zone at [offset] from UTC, behind a
    console that takes the lines [encodes] accepts. *)
Definition Placed {P : Type} (E : Env P) (offset : Z)
           (encodes : string -> bool) : Env P := {|
  USERNAME := @USERNAME P E;
  PASSWORD := @PASSWORD P E;
  login := @login P E;
  user_id_from_username := @user_id_from_username P E;
  user_info := @user_info P E;
  user_followers := @user_followers P E;
  user_medias := @user_medias P E;
  user_stories := @user_stories P E;
  media_like := @media_like P E;
  story_like := @story_like P E;
  set_proxy := @set_proxy P E;
  set_user_agent := @set_user_agent P E;
  set_settings := @set_settings P E;
  get_settings := @get_settings P E;
  now_hour := @now_hour P E;
  today := @today P E;
  now := @now P E;
  utcoffset := fun _ => offset;
  time_time := @time_time P E;
  sleep := @sleep P E;
  getrandbits := @getrandbits P E;
  input := @input P E;
  stdout_encodes := fun line _ => encodes line
|}.

(** An encoding that has the ASCII characters only. *)
Definition ascii_only (line : string) : bool :=
  forallb (fun c => (nat_of_ascii c <? 128)%nat) (list_ascii_of_string line).

Definition ascii_env : Env Sim := Placed sim_env 0 ascii_only.

(** Eight hours west of UTC. *)
Definition west_env : Env Sim :=
  Placed sim_env (-28800000000) (fun _ => true).

(** A post whose UTC reading is 15 days less one hour behind the local
    clock of the scenarios. *)
Definition post_old : Media :=
  mkMedia "m0" (mkDatetime 1713358800000000 (Some 0%Z)).

Definition sim_old_post : Sim :=
  mkSim 12 "2024-05-02" 1714651200000000 [] [] [] [] []
        [Ok [post_old]] [] [] [].

Definition world_old_post : World Sim := initial_world sim_old_post no_files.

(** The media fetch fails with an error that is not a client error. *)
Definition sim_unclassified : Sim :=
  mkSim 12 "2024-05-02" 1714651200000000 [] [] [] [] []
        [Err OtherError] [] [] [].

Definition world_unclassified : World Sim :=
  initial_world sim_unclassified no_files.

(** * Properties *)

(** ** ProxyManager: round robin *)
Section ProxyFacts.

Lemma get_proxy_empty (i : nat) :
  get_proxy (mkProxyManager [] i) = (Return None, mkProxyManager [] i).
Proof. reflexivity. Qed.

Lemma get_proxy_at (pool : list string) (i : nat) :
  i < length pool ->
  get_proxy (mkProxyManager pool i)
  = (Return (nth_error pool i),
     mkProxyManager pool ((i + 1) mod length pool)).
Proof.
  intros Hi. unfold get_proxy. simpl.
  destruct pool as [|p pool']; [simpl in Hi; lia|].
  destruct (nth_error (p :: pool') i) eqn:Hn; [reflexivity|].
  apply nth_error_None in Hn. lia.
Qed.

Lemma get_proxy_n_from (pool : list string) (k i : nat) :
  i < length pool ->
  get_proxy_n k (mkProxyManager pool i)
  = (map (fun j => Return (nth_error pool ((i + j) mod length pool)))
         (seq 0 k),
     mkProxyManager pool ((i + k) mod length pool)).
Proof.
  revert i. induction k as [|k IH]; intros i Hi.
  - simpl. rewrite Nat.add_0_r, Nat.mod_small by exact Hi. reflexivity.
  - cbn [get_proxy_n]. rewrite get_proxy_at by exact Hi.
    assert (Hlt : (i + 1) mod length pool < length pool)
      by (apply Nat.mod_upper_bound; lia).
    rewrite (IH _ Hlt). cbn [seq map]. f_equal.
    + f_equal.
      * rewrite Nat.add_0_r, Nat.mod_small by exact Hi. reflexivity.
      * rewrite <- seq_shift, map_map. apply map_ext. intros j.
        rewrite Nat.Div0.add_mod_idemp_l.
        do 3 f_equal. lia.
    + f_equal. rewrite Nat.Div0.add_mod_idemp_l. f_equal. lia.
Qed.

Lemma map_nth_error_seq {A} (l : list A) :
  map (nth_error l) (seq 0 (length l)) = map Some l.
Proof.
  induction l as [|x l IH]; [reflexivity|].
  cbn [length seq map nth_error]. f_equal.
  rewrite <- seq_shift, map_map. exact IH.
Qed.

Lemma get_proxy_n_empty (k i : nat) :
  fst (get_proxy_n k (mkProxyManager [] i)) = repeat (Return None) k.
Proof.
  induction k as [|k IH]; [reflexivity|].
  cbn [get_proxy_n]. rewrite get_proxy_empty.
  destruct (get_proxy_n k (mkProxyManager [] i)) as [rs pm] eqn:Hk.
  simpl in *. now rewrite IH.
Qed.

(** C8.  A pool of N >= 1 proxies, cursor at 0: the call number k (from 0)
    returns entry number k mod N, so N consecutive calls return the pool in
    its order, each entry once, and leave the cursor at 0 again, which
    repeats for ever; an empty pool answers None to every call. *)
Theorem proxy_round_robin (pool : list string) :
  (1 <= length pool ->
   (forall k,
      get_proxy_n k (mkProxyManager pool 0)
      = (map (fun j => Return (nth_error pool (j mod length pool))) (seq 0 k),
         mkProxyManager pool (k mod length pool)))
   /\ get_proxy_n (length pool) (mkProxyManager pool 0)
      = (map (fun p => Return (Some p)) pool, mkProxyManager pool 0))
  /\ (pool = [] ->
      forall k i,
        fst (get_proxy_n k (mkProxyManager pool i)) = repeat (Return None) k).
Proof.
  split.
  - intros HN.
    assert (Hk : forall k,
      get_proxy_n k (mkProxyManager pool 0)
      = (map (fun j => Return (nth_error pool (j mod length pool))) (seq 0 k),
         mkProxyManager pool (k mod length pool))).
    { intros k. rewrite get_proxy_n_from by lia. reflexivity. }
    split; [exact Hk|].
    rewrite Hk, Nat.Div0.mod_same. f_equal.
    rewrite <- (map_map Some (fun o => Return o)).
    rewrite <- map_nth_error_seq, map_map.
    apply map_ext_in. intros j Hj. apply in_seq in Hj.
    rewrite Nat.mod_small by lia. reflexivity.
  - intros -> k i. apply get_proxy_n_empty.
Qed.

End ProxyFacts.

Lemma proxy_round_robin_witness :
  1 <= length ["p1"; "p2"; "p3"]
  /\ get_proxy_n 3 (mkProxyManager ["p1"; "p2"; "p3"] 0)
     = ([Return (Some "p1"); Return (Some "p2"); Return (Some "p3")],
        mkProxyManager ["p1"; "p2"; "p3"] 0).
Proof.
  split; [simpl; lia|].
  apply (proxy_round_robin ["p1"; "p2"; "p3"]). simpl; lia.
Defined.

(** ** DelayScheduler, QuotaTracker *)
Section LeafFacts.

Context {P : Type} {E : Env P}.

(** random.random() answers in [0, 1) and only steps the generator. *)
Lemma random_spec (w : World P) :
  exists u, random w = (Return u, with_env (snd (getrandbits (env w))) w)
            /\ (0 <= u)%Q /\ (u < 1)%Q.
Proof.
  unfold random, bind, step, ret.
  destruct (getrandbits (env w)) as [k p]. simpl.
  eexists. split; [reflexivity|].
  assert (Hk : (0 <= Z.of_N (k mod 2 ^ 53) < 2 ^ 53)%Z).
  { pose proof (N.mod_upper_bound k (2 ^ 53) ltac:(discriminate)) as Hu.
    split; [apply N2Z.is_nonneg|].
    change (2 ^ 53)%Z with (Z.of_N (2 ^ 53)). now apply N2Z.inj_lt. }
  unfold Qle, Qlt. simpl. split; [lia|].
  change (Z.pos (2 ^ 53)) with (2 ^ 53)%Z. lia.
Qed.

(** random.uniform(a, b) with a <= b answers within [a, b]. *)
Lemma uniform_spec (a b : Q) (w : World P) :
  (a <= b)%Q ->
  exists d, uniform a b w
            = (Return d, with_env (snd (getrandbits (env w))) w)
            /\ (a <= d)%Q /\ (d <= b)%Q.
Proof.
  intros Hab. unfold uniform, bind.
  destruct (random_spec w) as (u & -> & H0 & H1).
  unfold ret. eexists. split; [reflexivity|].
  split; nra.
Qed.

(** C9.  For a base range min <= max the delay is returned and lies within
    [0.7 min, 0.7 max] when the local hour is in [8, 20), and within
    [1.3 min, 1.3 max] at any other hour (seconds as exact rationals). *)
Theorem delay_within_scaled_range (w : World P) (lo hi : Q) :
  (lo <= hi)%Q ->
  exists d w',
    get_time_aware_delay (lo, hi) w = (Return d, w')
    /\ if ((8 <=? now_hour (env w)) && (now_hour (env w) <? 20))%Z
       then ((7 # 10) * lo <= d)%Q /\ (d <= (7 # 10) * hi)%Q
       else ((13 # 10) * lo <= d)%Q /\ (d <= (13 # 10) * hi)%Q.
Proof.
  intros Hr. unfold get_time_aware_delay, bind, ask. cbn [fst snd].
  destruct ((8 <=? now_hour (env w)) && (now_hour (env w) <? 20))%Z.
  - destruct (@uniform_spec (lo * (7 # 10))%Q (hi * (7 # 10))%Q w ltac:(lra))
      as (d & Hd & Ha & Hb).
    exists d. eexists. split; [exact Hd|]. split; lra.
  - destruct (@uniform_spec (lo * (13 # 10))%Q (hi * (13 # 10))%Q w ltac:(lra))
      as (d & Hd & Ha & Hb).
    exists d. eexists. split; [exact Hd|]. split; lra.
Qed.

(** C6.  A quota record saved under the date d1, loaded on a day d2 other
    than d1: the counter in memory is 0, the state is FRESH. *)
Theorem reset_on_date_mismatch (w : World P) (d1 d2 : string)
        (c : option Z) :
  last_run_file (files w) = Some (mkLastRun (Some d1) c) ->
  today (env w) = d2 ->
  d1 <> d2 ->
  exists w',
    reset_counters w = (Return tt, w')
    /\ likes_today w' = 0%Z
    /\ quota_state w' = FRESH.
Proof.
  intros Hf Hd Hne.
  unfold reset_counters, load_last_run, bind, get, ask. rewrite Hf.
  cbn [ret option_string_eqb]. rewrite Hd.
  apply String.eqb_neq in Hne. rewrite Hne. cbn [negb].
  unfold modify, save_last_run, bind, ask, modify.
  eexists. split; [reflexivity|]. split; reflexivity.
Qed.

Lemma increment_likes_quiet (w : World P) :
  ((likes_today w + 1) mod 10 <> 0)%Z ->
  increment_likes w = (Return tt, with_likes_today (likes_today w + 1) w).
Proof.
  intros Hm. unfold increment_likes, bind, modify, get.
  cbn [likes_today with_likes_today].
  apply Z.eqb_neq in Hm. rewrite Hm. reflexivity.
Qed.

Lemma increment_likes_write (w : World P) :
  ((likes_today w + 1) mod 10 = 0)%Z ->
  increment_likes w
  = save_last_run (likes_today w + 1)
                  (with_likes_today (likes_today w + 1) w).
Proof.
  intros Hm. unfold increment_likes, bind, modify, get.
  cbn [likes_today with_likes_today].
  apply Z.eqb_eq in Hm. rewrite Hm. reflexivity.
Qed.

(** Between two multiples of 10 the increments only move the counter. *)
Lemma increment_likes_n_quiet (k : nat) (w : World P) :
  (0 <= likes_today w)%Z ->
  ((likes_today w) mod 10 + Z.of_nat k < 10)%Z ->
  increment_likes_n k w
  = (Return tt, with_likes_today (likes_today w + Z.of_nat k) w).
Proof.
  revert w. induction k as [|k IH]; intros w Hpos Hk.
  - destruct w. cbn. unfold with_likes_today. cbn. rewrite Z.add_0_r.
    reflexivity.
  - cbn [increment_likes_n]. unfold bind at 1.
    pose proof (Z.mod_pos_bound (likes_today w) 10 ltac:(lia)) as Hb.
    assert (Hstep : ((likes_today w + 1) mod 10
                     = likes_today w mod 10 + 1)%Z).
    { rewrite Z.add_mod by lia.
      change (1 mod 10)%Z with 1%Z. apply Z.mod_small. lia. }
    rewrite increment_likes_quiet by lia.
    rewrite IH; cbn [likes_today with_likes_today]; try lia.
    destruct w. unfold with_likes_today. cbn. do 2 f_equal. lia.
Qed.

Lemma increment_likes_n_add (a b : nat) (w : World P) :
  increment_likes_n (a + b) w
  = (increment_likes_n a ;;; increment_likes_n b) w.
Proof.
  revert w. induction a as [|a IH]; intros w; [reflexivity|].
  cbn [increment_likes_n Nat.add]. unfold bind.
  destruct (increment_likes w) as [[[]|e|] w1]; try reflexivity.
  rewrite IH. reflexivity.
Qed.

(** C7.  From a counter at 0, nine increments leave every file as it was
    and the counter in memory at 9; the tenth writes the record. *)
Theorem nine_increments_leave_file (w : World P) :
  likes_today w = 0%Z ->
  (exists w9,
      increment_likes_n 9 w = (Return tt, w9)
      /\ files w9 = files w
      /\ likes_today w9 = 9%Z)
  /\ (exists w10,
         increment_likes_n 10 w = (Return tt, w10)
         /\ last_run_file (files w10)
            = Some (mkLastRun (Some (today (env w))) (Some 10%Z))
         /\ likes_today w10 = 10%Z).
Proof.
  intros H0.
  assert (H9 : increment_likes_n 9 w
               = (Return tt, with_likes_today 9 w)).
  { rewrite increment_likes_n_quiet; rewrite H0; try reflexivity; lia. }
  split.
  - exists (with_likes_today 9 w). repeat split. exact H9.
  - change 10 with (9 + 1). rewrite increment_likes_n_add.
    unfold bind at 1. rewrite H9.
    cbn [increment_likes_n]. unfold bind at 1.
    rewrite increment_likes_write by reflexivity.
    cbn [likes_today with_likes_today].
    unfold save_last_run, bind, ask, modify, ret.
    cbn [env with_likes_today].
    eexists. split; [reflexivity|]. split; reflexivity.
Qed.

End LeafFacts.

Lemma delay_within_scaled_range_witness :
  (120 <= 300)%Q
  /\ exists d w',
       @get_time_aware_delay _ sim_env (120, 300)%Q world0 = (Return d, w')
       /\ ((7 # 10) * 120 <= d)%Q /\ (d <= (7 # 10) * 300)%Q.
Proof.
  split; [unfold Qle; simpl; lia|].
  apply (@delay_within_scaled_range _ sim_env world0 120 300).
  unfold Qle; simpl; lia.
Defined.

Lemma reset_on_date_mismatch_witness :
  exists w',
    @reset_counters _ sim_env world_yesterday = (Return tt, w')
    /\ likes_today w' = 0%Z
    /\ quota_state w' = FRESH.
Proof.
  apply (@reset_on_date_mismatch _ sim_env world_yesterday
           "2024-05-01" "2024-05-02" (Some 137%Z)).
  - reflexivity.
  - reflexivity.
  - discriminate.
Defined.

Lemma nine_increments_leave_file_witness :
  exists w9,
    @increment_likes_n _ sim_env 9 world0 = (Return tt, w9)
    /\ files w9 = files world0
    /\ likes_today w9 = 9%Z.
Proof.
  apply (@nine_increments_leave_file _ sim_env world0). reflexivity.
Defined.

(** ** The client, the sampler and the orchestrator *)
Section Core.

Context {P : Type} {E : Env P}.

Lemma grows_refl (w : World P) : grows w w [].
Proof. unfold grows. rewrite app_nil_r. auto. Qed.

Lemma grows_trans (w w1 w2 : World P) n1 n2 :
  grows w w1 n1 -> grows w1 w2 n2 -> grows w w2 (n1 ++ n2).
Proof.
  intros (A1 & A2 & A3 & A4) (B1 & B2 & B3 & B4). unfold grows.
  rewrite B1, B2, B3, A1, A2, A3, app_assoc. repeat split; auto.
Qed.

Lemma grows_env (w : World P) p : grows w (with_env p w) [].
Proof. unfold grows. simpl. rewrite app_nil_r. auto. Qed.

Lemma randbelow_spec (n : nat) (w : World P) :
  randbelow n w
  = (Return (N.to_nat (fst (getrandbits (env w))) mod n)%nat,
     with_env (snd (getrandbits (env w))) w).
Proof.
  unfold randbelow, bind, step, ret.
  destruct (getrandbits (env w)); reflexivity.
Qed.

Lemma choice_spec {A} (x : A) (l : list A) (w : World P) :
  exists y,
    choice (x :: l) w = (Return y, with_env (snd (getrandbits (env w))) w)
    /\ In y (x :: l).
Proof.
  unfold choice, bind. rewrite randbelow_spec.
  set (i := (N.to_nat (fst (getrandbits (env w))) mod length (x :: l))%nat).
  assert (Hi : i < length (x :: l)) by (apply Nat.mod_upper_bound; simpl; lia).
  destruct (nth_error (x :: l) i) eqn:Hn.
  - exists a. split; [reflexivity|]. eapply nth_error_In; eauto.
  - apply nth_error_None in Hn. lia.
Qed.

Lemma _rotate_device_spec (w : World P) :
  exists p, _rotate_device w = (Return tt, with_env p w).
Proof.
  unfold _rotate_device, bind, devices.
  destruct (choice_spec (mkDevice "iPhone15,4" "iOS 17.1.2")
              [mkDevice "Pixel 8 Pro" "Android 14";
               mkDevice "SM-S928U" "Android 13"] w) as (d & -> & _).
  unfold tell. simpl. eexists. reflexivity.
Qed.

Ltac inv H := inversion H; subst; clear H.

Lemma _login_spec (w : World P) (r : outcome unit) (w' : World P) :
  _login w = (r, w') ->
  exists new, grows w w' new
    /\ Forall (fun x => is_login (fst x) = true) new
    /\ match r with
       | Return _ => True
       | Raise e => login_failed_last w'
                    /\ (is_Exception e = false -> e = SystemExit 1)
       | Diverge => False
       end.
Proof.
  unfold _login, try_except, bind, invoke, dump_settings, login_call.
  cbn [run tag].
  destruct (login USERNAME PASSWORD None (env w)) as [[[]|a] p] eqn:H1.
  - cbn. intros H; inv H. eexists. split; [|split].
    + unfold grows; cbn; repeat split; auto.
    + repeat constructor.
    + exact I.
  - destruct a; cbn.
    + intros H; inv H. eexists. split; [|split].
      * unfold grows; cbn; repeat split; auto.
      * repeat constructor.
      * split; [|reflexivity]. do 3 eexists. cbn. reflexivity.
    + unfold step. cbn. destruct (input p) as [code p2]. cbn.
      destruct (login USERNAME PASSWORD (Some code) p2) as [[[]|a] p3] eqn:H2;
        cbn; intros H; inv H.
      * eexists. split; [|split].
        -- unfold grows; cbn; repeat split; auto.
           rewrite <- app_assoc. reflexivity.
        -- repeat constructor.
        -- exact I.
      * eexists. split; [|split].
        -- unfold grows; cbn; repeat split; auto.
           rewrite <- app_assoc. reflexivity.
        -- repeat constructor.
        -- split; [|discriminate]. do 3 eexists. cbn. reflexivity.
    + intros H; inv H. eexists. split; [|split].
      * unfold grows; cbn; repeat split; auto.
      * repeat constructor.
      * split; [|reflexivity]. do 3 eexists. cbn. reflexivity.
    + intros H; inv H. eexists. split; [|split].
      * unfold grows; cbn; repeat split; auto.
      * repeat constructor.
      * split; [|discriminate]. do 3 eexists. cbn. reflexivity.
Qed.

Lemma get_proxy_cases (pm : ProxyManager) :
  (exists o pm', get_proxy pm = (Return o, pm')
                 /\ (pm_ok pm -> pm_ok pm'))
  \/ (get_proxy pm = (Raise IndexError, pm) /\ ~ pm_ok pm).
Proof.
  unfold get_proxy, pm_ok. destruct pm as [l i]. simpl.
  destruct l as [|x l]; [left; do 2 eexists; split; [reflexivity|auto]|].
  destruct (nth_error (x :: l) i) eqn:Hn.
  - left. do 2 eexists. split; [reflexivity|]. intros _. right.
    cbn [proxies index]. apply Nat.mod_upper_bound. discriminate.
  - right. split; [reflexivity|]. apply nth_error_None in Hn.
    intros [H|H]; [discriminate|]. simpl in *. lia.
Qed.

Lemma _secure_request_try_spec {A} (func : Call A) (start : Q)
      (w : World P) (r : outcome A) (w1 : World P) :
  _secure_request_try func start w = (r, w1) -> try_post func w r w1.
Proof.
  unfold _secure_request_try, bind at 1, proxy_manager_get_proxy.
  destruct (get_proxy_cases (proxy_manager w))
    as [(o & pm' & Hg & Hok)|[Hg Hno]]; rewrite Hg.
  2:{ intros H; inv H. split; [|exact Hno]. destruct w. apply grows_refl. }
  set (w0 := with_proxy_manager pm' w).
  assert (G0 : grows w w0 []).
  { unfold grows, w0. cbn. rewrite app_nil_r. auto. }
  assert (Hset : exists p,
    (match o with
     | Some p => if truthy o then tell (set_proxy p) else ret tt
     | None => ret tt
     end) w0 = (Return tt, with_env p w0)).
  { destruct o as [s|]; [destruct (truthy (Some s))|]; unfold tell, ret;
      try (eexists; reflexivity); exists (env w0); destruct w0; reflexivity. }
  destruct Hset as (p & Hset). unfold bind at 1. rewrite Hset.
  unfold bind, invoke, ask, track_call, modify, ret. cbn [env with_env].
  destruct (run func p) as [[a|e] p']; intros H; inv H; cbn [try_post];
    unfold grows; cbn; repeat split; auto.
Qed.

Lemma retry_entry_failed (c : api_call) (a : api_exn) :
  Forall (retry_entry c) [(c, Some a)].
Proof.
  constructor; [|constructor]. right. split; [reflexivity|discriminate].
Qed.

Lemma retry_entry_logins (c : api_call) (l : list entry) :
  Forall (fun x => is_login (fst x) = true) l -> Forall (retry_entry c) l.
Proof. apply Forall_impl. intros x Hx. left. exact Hx. Qed.

Lemma _secure_request_spec {A} (fuel : nat) (func : Call A) (w : World P)
      (r : outcome A) (w' : World P) :
  _secure_request fuel func w = (r, w') ->
  secure_post fuel (tag func) w r w'.
Proof.
  revert w r w'. induction fuel as [|fuel IH]; intros w r w' H.
  - inv H. exists []. split; [apply grows_refl|].
    split; [constructor|simpl; lia].
  - cbn [_secure_request] in H. unfold bind at 1, ask at 1, try_except in H.
    destruct (_secure_request_try func (time_time (env w)) w)
      as [[a|e|] w1] eqn:Ht;
      apply _secure_request_try_spec in Ht; cbn [try_post] in Ht;
      try contradiction.
    + inv H. exists [(tag func, None)]. split; [exact Ht|].
      exists []. split; [reflexivity|constructor].
    + destruct e as [a| | | | | | |code]; try contradiction.
      * destruct a.
        -- unfold bind at 1 in H.
           destruct (_rotate_device_spec w1) as (p2 & Hr). rewrite Hr in H.
           unfold bind at 1 in H.
           destruct (_login (with_env p2 w1)) as [[[]|e|] w3] eqn:Hl;
             apply _login_spec in Hl; destruct Hl as (nl & Gl & Fl & Hl);
             try contradiction.
           ++ apply IH in H. destruct H as (n4 & G4 & H4).
              pose proof (grows_trans
                (grows_trans (grows_trans Ht (grows_env w1 p2)) Gl) G4) as G.
              eexists. split; [exact G|].
              assert (Fpre : Forall (retry_entry (tag func))
                        (([(tag func, Some LoginRequired)] ++ []) ++ nl)).
              { apply Forall_app. split; [apply retry_entry_failed|].
                now apply retry_entry_logins. }
              destruct r as [a|e|].
              ** destruct H4 as (pre & -> & Fp).
                 eexists. split; [rewrite app_assoc; reflexivity|].
                 apply Forall_app. split; assumption.
              ** destruct H4 as (F4 & C4). split.
                 { apply Forall_app. split; assumption. }
                 destruct C4 as [C4|[C4|[C4 C5]]].
                 { left. exact C4. }
                 { right. left. exact C4. }
                 { right. right. split; [exact C4|]. intros Hok. apply C5.
                   destruct Gl as (_ & _ & _ & Gl). apply Gl. cbn.
                   destruct Ht as (_ & _ & _ & Ht). apply Ht. exact Hok. }
              ** destruct H4 as (F4 & C4). split.
                 { apply Forall_app. split; assumption. }
                 rewrite !filter_app, !length_app. cbn. lia.
           ++ inv H. destruct Hl as (Hl1 & Hl2).
              pose proof (grows_trans
                (grows_trans Ht (grows_env w1 p2)) Gl) as G.
              eexists. split; [exact G|]. split.
              ** apply Forall_app. split; [apply retry_entry_failed|].
                 now apply retry_entry_logins.
              ** left. split; assumption.
        -- unfold bind at 1, track_error at 1, modify at 1 in H.
           unfold bind at 1 in H.
           match type of H with
           | context [_rotate_device ?x] =>
               destruct (_rotate_device_spec x) as (p2 & Hr); rewrite Hr in H
           end.
           inv H. destruct Ht as (A1 & A2 & A3 & A4).
           exists [(tag func, Some TwoFactorRequired)]. split.
           { unfold grows. cbn. auto. }
           split; [apply retry_entry_failed|].
           right. left. exists (calls w), TwoFactorRequired. cbn.
           repeat split; auto. discriminate.
        -- unfold bind at 1, track_error at 1, modify at 1 in H.
           unfold bind at 1 in H.
           match type of H with
           | context [_rotate_device ?x] =>
               destruct (_rotate_device_spec x) as (p2 & Hr); rewrite Hr in H
           end.
           inv H. destruct Ht as (A1 & A2 & A3 & A4).
           exists [(tag func, Some ClientError)]. split.
           { unfold grows. cbn. auto. }
           split; [apply retry_entry_failed|].
           right. left. exists (calls w), ClientError. cbn.
           repeat split; auto. discriminate.
        -- unfold bind, track_error, modify, raise in H. inv H.
           destruct Ht as (A1 & A2 & A3 & A4).
           exists [(tag func, Some OtherError)]. split.
           { unfold grows. cbn. auto. }
           split; [apply retry_entry_failed|].
           right. left. exists (calls w), OtherError. cbn.
           repeat split; auto. discriminate.
      * unfold bind, track_error, modify, raise in H. inv H.
        destruct Ht as (Ht & Hno). destruct Ht as (A1 & A2 & A3 & A4).
        exists []. split.
        { unfold grows. cbn. auto. }
        split; [constructor|]. right. right. split; [reflexivity|exact Hno].
Qed.


(** Consequences of [secure_post]. *)

Lemma likes_done_retry (c : api_call) (l : list entry) :
  Forall (retry_entry c) l -> likes_done l = [].
Proof.
  induction 1 as [|x l Hx _ IH]; [reflexivity|].
  unfold likes_done in *. cbn [filter]. rewrite IH.
  destruct x as [t [a|]]; destruct Hx as [Hx|[Hx1 Hx2]]; cbn in *.
  - rewrite andb_false_r. reflexivity.
  - rewrite andb_false_r. reflexivity.
  - destruct t; try discriminate; reflexivity.
  - congruence.
Qed.

Lemma likes_done_app (l1 l2 : list entry) :
  likes_done (l1 ++ l2) = likes_done l1 ++ likes_done l2.
Proof. apply filter_app. Qed.

Lemma secure_no_like {A} fuel (c : api_call) (w w' : World P)
      (r : outcome A) :
  secure_post fuel c w r w' -> is_like c = false ->
  exists new, grows w w' new /\ likes_done new = [].
Proof.
  intros (new & G & H) Hc. exists new. split; [exact G|].
  destruct r as [a|e|].
  - destruct H as (pre & -> & F). rewrite likes_done_app.
    rewrite (likes_done_retry F). unfold likes_done. cbn. now rewrite Hc.
  - destruct H as (F & _). exact (likes_done_retry F).
  - destruct H as (F & _). exact (likes_done_retry F).
Qed.

Lemma secure_exit {A} fuel (c : api_call) (w w' : World P) (e : exn) :
  secure_post (A := A) fuel c w (Raise e) w' -> is_Exception e = false ->
  e = SystemExit 1 /\ login_failed_last w'.
Proof.
  intros (new & G & F & [[C1 C2]|[(l & a & C1 & C2 & C3)|[C1 C2]]]) He.
  - auto.
  - subst e. destruct a; discriminate.
  - subst e. discriminate.
Qed.

Lemma increment_likes_spec (w : World P) :
  exists w', increment_likes w = (Return tt, w')
    /\ likes_today w' = (likes_today w + 1)%Z
    /\ calls w' = calls w /\ slept w' = slept w.
Proof.
  unfold increment_likes, bind, modify, get, save_last_run, bind, ask,
    modify, ret.
  cbn [likes_today with_likes_today].
  destruct ((likes_today w + 1) mod 10 =? 0)%Z; eexists; split;
    try reflexivity; cbn; auto.
Qed.

Lemma recent_posts_spec (posts : list Media) (w : World P) :
  recent_posts posts w
  = (Return (filter (fun p => (now (env w) - wall (taken_at p)
                               <? timedelta_days POST_AGE_LIMIT_DAYS)%Z) posts),
     w).
Proof.
  induction posts as [|p posts IH]; [reflexivity|].
  cbn [recent_posts filter].
  unfold bind at 1, is_recent_post, bind at 1, ask, ret.
  cbn [replace_tzinfo_None wall].
  unfold bind at 1. rewrite IH.
  destruct (now (env w) - wall (taken_at p)
            <? timedelta_days POST_AGE_LIMIT_DAYS)%Z;
    reflexivity.
Qed.

Lemma secure_abort {A} fuel (c : api_call) (w w' : World P)
      (r : outcome A) :
  secure_post fuel c w r w' ->
  match r with
  | Return _ => True
  | Raise e =>
      exists new, grows w w' new /\ likes_done new = []
        /\ (is_Exception e = false -> e = SystemExit 1 /\ login_failed_last w')
  | Diverge =>
      exists new, grows w w' new /\ likes_done new = []
        /\ fuel <= length (filter auth_failure new)
  end.
Proof.
  intros H. destruct r as [a|e|]; [exact I| |].
  - pose proof (secure_exit H) as He.
    destruct H as (new & G & F & _). exists new.
    split; [exact G|]. split; [exact (likes_done_retry F)|exact He].
  - destruct H as (new & G & F & Hn). exists new.
    split; [exact G|]. split; [exact (likes_done_retry F)|exact Hn].
Qed.

Lemma auth_failures_app (l1 l2 : list entry) :
  length (filter auth_failure (l1 ++ l2))
  = length (filter auth_failure l1) + length (filter auth_failure l2).
Proof. now rewrite filter_app, length_app. Qed.

Lemma process_posts_spec (fuel : nat) (user_id : Z) (username : string)
      (w : World P) (r : outcome Z) (w' : World P) :
  process_posts fuel user_id username w = (r, w') ->
  engagement_post fuel (check_mark ++ " Liked post from @" ++ username)
    w r w'.
Proof.
  unfold process_posts, try_except.
  unfold bind at 1, log_event_json at 1, modify at 1.
  set (w0 := with_files _ w).
  assert (G0 : grows w w0 [])
    by (unfold grows, w0; cbn; rewrite app_nil_r; auto).
  clearbody w0. unfold bind at 1.
  destruct (secure_user_medias fuel user_id (Some 6%Z) w0)
    as [[posts|e|] w1] eqn:H1;
    apply _secure_request_spec in H1; cbn [tag] in H1.
  - (* posts fetched *)
    destruct (secure_no_like H1 eq_refl) as (n1 & G1 & L1).
    unfold bind at 1. rewrite recent_posts_spec.
    set (valid := filter _ posts). clearbody valid.
    destruct valid as [|v valid].
    + intros H; inv H.
      pose proof (grows_trans G0 G1) as (A1 & A2 & A3 & _).
      exists ([] ++ n1). split; [exact A3|]. right. cbn. auto.
    + unfold bind at 1.
      destruct (choice_spec v valid w1) as (post & -> & _).
      unfold bind at 1.
      destruct (secure_media_like fuel (media_id post) _)
        as [[[]|e|] w3] eqn:H3;
        apply _secure_request_spec in H3; cbn [tag] in H3.
      * destruct H3 as (n3 & G3 & pre3 & -> & F3).
        unfold bind at 1.
        destruct (increment_likes_spec w3) as (w4 & -> & I1 & I2 & I3).
        unfold bind at 1, track_hourly_engagement at 1, bind at 1,
          ask at 1, modify at 1.
        unfold bind at 1, log_event_json at 1, modify at 1.
        unfold bind at 1, print at 1, bind at 1, ask at 1.
        cbn [env with_files with_metrics].
        pose proof (grows_trans
                      (grows_trans (grows_trans G0 G1) (grows_env w1 _)) G3)
          as (A1 & A2 & A3 & _).
        assert (Hl : exists pre c,
                   (([] ++ n1) ++ []) ++ pre3
                                  ++ [(CMediaLike (media_id post), None)]
                   = pre ++ [(c, None)]
                   /\ is_like c = true /\ likes_done pre = []).
        { exists (([] ++ n1) ++ [] ++ pre3), (CMediaLike (media_id post)).
          split; [now rewrite !app_assoc|]. split; [reflexivity|].
          cbn. rewrite likes_done_app, L1. exact (likes_done_retry F3). }
        destruct (stdout_encodes _ (env w4)) eqn:Henc.
        -- unfold modify at 1. unfold bind at 1.
           match goal with
           | |- context [uniform 30 55 ?x] =>
               destruct (@uniform_spec _ _ 30 55 x
                           ltac:(unfold Qle; cbn; lia))
                 as (d & -> & D1 & D2)
           end.
           unfold bind, time_sleep, bind, tell, modify, ret.
           intros H; inv H.
           eexists. cbn. split; [rewrite I2; exact A3|]. left.
           split; [reflexivity|]. split; [rewrite I1, A1; reflexivity|].
           split; [exact Hl|]. exists d. rewrite I3, A2. auto.
        -- (* the console refuses the line *)
           unfold raise at 1. cbn [is_Exception].
           unfold bind, log_event_json, modify, ret. intros H; inv H.
           eexists. cbn. split; [rewrite I2; exact A3|]. right. right.
           split; [reflexivity|]. split; [rewrite I1, A1; reflexivity|].
           split; [exact Hl|]. split; [rewrite I3, A2; reflexivity|].
           exact Henc.
      * (* the like raised *)
        destruct (secure_abort H3) as (n3 & G3 & L3 & X3).
        pose proof (grows_trans
                      (grows_trans (grows_trans G0 G1) (grows_env w1 _)) G3)
          as (A1 & A2 & A3 & _).
        destruct (is_Exception e) eqn:He.
        -- unfold bind, log_event_json, modify, ret. intros H; inv H.
           eexists. cbn. split; [exact A3|]. right.
           rewrite !likes_done_app, L1, L3. cbn. auto.
        -- unfold raise. intros H; inv H. destruct (X3 eq_refl) as (-> & X).
           eexists. split; [exact A3|].
           rewrite !likes_done_app, L1, L3. cbn. auto.
      * destruct (secure_abort H3) as (n3 & G3 & L3 & X3).
        pose proof (grows_trans
                      (grows_trans (grows_trans G0 G1) (grows_env w1 _)) G3)
          as (A1 & A2 & A3 & _).
        intros H; inv H. eexists. split; [exact A3|].
        rewrite !likes_done_app, !auth_failures_app, L1, L3. cbn.
        repeat split; auto. lia.
  - destruct (secure_abort H1) as (n1 & G1 & L1 & X1).
    pose proof (grows_trans G0 G1) as (A1 & A2 & A3 & _).
    destruct (is_Exception e) eqn:He.
    + unfold bind, log_event_json, modify, ret. intros H; inv H.
      eexists. cbn. split; [exact A3|]. right. cbn. auto.
    + unfold raise. intros H; inv H. destruct (X1 eq_refl) as (-> & X).
      eexists. split; [exact A3|]. cbn. auto.
  - destruct (secure_abort H1) as (n1 & G1 & L1 & X1).
    pose proof (grows_trans G0 G1) as (A1 & A2 & A3 & _).
    intros H; inv H. eexists. split; [exact A3|]. cbn. auto.
Qed.


Lemma process_stories_spec (fuel : nat) (user_id : Z) (username : string)
      (w : World P) (r : outcome Z) (w' : World P) :
  process_stories fuel user_id username w = (r, w') ->
  engagement_post fuel (check_mark ++ " Liked story from @" ++ username)
    w r w'.
Proof.
  unfold process_stories, try_except.
  unfold bind at 1, log_event_json at 1, modify at 1.
  set (w0 := with_files _ w).
  assert (G0 : grows w w0 [])
    by (unfold grows, w0; cbn; rewrite app_nil_r; auto).
  clearbody w0. unfold bind at 1.
  destruct (secure_user_stories fuel user_id w0) as [[stories|e|] w1] eqn:H1;
    apply _secure_request_spec in H1; cbn [tag] in H1.
  - destruct (secure_no_like H1 eq_refl) as (n1 & G1 & L1).
    destruct stories as [|v stories].
    + intros H; inv H.
      pose proof (grows_trans G0 G1) as (A1 & A2 & A3 & _).
      exists ([] ++ n1). split; [exact A3|]. right. cbn. auto.
    + unfold bind at 1.
      destruct (choice_spec v stories w1) as (story & -> & _).
      unfold bind at 1, log_event_json at 1, modify at 1.
      set (w2 := with_files _ (with_env _ w1)).
      assert (G2 : grows w1 w2 [])
        by (unfold grows, w2; cbn; rewrite app_nil_r; auto).
      clearbody w2. unfold bind at 1.
      destruct (secure_story_like fuel (story_id story) w2)
        as [[[]|e|] w3] eqn:H3;
        apply _secure_request_spec in H3; cbn [tag] in H3.
      * destruct H3 as (n3 & G3 & pre3 & -> & F3).
        unfold bind at 1.
        destruct (increment_likes_spec w3) as (w4 & -> & I1 & I2 & I3).
        unfold bind at 1, track_hourly_engagement at 1, bind at 1,
          ask at 1, modify at 1.
        unfold bind at 1, log_event_json at 1, modify at 1.
        unfold bind at 1, print at 1, bind at 1, ask at 1.
        cbn [env with_files with_metrics].
        pose proof (grows_trans (grows_trans (grows_trans G0 G1) G2) G3)
          as (A1 & A2 & A3 & _).
        assert (Hl : exists pre c,
                   (([] ++ n1) ++ []) ++ pre3
                                  ++ [(CStoryLike (story_id story), None)]
                   = pre ++ [(c, None)]
                   /\ is_like c = true /\ likes_done pre = []).
        { exists (([] ++ n1) ++ [] ++ pre3), (CStoryLike (story_id story)).
          split; [now rewrite !app_assoc|]. split; [reflexivity|].
          cbn. rewrite likes_done_app, L1. exact (likes_done_retry F3). }
        destruct (stdout_encodes _ (env w4)) eqn:Henc.
        -- unfold modify at 1. unfold bind at 1.
           match goal with
           | |- context [uniform 30 55 ?x] =>
               destruct (@uniform_spec _ _ 30 55 x
                           ltac:(unfold Qle; cbn; lia))
                 as (d & -> & D1 & D2)
           end.
           unfold bind, time_sleep, bind, tell, modify, ret.
           intros H; inv H.
           eexists. cbn. split; [rewrite I2; exact A3|]. left.
           split; [reflexivity|]. split; [rewrite I1, A1; reflexivity|].
           split; [exact Hl|]. exists d. rewrite I3, A2. auto.
        -- (* the console refuses the line *)
           unfold raise at 1. cbn [is_Exception].
           unfold bind, log_event_json, modify, ret. intros H; inv H.
           eexists. cbn. split; [rewrite I2; exact A3|]. right. right.
           split; [reflexivity|]. split; [rewrite I1, A1; reflexivity|].
           split; [exact Hl|]. split; [rewrite I3, A2; reflexivity|].
           exact Henc.
      * destruct (secure_abort H3) as (n3 & G3 & L3 & X3).
        pose proof (grows_trans (grows_trans (grows_trans G0 G1) G2) G3)
          as (A1 & A2 & A3 & _).
        destruct (is_Exception e) eqn:He.
        -- unfold bind, log_event_json, modify, ret. intros H; inv H.
           eexists. cbn. split; [exact A3|]. right.
           rewrite !likes_done_app, L1, L3. cbn. auto.
        -- unfold raise. intros H; inv H. destruct (X3 eq_refl) as (-> & X).
           eexists. split; [exact A3|].
           rewrite !likes_done_app, L1, L3. cbn. auto.
      * destruct (secure_abort H3) as (n3 & G3 & L3 & X3).
        pose proof (grows_trans (grows_trans (grows_trans G0 G1) G2) G3)
          as (A1 & A2 & A3 & _).
        intros H; inv H. eexists. split; [exact A3|].
        rewrite !likes_done_app, !auth_failures_app, L1, L3. cbn.
        repeat split; auto. lia.
  - destruct (secure_abort H1) as (n1 & G1 & L1 & X1).
    pose proof (grows_trans G0 G1) as (A1 & A2 & A3 & _).
    destruct (is_Exception e) eqn:He.
    + unfold bind, log_event_json, modify, ret. intros H; inv H.
      eexists. cbn. split; [exact A3|]. right. cbn. auto.
    + unfold raise. intros H; inv H. destruct (X1 eq_refl) as (-> & X).
      eexists. split; [exact A3|]. cbn. auto.
  - destruct (secure_abort H1) as (n1 & G1 & L1 & X1).
    pose proof (grows_trans G0 G1) as (A1 & A2 & A3 & _).
    intros H; inv H. eexists. split; [exact A3|]. cbn. auto.
Qed.

(** *** The engagement steps *)



(** *** The follower sampler *)

Lemma grows_auth_failures (fuel : nat) (w w' : World P) (new : list entry) :
  grows w w' new -> fuel <= length (filter auth_failure new) ->
  many_auth_failures fuel w'.
Proof.
  intros (_ & _ & G & _) H. unfold many_auth_failures.
  rewrite G, auth_failures_app. lia.
Qed.

Lemma secure_tags {A} fuel (c : api_call) (w w' : World P) (r : outcome A) :
  secure_post fuel c w r w' ->
  exists new, grows w w' new
    /\ Forall (fun x => is_login (fst x) = true \/ fst x = c) new
    /\ match r with
       | Return _ => In (c, None) new
       | Raise e =>
           is_Exception e = false -> e = SystemExit 1 /\ login_failed_last w'
       | Diverge => many_auth_failures fuel w'
       end.
Proof.
  intros H. pose proof H as (new & G & Hr). exists new. split; [exact G|].
  assert (T : forall l,
             Forall (retry_entry c) l ->
             Forall (fun x => is_login (fst x) = true \/ fst x = c) l).
  { apply Forall_impl. intros x [Hx|[Hx _]]; auto. }
  destruct r as [a|e|].
  - destruct Hr as (pre & -> & F). split.
    + apply Forall_app. split; [now apply T|].
      constructor; [now right|constructor].
    + apply in_or_app. right. now left.
  - destruct Hr as (F & _). split; [now apply T|]. exact (secure_exit H).
  - destruct Hr as (F & Hn). split; [now apply T|].
    exact (grows_auth_failures G Hn).
Qed.

Lemma probe_entry_of (fid : Z) (c : api_call) (l : list entry) :
  c = CUserInfo fid \/ c = CUserStories fid \/ c = CUserMedias fid (Some 1%Z) ->
  Forall (fun x => is_login (fst x) = true \/ fst x = c) l ->
  Forall (probe_entry fid) l.
Proof.
  intros Hc. apply Forall_impl. intros x [Hx|Hx]; [now left|right].
  rewrite Hx. exact Hc.
Qed.

Lemma is_active_spec (fuel : nat) (fid : Z) (info : UserInfo) (w : World P)
      (r : outcome bool) (w1 : World P) :
  is_active fuel fid info w = (r, w1) ->
  exists new, grows w w1 new /\ Forall (probe_entry fid) new /\
    match r with
    | Return true => In (CUserStories fid, None) new
    | Return false => True
    | Raise e =>
        is_Exception e = false -> e = SystemExit 1 /\ login_failed_last w1
    | Diverge => many_auth_failures fuel w1
    end.
Proof.
  unfold is_active. destruct (negb (is_private info)).
  2:{ intros H; inv H. exists []. split; [apply grows_refl|]. split; auto. }
  unfold bind at 1.
  destruct (secure_user_stories fuel fid w) as [[stories|e|] w2] eqn:H1;
    apply _secure_request_spec, secure_tags in H1; cbn [tag] in H1;
    destruct H1 as (n1 & G1 & T1 & R1);
    apply (@probe_entry_of fid) in T1; auto.
  - destruct stories as [|s stories].
    + unfold bind at 1.
      destruct (secure_user_medias fuel fid (Some 1%Z) w2)
        as [[medias|e|] w3] eqn:H2;
        apply _secure_request_spec, secure_tags in H2; cbn [tag] in H2;
        destruct H2 as (n2 & G2 & T2 & R2);
        apply (@probe_entry_of fid) in T2; auto;
        intros H; inv H; exists (n1 ++ n2);
        (split; [eapply grows_trans; eauto|]);
        (split; [apply Forall_app; auto|]); auto.
      destruct medias; auto. apply in_or_app. now left.
    + intros H; inv H. exists n1. auto.
  - intros H; inv H. exists n1. auto.
  - intros H; inv H. exists n1. auto.
Qed.

Lemma probe_follower_spec (fuel : nat) (fid : Z) (acc : list Z)
      (w : World P) (r : outcome (list Z)) (w1 : World P) :
  probe_follower fuel fid acc w = (r, w1) ->
  match r with
  | Return acc' =>
      exists new, grows w w1 new /\ Forall (probe_entry fid) new
        /\ (acc' = acc
            \/ (acc' = acc ++ [fid]
                /\ In (CUserInfo fid, None) new
                /\ In (CUserStories fid, None) new))
  | Raise e => e = SystemExit 1 /\ login_failed_last w1
  | Diverge => many_auth_failures fuel w1
  end.
Proof.
  unfold probe_follower, try_except. unfold bind at 1.
  destruct (secure_user_info fuel fid w) as [[info|e|] w2] eqn:H1;
    apply _secure_request_spec, secure_tags in H1; cbn [tag] in H1;
    destruct H1 as (n1 & G1 & T1 & R1);
    apply (@probe_entry_of fid) in T1; auto.
  - unfold bind at 1.
    destruct (is_active fuel fid info w2) as [[[]|e|] w3] eqn:H2;
      apply is_active_spec in H2; destruct H2 as (n2 & G2 & T2 & R2).
    + intros H; inv H. exists (n1 ++ n2).
      split; [eapply grows_trans; eauto|].
      split; [apply Forall_app; auto|]. right.
      split; [reflexivity|]. split; apply in_or_app; auto.
    + intros H; inv H. exists (n1 ++ n2).
      split; [eapply grows_trans; eauto|].
      split; [apply Forall_app; auto|]. now left.
    + destruct (is_Exception e) eqn:He; intros H; inv H.
      * exists (n1 ++ n2). split; [eapply grows_trans; eauto|].
        split; [apply Forall_app; auto|]. now left.
      * auto.
    + intros H; inv H. exact R2.
  - destruct (is_Exception e) eqn:He; intros H; inv H.
    + exists n1. auto.
    + auto.
  - intros H; inv H. exact R1.
Qed.


Lemma Subseq_nil_l {A} (l : list A) : Subseq [] l.
Proof. induction l; constructor; auto. Qed.

(** A follower is kept exactly when it passes the checks. *)
Lemma probe_follower_qualifies (fuel : nat) (fid : Z) (acc acc' : list Z)
      (w w1 : World P) :
  probe_follower fuel fid acc w = (Return acc', w1) ->
  (acc' = acc ++ [fid] /\ qualifies fuel fid w w1)
  \/ (acc' = acc /\ forall w2, ~ qualifies fuel fid w w2).
Proof.
  unfold probe_follower, try_except. unfold bind at 1.
  destruct (secure_user_info fuel fid w) as [[info|e|] w2] eqn:H1.
  - unfold bind at 1, is_active.
    destruct (is_private info) eqn:Hp; cbn [negb].
    { intros H; inv H. right. split; [reflexivity|].
      intros w' (i & a & st & b & E1 & E2 & _).
      rewrite H1 in E1. inv E1. congruence. }
    unfold bind at 1.
    destruct (secure_user_stories fuel fid w2) as [[stories|e|] w3] eqn:H2.
    + destruct stories as [|s stories].
      * unfold bind at 1.
        destruct (secure_user_medias fuel fid (Some 1%Z) w3)
          as [[medias|e|] w4] eqn:H3.
        -- destruct medias as [|m medias]; intros H; inv H.
           ++ right. split; [reflexivity|].
              intros w' (i & a & st & b & E1 & _ & E3 & E4).
              rewrite H1 in E1. inv E1. rewrite H2 in E3. inv E3.
              destruct E4 as (ms & E4 & Hms). rewrite H3 in E4. inv E4.
              now apply Hms.
           ++ left. split; [reflexivity|].
              exists info, w2, [], w3. repeat split; auto.
              exists (m :: medias). split; [exact H3|discriminate].
        -- destruct (is_Exception e); intros H; inv H.
           right. split; [reflexivity|].
           intros w' (i & a & st & b & E1 & _ & E3 & E4).
           rewrite H1 in E1. inv E1. rewrite H2 in E3. inv E3.
           destruct E4 as (ms & E4 & _). rewrite H3 in E4. discriminate.
        -- discriminate.
      * intros H; inv H. left. split; [reflexivity|].
        exists info, w2, (s :: stories), w1. repeat split; auto.
    + destruct (is_Exception e); intros H; inv H.
      right. split; [reflexivity|].
      intros w' (i & a & st & b & E1 & _ & E3 & _).
      rewrite H1 in E1. inv E1. rewrite H2 in E3. discriminate.
    + discriminate.
  - destruct (is_Exception e); intros H; inv H.
    right. split; [reflexivity|].
    intros w' (i & a & st & b & E1 & _). rewrite H1 in E1. discriminate.
  - discriminate.
Qed.

(** The state a probe leaves does not depend on the followers kept so
    far. *)
Lemma probe_follower_state (fuel : nat) (fid : Z) (acc : list Z)
      (w : World P) :
  snd (probe_follower fuel fid acc w) = snd (probe_follower fuel fid [] w).
Proof.
  unfold probe_follower, try_except, bind.
  destruct (secure_user_info fuel fid w) as [[info|e|] w2];
    [destruct (is_active fuel fid info w2) as [[[]|e|] w3]|..];
    try destruct (is_Exception e); reflexivity.
Qed.

Lemma probed_dropped (fuel : nat) (fid : Z) (fs acc acc' kept : list Z)
      (w w1 w' : World P) :
  (forall w2, ~ qualifies fuel fid w w2) ->
  probe_follower fuel fid acc w = (Return acc', w1) ->
  probed fuel fs w1 kept w' ->
  probed fuel (fid :: fs) w kept w'.
Proof.
  intros Hq Hb Hp. eapply probed_drop; [exact Hq| |exact Hp].
  rewrite <- (probe_follower_state fuel fid acc), Hb. reflexivity.
Qed.

Lemma followers_loop_spec (fuel : nat) (limit : Z) (fs : list Z) :
  forall (acc : list Z) (w : World P) (r : outcome (list Z)) (w' : World P),
    followers_loop fuel limit fs acc w = (r, w') ->
    match r with
    | Return result => sampled fuel limit fs acc result w w'
    | Raise e => e = SystemExit 1 /\ login_failed_last w'
    | Diverge => many_auth_failures fuel w'
    end.
Proof.
  induction fs as [|fid rest IH]; intros acc w r w' H.
  - inv H. exists [], [], [], [].
    split; [reflexivity|]. split; [now rewrite app_nil_r|].
    split; [constructor|]. split; [constructor|].
    split; [apply grows_refl|].
    split; [intros f []|]. split; [constructor|]. split; [reflexivity|].
    intros Hl. split; [lia|]. intros Heq. lia.
  - cbn [followers_loop] in H. unfold bind at 1 in H.
    destruct (probe_follower fuel fid acc w) as [[acc'|e|] w1] eqn:Hb.
    2:{ apply probe_follower_spec in Hb. inv H. exact Hb. }
    2:{ apply probe_follower_spec in Hb. inv H. exact Hb. }
    pose proof (probe_follower_qualifies _ _ _ _ Hb) as Hq.
    pose proof (probe_follower_spec _ _ _ _ Hb) as (n1 & G1 & T1 & Hacc).
    assert (Hin1 : acc' = acc ++ [fid] ->
                   In (CUserInfo fid, None) n1
                   /\ In (CUserStories fid, None) n1).
    { intros ->. destruct Hacc as [Heq|(_ & I1 & I2)]; [|auto].
      apply (f_equal (@length Z)) in Heq. rewrite length_app in Heq.
      cbn in Heq. lia. }
    clear Hacc.
    assert (T1' : Forall (fun x => exists f,
                             In f [fid] /\ probe_entry f x) n1).
    { eapply Forall_impl; [|exact T1]. intros x Hx. exists fid.
      split; [now left|exact Hx]. }
    destruct (Z.of_nat (length acc') >=? limit)%Z eqn:Hlim.
    + (* break *)
      inv H. apply Z.geb_le in Hlim.
      destruct Hq as [(-> & Hq)|(-> & Hq)].
      * destruct (Hin1 eq_refl) as (I1 & I2).
        rewrite length_app in Hlim. cbn in Hlim.
        exists [fid], rest, [fid], n1.
        split; [reflexivity|]. split; [reflexivity|].
        split; [apply Subseq_take, Subseq_nil|].
        split; [exact (probed_keep Hq (probed_nil fuel w'))|].
        split; [exact G1|].
        split; [intros f [<-|[]]; auto|].
        split; [exact T1'|].
        split; [rewrite length_app; cbn; lia|].
        intros Hl. rewrite length_app. cbn. split; [lia|].
        intros _. exists [], [], fid. auto.
      * exists [fid], rest, [], n1.
        split; [reflexivity|]. split; [now rewrite app_nil_r|].
        split; [apply Subseq_nil_l|].
        split; [eapply probed_dropped; [exact Hq|exact Hb|constructor]|].
        split; [exact G1|].
        split; [intros f []|].
        split; [exact T1'|].
        split; [lia|]. intros Hl. lia.
    + apply IH in H. destruct r as [result|e|]; auto.
      assert (Hlt : (Z.of_nat (length acc') < limit)%Z).
      { destruct (Z.geb_spec (Z.of_nat (length acc')) limit);
          [discriminate|lia]. }
      destruct H as (ex & sk & ad & n2 & -> & -> & Hs & Hpd & G2 & Hin & Hpr
                     & Hsk & Hb0).
      specialize (Hb0 Hlt). destruct Hb0 as (Hb1 & Hb2).
      assert (Hpr' : Forall (fun x => exists f,
                                 In f (fid :: ex) /\ probe_entry f x)
                            (n1 ++ n2)).
      { apply Forall_app. split.
        - eapply Forall_impl; [|exact T1]. intros x Hx. exists fid.
          split; [now left|exact Hx].
        - eapply Forall_impl; [|exact Hpr]. intros x (f & Hf & Hx). exists f.
          split; [now right|exact Hx]. }
      destruct Hq as [(-> & Hq)|(-> & Hq)].
      * destruct (Hin1 eq_refl) as (I1 & I2).
        exists (fid :: ex), sk, (fid :: ad), (n1 ++ n2).
        split; [reflexivity|]. split; [now rewrite <- app_assoc|].
        split; [now apply Subseq_take|].
        split; [exact (probed_keep Hq Hpd)|].
        split; [eapply grows_trans; eauto|].
        split.
        { intros f [<-|Hf].
          - split; apply in_or_app; auto.
          - destruct (Hin f Hf). split; apply in_or_app; auto. }
        split; [exact Hpr'|]. split; [exact Hsk|].
        intros _. split; [exact Hb1|]. intros Heq.
        destruct (Hb2 Heq) as (ex' & ad' & last & -> & ->).
        exists (fid :: ex'), (fid :: ad'), last. auto.
      * exists (fid :: ex), sk, ad, (n1 ++ n2).
        split; [reflexivity|]. split; [reflexivity|].
        split; [now apply Subseq_skip|].
        split; [eapply probed_dropped; [exact Hq|exact Hb|exact Hpd]|].
        split; [eapply grows_trans; eauto|].
        split.
        { intros f Hf. destruct (Hin f Hf). split; apply in_or_app; auto. }
        split; [exact Hpr'|]. split; [exact Hsk|].
        intros _. split; [exact Hb1|]. intros Heq.
        destruct (Hb2 Heq) as (ex' & ad' & last & -> & ->).
        exists (fid :: ex'), ad', last. auto.
Qed.


Lemma secure_leaves {A} (fuel : nat) (func : Call A) (w : World P)
      (r : outcome A) (w' : World P) :
  _secure_request fuel func w = (r, w') -> leaves fuel r w'.
Proof.
  intros H. apply _secure_request_spec, secure_tags in H.
  destruct H as (new & _ & _ & H). destruct r; cbn; auto.
Qed.

Lemma engagement_leaves (fuel : nat) (line : string) (w : World P)
      (r : outcome Z) (w' : World P) :
  engagement_post fuel line w r w' -> leaves_strict fuel r w'.
Proof.
  intros (new & G & H). destruct r as [n|e|]; cbn; [exact I| |].
  - destruct H as (H1 & H2 & _). auto.
  - destruct H as (H1 & _). unfold many_auth_failures.
    rewrite G, auth_failures_app. lia.
Qed.

Lemma get_active_followers_spec (fuel : nat) (username : string) (limit : Z)
      (w : World P) (r : outcome (list Z)) (w' : World P) :
  get_active_followers fuel username limit w = (r, w') ->
  match r with
  | Return result =>
      exists uid w1 page w2,
        secure_user_id_from_username fuel username w = (Return uid, w1)
        /\ secure_user_followers fuel uid 150 w1 = (Return page, w2)
        /\ sampled fuel limit page [] result w2 w'
  | Raise e =>
      is_Exception e = false -> e = SystemExit 1 /\ login_failed_last w'
  | Diverge => many_auth_failures fuel w'
  end.
Proof.
  unfold get_active_followers, bind.
  destruct (secure_user_id_from_username fuel username w)
    as [[uid|e|] w1] eqn:H1.
  2:{ intros H; inv H. exact (secure_leaves _ _ _ H1). }
  2:{ intros H; inv H. exact (secure_leaves _ _ _ H1). }
  destruct (secure_user_followers fuel uid 150 w1) as [[page|e|] w2] eqn:H2.
  2:{ intros H; inv H. exact (secure_leaves _ _ _ H2). }
  2:{ intros H; inv H. exact (secure_leaves _ _ _ H2). }
  intros H. apply followers_loop_spec in H.
  destruct r as [result|e|].
  - exists uid, w1, page, w2. auto.
  - intros _. exact H.
  - exact H.
Qed.

Lemma randint_spec (a b : Z) (w : World P) :
  (a <= b)%Z ->
  exists n, randint a b w
            = (Return n, with_env (snd (getrandbits (env w))) w)
            /\ (a <= n <= b)%Z.
Proof.
  intros Hab. unfold randint, bind. rewrite randbelow_spec. unfold ret.
  eexists. split; [reflexivity|].
  pose proof (Nat.mod_upper_bound (N.to_nat (fst (getrandbits (env w))))
                (Z.to_nat (b - a + 1)) ltac:(lia)).
  lia.
Qed.

Lemma get_follower_limit_spec (follower_count : Z) (w : World P) :
  exists n, get_follower_limit follower_count w
            = (Return n, with_env (snd (getrandbits (env w))) w)
            /\ (4 <= n <= 12)%Z.
Proof.
  unfold get_follower_limit.
  destruct (follower_count <? 10000)%Z;
    [|destruct (follower_count <? 100000)%Z].
  - destruct (@randint_spec 8 12 w ltac:(lia)) as (n & -> & Hn).
    exists n. split; [reflexivity|lia].
  - destruct (@randint_spec 6 9 w ltac:(lia)) as (n & -> & Hn).
    exists n. split; [reflexivity|lia].
  - destruct (@randint_spec 4 6 w ltac:(lia)) as (n & -> & Hn).
    exists n. split; [reflexivity|lia].
Qed.

Lemma engage_loop_spec (fuel : nat) (username : string) (fids : list Z) :
  forall (w : World P) (r : outcome unit) (w' : World P),
    engage_loop fuel username fids w = (r, w') -> leaves_strict fuel r w'.
Proof.
  induction fids as [|fid rest IH]; intros w r w' H.
  - inv H. exact I.
  - cbn [engage_loop] in H. unfold bind at 1 in H.
    destruct (process_posts fuel fid username w) as [[n|e|] w1] eqn:H1;
      apply process_posts_spec, engagement_leaves in H1.
    2:{ inv H. exact H1. }
    2:{ inv H. exact H1. }
    unfold bind at 1 in H.
    destruct (process_stories fuel fid username w1) as [[m|e|] w2] eqn:H2;
      apply process_stories_spec, engagement_leaves in H2.
    2:{ inv H. exact H2. }
    2:{ inv H. exact H2. }
    eapply IH; eauto.
Qed.

Lemma process_target_account_spec (fuel : nat) (username : string)
      (w : World P) (r : outcome unit) (w' : World P) :
  process_target_account fuel username w = (r, w') -> leaves_strict fuel r w'.
Proof.
  unfold process_target_account, try_except.
  match goal with
  | |- context [match ?m w with _ => _ end] =>
      assert (Hbody : leaves fuel (fst (m w)) (snd (m w)))
  end.
  { match goal with
    | |- leaves _ (fst ?x) _ => destruct x as [r1 w1] eqn:Hm
    end.
    cbn [fst snd]. revert Hm. unfold bind at 1.
    destruct (secure_user_id_from_username fuel username w)
      as [[uid|e|] w2] eqn:H1.
    2:{ intros H; inv H. exact (secure_leaves _ _ _ H1). }
    2:{ intros H; inv H. exact (secure_leaves _ _ _ H1). }
    unfold bind at 1.
    destruct (secure_user_info fuel uid w2) as [[info|e|] w3] eqn:H2.
    2:{ intros H; inv H. exact (secure_leaves _ _ _ H2). }
    2:{ intros H; inv H. exact (secure_leaves _ _ _ H2). }
    unfold bind at 1.
    destruct (get_follower_limit_spec (follower_count info) w3)
      as (n & -> & _).
    unfold bind at 1.
    destruct (get_active_followers fuel username n _)
      as [[fids|e|] w4] eqn:H3; apply get_active_followers_spec in H3.
    2:{ intros H; inv H. exact H3. }
    2:{ intros H; inv H. exact H3. }
    intros H. apply engage_loop_spec in H.
    destruct r1; cbn in *; auto. }
  match goal with
  | |- context [match ?m w with _ => _ end] =>
      destruct (m w) as [[[]|e|] w1]
  end; cbn [fst snd leaves] in Hbody.
  - intros H; inv H. exact I.
  - destruct (is_Exception e) eqn:He.
    + unfold log_event_json, modify. intros H; inv H. exact I.
    + unfold raise. intros H; inv H. exact (Hbody eq_refl).
  - intros H; inv H. exact Hbody.
Qed.


Lemma uniform_returns (a b : Q) (w : World P) :
  exists d, uniform a b w
            = (Return d, with_env (snd (getrandbits (env w))) w).
Proof.
  unfold uniform, bind. destruct (random_spec w) as (u & -> & _).
  eexists. reflexivity.
Qed.

Lemma get_time_aware_delay_returns (base_range : Q * Q) (w : World P) :
  exists d, get_time_aware_delay base_range w
            = (Return d, with_env (snd (getrandbits (env w))) w).
Proof.
  unfold get_time_aware_delay, bind, ask.
  destruct ((8 <=? now_hour (env w)) && (now_hour (env w) <? 20))%Z;
    apply uniform_returns.
Qed.

Lemma accounts_loop_spec (fuel : nat) (accounts : list string) :
  forall (w : World P) (r : outcome unit) (w' : World P),
    accounts_loop fuel accounts w = (r, w') -> leaves_strict fuel r w'.
Proof.
  induction accounts as [|account rest IH]; intros w r w' H.
  - inv H. exact I.
  - cbn [accounts_loop] in H. unfold bind at 1, try_except in H.
    unfold bind at 1, ask at 1 in H. unfold bind at 1 in H.
    destruct (process_target_account fuel account w) as [[[]|e|] w1] eqn:H1;
      apply process_target_account_spec in H1.
    + unfold bind at 1, ask at 1 in H. unfold bind at 1 in H.
      match type of H with
      | context [get_time_aware_delay ?b ?x] =>
          destruct (get_time_aware_delay_returns b x) as (d & Hd);
            rewrite Hd in H
      end.
      unfold bind at 1, log_event_json at 1, modify at 1 in H.
      unfold time_sleep, bind at 1, tell, modify in H.
      eapply IH; eauto.
    + destruct H1 as (-> & H1). cbn [is_Exception] in H.
      unfold raise in H. inv H. cbn. auto.
    + inv H. exact H1.
Qed.

Lemma shuffle_from_returns {A} (i : nat) :
  forall (x : list A) (w : World P),
    exists y p, shuffle_from i x w = (Return y, with_env p w).
Proof.
  induction i as [|i IH]; intros x w.
  - exists x, (env w). destruct w; reflexivity.
  - cbn [shuffle_from]. unfold bind. rewrite randbelow_spec.
    destruct (IH (swap x (S i)
                    (N.to_nat (fst (getrandbits (env w))) mod S (S i))%nat)
                 (with_env (snd (getrandbits (env w))) w)) as (y & p & ->).
    exists y, p. reflexivity.
Qed.

Lemma _login_startup (fuel : nat) (w : World P) (r : outcome unit)
      (w' : World P) :
  _login w = (r, w') -> startup_post fuel r w'.
Proof.
  intros H. apply _login_spec in H. destruct H as (new & _ & _ & H).
  destruct r as [[]|e|]; cbn; [exact I| |contradiction].
  destruct H as (H1 & H2). auto.
Qed.

Lemma _load_session_spec (fuel : nat) (w : World P) (r : outcome unit)
      (w' : World P) :
  pm_ok (proxy_manager w) ->
  _load_session fuel w = (r, w') -> startup_post fuel r w'.
Proof.
  intros Hok. unfold _load_session, bind at 1, get.
  destruct (session_file (files w)) as [content|]; [|apply _login_startup].
  unfold bind at 1, try_except.
  destruct content as [settings|].
  - unfold bind at 1, tell at 1. unfold bind at 1.
    match goal with
    | |- context [secure_user_id_from_username fuel USERNAME ?x] =>
        destruct (secure_user_id_from_username fuel USERNAME x)
          as [[uid|e|] w1] eqn:H1;
          pose proof (_secure_request_spec _ _ _ H1) as S1; cbn [tag] in S1
    end.
    + intros H; inv H. exact I.
    + destruct S1 as (new & G & F & C).
      destruct (is_ClientError e) eqn:Hc.
      { unfold bind, remove_session_file, modify, ret. apply _login_startup. }
      destruct e as [a| | | | | | |code];
        try (unfold bind, remove_session_file, modify, ret;
             apply _login_startup);
        unfold raise; intros H; inv H; cbn.
      * destruct C as [[C1 C2]|[(l & a' & C1 & C2 & C3)|[C1 C2]]].
        -- auto.
        -- destruct a'; try discriminate; inv C3; discriminate.
        -- discriminate.
      * destruct C as [[C1 C2]|[(l & a' & C1 & C2 & C3)|[C1 C2]]].
        -- auto.
        -- destruct a'; discriminate.
        -- discriminate.
      * destruct C as [[C1 C2]|[(l & a' & C1 & C2 & C3)|[C1 C2]]].
        -- auto.
        -- destruct a'; discriminate.
        -- discriminate.
      * destruct C as [[C1 C2]|[(l & a' & C1 & C2 & C3)|[C1 C2]]].
        -- auto.
        -- destruct a'; discriminate.
        -- discriminate.
      * destruct C as [[C1 C2]|[(l & a' & C1 & C2 & C3)|[C1 C2]]].
        -- auto.
        -- destruct a'; discriminate.
        -- discriminate.
      * destruct C as [[C1 C2]|[(l & a' & C1 & C2 & C3)|[C1 C2]]].
        -- auto.
        -- split; [discriminate|]. right. left.
           destruct a'; try discriminate; try congruence.
           exists l. exact C1.
        -- exfalso. apply C2. exact Hok.
      * destruct C as [[C1 C2]|[(l & a' & C1 & C2 & C3)|[C1 C2]]].
        -- auto.
        -- destruct a'; discriminate.
        -- discriminate.
    + intros H; inv H. exact (secure_leaves _ _ _ H1).
  - unfold bind at 1, raise at 1. cbn [is_ClientError].
    unfold bind, remove_session_file, modify, ret. apply _login_startup.
Qed.

Lemma AdaptiveSafeClient_init_spec (fuel : nat) (w : World P)
      (r : outcome unit) (w' : World P) :
  pm_ok (proxy_manager w) ->
  AdaptiveSafeClient_init fuel w = (r, w') -> startup_post fuel r w'.
Proof.
  intros Hok. unfold AdaptiveSafeClient_init, bind.
  destruct (_rotate_device_spec w) as (p & ->).
  apply _load_session_spec. exact Hok.
Qed.

(** [EngagementTracker()] returns unless last_run.json cannot be read as an
    object; then it raises and leaves everything as it was. *)
Lemma reset_counters_cases (w : World P) :
  (exists w', reset_counters w = (Return tt, w') /\ calls w' = calls w)
  \/ (last_run_unreadable w
      /\ exists e, reset_counters w = (Raise e, w) /\ is_Exception e = true).
Proof.
  unfold last_run_unreadable, reset_counters, load_last_run, bind, get, ask,
    modify, save_last_run, bind, ask, modify, ret, raise.
  destruct (last_run_file (files w)) as [[date count| | |]|]; cbn.
  2:{ right. split; [now right|]. eexists. split; reflexivity. }
  3:{ right. split; [now left|]. eexists. split; reflexivity. }
  all: left;
    match goal with
    | |- context [if ?b then _ else _] => destruct b
    end; eexists; split; reflexivity.
Qed.

Lemma finalize_returns (w : World P) :
  exists w', finalize w = (Return tt, w') /\ calls w' = calls w.
Proof.
  unfold finalize, bind, save_metrics, get, save_last_run, bind, ask, modify,
    log_event_json, modify.
  eexists. split; reflexivity.
Qed.

Lemma main_spec (fuel : nat) (w : World P) (r : outcome unit)
      (w' : World P) :
  main fuel w = (r, w') -> startup_post fuel r w'.
Proof.
  unfold main. unfold bind at 1, log_event_json at 1, modify at 1.
  unfold bind at 1, ProxyManager_init, bind at 1, _load_proxies, bind at 1, get.
  set (w0 := with_files _ w).
  assert (Hpm : exists l w1,
    (match proxy_file (files w0) with
     | Some lines =>
         ret (filter (fun line => negb (line =? EmptyString)%string) lines)
     | None => ret []
     end) w0 = (Return l, w1) /\ w1 = w0).
  { destruct (proxy_file (files w0)); do 2 eexists; split; reflexivity. }
  destruct Hpm as (l & w1 & -> & ->). unfold modify at 1.
  set (w2 := with_proxy_manager _ w0).
  assert (Hok : pm_ok (proxy_manager w2)).
  { unfold w2, pm_ok. cbn. destruct l; [now left|right; cbn; lia]. }
  clearbody w2. clear w0. unfold bind at 1.
  destruct (AdaptiveSafeClient_init fuel w2) as [[[]|e|] w3] eqn:H3;
    apply AdaptiveSafeClient_init_spec in H3; try exact Hok.
  2:{ intros H; inv H. exact H3. }
  2:{ intros H; inv H. exact H3. }
  unfold bind at 1.
  destruct (reset_counters_cases w3)
    as [(w4 & -> & _)|(Hu & e & -> & He)].
  2:{ intros H; inv H. cbn. split; [congruence|]. right. right. exact Hu. }
  unfold try_finally, try_except, bind at 1.
  destruct (shuffle_from_returns (length TARGET_ACCOUNTS - 1)
              TARGET_ACCOUNTS w4) as (accounts & p & Hs).
  unfold shuffle. rewrite Hs.
  destruct (accounts_loop fuel accounts (with_env p w4))
    as [[[]|e|] w5] eqn:H5; apply accounts_loop_spec in H5.
  - destruct (finalize_returns w5) as (w6 & -> & _). intros H; inv H. exact I.
  - destruct H5 as (-> & H5). cbn [is_Exception]. unfold raise.
    destruct (finalize_returns w5) as (w6 & -> & Hc). intros H; inv H.
    cbn. split; [auto|]. left. unfold login_failed_last in *.
    rewrite Hc. exact H5.
  - intros H; inv H. exact H5.
Qed.


(** *** The retry of [_secure_request] *)

Lemma _secure_request_retry {A} (func : Call A) (fuel : nat)
      (w w1 w2 w3 : World P) :
  _secure_request_try func (time_time (env w)) w
  = (Raise (Api LoginRequired), w1) ->
  _rotate_device w1 = (Return tt, w2) ->
  _login w2 = (Return tt, w3) ->
  _secure_request (S fuel) func w = _secure_request fuel func w3.
Proof.
  intros H1 H2 H3. cbn [_secure_request].
  unfold bind at 1, ask at 1, try_except. rewrite H1.
  unfold bind at 1. rewrite H2. unfold bind at 1. rewrite H3. reflexivity.
Qed.

Lemma _secure_request_return {A} (func : Call A) (fuel : nat)
      (w w' : World P) (a : A) :
  _secure_request_try func (time_time (env w)) w = (Return a, w') ->
  _secure_request (S fuel) func w = (Return a, w').
Proof.
  intros H1. cbn [_secure_request].
  unfold bind at 1, ask at 1, try_except. rewrite H1. reflexivity.
Qed.

Lemma _secure_request_client_error {A} (func : Call A) (fuel : nat)
      (w w' : World P) (e : api_exn) :
  _secure_request_try func (time_time (env w)) w = (Raise (Api e), w') ->
  e = ClientError \/ e = TwoFactorRequired ->
  fst (_secure_request (S fuel) func w) = Raise (Api e).
Proof.
  intros H1 He. cbn [_secure_request].
  unfold bind at 1, ask at 1, try_except. rewrite H1.
  destruct He as [-> | ->];
    unfold bind at 1, track_error at 1, modify at 1; unfold bind at 1;
    match goal with
    | |- context [_rotate_device ?x] =>
        destruct (_rotate_device_spec x) as (p & ->)
    end; reflexivity.
Qed.

Lemma api_call_eqb_refl (c : api_call) : api_call_eqb c c = true.
Proof.
  destruct c as [[v|]|u|u|u n|u [n|]|u|i|i]; cbn;
    rewrite ?String.eqb_refl, ?Z.eqb_refl; reflexivity.
Qed.

Lemma attempts_app (c : api_call) (l1 l2 : list entry) :
  attempts c (l1 ++ l2) = attempts c l1 + attempts c l2.
Proof. unfold attempts. now rewrite filter_app, length_app. Qed.

Lemma attempts_logins (c : api_call) (l : list entry) :
  is_login c = false ->
  Forall (fun x => is_login (fst x) = true) l ->
  attempts c l = 0.
Proof.
  intros Hc. induction 1 as [|x l Hx _ IH]; [reflexivity|].
  unfold attempts in *. cbn [filter].
  destruct x as [t o]. cbn in Hx. destruct t; try discriminate.
  destruct c; try discriminate; destruct verification_code; exact IH.
Qed.

Lemma calls_since_grows (w w' : World P) (new : list entry) :
  grows w w' new -> calls_since w w' = new.
Proof.
  intros (_ & _ & G & _). unfold calls_since. rewrite G.
  rewrite skipn_app, skipn_all, Nat.sub_diag. reflexivity.
Qed.

Lemma auth_retries_grows {A} (func : Call A) (k : nat) (w wk : World P) :
  auth_retries func k w wk ->
  exists new, grows w wk new
    /\ (is_login (tag func) = false -> attempts (tag func) new = k).
Proof.
  induction 1 as [w|k w w1 w2 w3 wk H1 H2 H3 _ (n4 & G4 & IH)].
  - exists []. split; [apply grows_refl|reflexivity].
  - apply _secure_request_try_spec in H1. cbn [try_post] in H1.
    destruct (_rotate_device_spec w1) as (p & Hr). rewrite Hr in H2. inv H2.
    apply _login_spec in H3. destruct H3 as (nl & Gl & Fl & _).
    eexists. split.
    + exact (grows_trans (grows_trans (grows_trans H1 (grows_env w1 p)) Gl) G4).
    + intros Hc. rewrite !attempts_app, (attempts_logins _ Hc Fl), (IH Hc).
      unfold attempts. cbn. rewrite api_call_eqb_refl. reflexivity.
Qed.

Lemma auth_retries_unroll {A} (func : Call A) (k : nat) (w wk : World P) :
  auth_retries func k w wk ->
  forall fuel, _secure_request (k + fuel) func w = _secure_request fuel func wk.
Proof.
  induction 1 as [w|k w w1 w2 w3 wk H1 H2 H3 _ IH]; intros fuel.
  - reflexivity.
  - cbn [Nat.add]. erewrite _secure_request_retry by eassumption. apply IH.
Qed.

(** C2.  [_secure_request] retries after every
    authentication-required failure that is followed by a successful
    re-authentication, with no ceiling on the number of retries: when the
    operation fails that way on its first k attempts and returns on attempt
    k+1, the call returns that value after exactly k+1 attempts, for any
    bound on the recursion depth above k; a client error or a two-factor
    demand on attempt k+1 propagates to the caller. *)
Theorem retries_until_authenticated {A} (func : Call A) (k fuel : nat)
        (w wk : World P) :
  auth_retries func k w wk ->
  k < fuel ->
  (forall a w',
      _secure_request_try func (time_time (env wk)) wk = (Return a, w') ->
      _secure_request fuel func w = (Return a, w')
      /\ (is_login (tag func) = false ->
          attempts (tag func) (calls_since w w') = S k))
  /\ (forall e w',
         _secure_request_try func (time_time (env wk)) wk
         = (Raise (Api e), w') ->
         e = ClientError \/ e = TwoFactorRequired ->
         fst (_secure_request fuel func w) = Raise (Api e)).
Proof.
  intros Hr Hk.
  replace fuel with (k + S (fuel - S k)) by lia.
  rewrite (auth_retries_unroll Hr). split.
  - intros a w' Ht. split; [now apply _secure_request_return|].
    intros Hc. destruct (auth_retries_grows Hr) as (new & G & Hn).
    apply _secure_request_try_spec in Ht. cbn [try_post] in Ht.
    rewrite (calls_since_grows (grows_trans G Ht)).
    rewrite attempts_app, (Hn Hc). unfold attempts. cbn.
    rewrite api_call_eqb_refl. cbn. lia.
  - intros e w' Ht He. eapply _secure_request_client_error; eassumption.
Qed.

Lemma probe_entry_lookup (examined : list Z) (fid : Z)
      (o : option api_exn) (new : list entry) :
  Forall (fun x => exists f, In f examined /\ probe_entry f x) new ->
  In (CUserInfo fid, o) new -> In fid examined.
Proof.
  intros F Hin. rewrite Forall_forall in F.
  destruct (F _ Hin) as (f & Hf & [Hx|[Hx|[Hx|Hx]]]); cbn in Hx;
    try discriminate.
  inv Hx. exact Hf.
Qed.

(** C5.  For a limit of at least 1, when the sampler returns:
    the result has at most [limit] entries; it is the examined part of the
    fetched page with some followers left out, in the order of the page;
    the followers in it are those that passed the checks at their turn
    ([probed]): the profile lookup returned a public profile, the story
    check returned and, when it returned no story, the media check returned
    a media, so that a follower whose lookup or check raised is left out;
    no follower beyond the examined part was looked up; the loop
    stopped before the end of the page only with [limit] candidates, and
    when the result has [limit] entries the last follower examined is the
    last candidate. *)
Theorem sampler_bounded (fuel : nat) (username : string) (limit : Z)
        (w w' : World P) (result : list Z) :
  (1 <= limit)%Z ->
  get_active_followers fuel username limit w = (Return result, w') ->
  exists uid w1 page w2 examined skipped,
    secure_user_id_from_username fuel username w = (Return uid, w1)
    /\ secure_user_followers fuel uid 150 w1 = (Return page, w2)
    /\ page = examined ++ skipped
    /\ (Z.of_nat (length result) <= limit)%Z
    /\ Subseq result examined
    /\ probed fuel examined w2 result w'
    /\ (forall fid, In fid result ->
          In (CUserInfo fid, None) (calls_since w2 w')
          /\ In (CUserStories fid, None) (calls_since w2 w'))
    /\ (forall fid o,
          In (CUserInfo fid, o) (calls_since w2 w') -> In fid examined)
    /\ ((Z.of_nat (length result) < limit)%Z -> skipped = [])
    /\ ((Z.of_nat (length result) = limit)%Z ->
        exists ex ad last, examined = ex ++ [last] /\ result = ad ++ [last]).
Proof.
  intros Hlim H. apply get_active_followers_spec in H.
  destruct H as (uid & w1 & page & w2 & H1 & H2 & Hs).
  destruct Hs as (ex & sk & ad & new & Hp & Hr & Hsub & Hpd & G & Hin & Hpr
                  & Hsk & Hb).
  cbn [app] in Hr. subst result.
  destruct (Hb ltac:(cbn; lia)) as (Hb1 & Hb2).
  exists uid, w1, page, w2, ex, sk.
  rewrite (calls_since_grows G).
  repeat (split; [assumption|]).
  split; [|split; assumption].
  intros fid o. exact (probe_entry_lookup _ _ _ Hpr).
Qed.

(** C4.  The process exits with status 0 when [main] runs to
    its end, and processing an account never ends it otherwise than by the
    [SystemExit(1)] of a refused login.  A status other than 0 is 1, and it
    has one of these causes: the credentials are missing; the last client
    call was a login that failed, be it the first login or one made after
    an authentication-required failure later in the run; the check of the
    persisted session failed with an unclassified error; last_run.json
    cannot be read as a JSON object.  The run exceeds the recursion depth
    only after that many authentication-required answers. *)
Theorem exit_status_causes (fuel : nat) (w : World P) :
  match fst (script fuel w) with
  | Some c =>
      c = 0%Z
      \/ (c = 1%Z
          /\ (USERNAME = EmptyString \/ PASSWORD = EmptyString
              \/ login_failed_last (snd (script fuel w))
              \/ session_check_failed (snd (script fuel w))
              \/ last_run_unreadable (snd (script fuel w))))
  | None => many_auth_failures fuel (snd (script fuel w))
  end
  /\ (forall account w0,
        leaves_strict fuel
          (fst (process_target_account fuel account w0))
          (snd (process_target_account fuel account w0))).
Proof.
  split.
  - unfold script.
    destruct (String.eqb_spec USERNAME EmptyString) as [Hu|Hu];
      [cbn; right; auto|].
    destruct (String.eqb_spec PASSWORD EmptyString) as [Hp|Hp];
      [cbn; right; auto|].
    cbn [orb]. destruct (main fuel w) as [r w'] eqn:Hm.
    apply main_spec in Hm. cbn [fst snd].
    destruct r as [[]|e|]; cbn in *; [now left| |exact Hm].
    destruct Hm as (He & Hc).
    destruct e as [a| | | | | | |code]; cbn;
      try (right; split; [reflexivity|]; tauto).
    specialize (He eq_refl). inv He.
    right. split; [reflexivity|]. tauto.
  - intros account w0.
    destruct (process_target_account fuel account w0) as [r w'] eqn:H.
    cbn [fst snd]. now apply process_target_account_spec in H.
Qed.

End Core.

(** ** Runs of the model on the scripted outside *)

(** C1.  The daily record says 200, so the tracker starts EXHAUSTED; the
    orchestrator still processes the account, likes a post and a story of
    its active follower, and the counter climbs to 202: [limit_reached] is
    never consulted. *)
Theorem quota_gate_not_consulted :
  let start := @reset_counters _ sim_env world_exhausted in
  let run :=
    @process_target_account _ sim_env 5 "troyesivan" (snd start) in
  quota_state (snd start) = EXHAUSTED
  /\ limit_reached (snd start) = true
  /\ fst run = Return tt
  /\ likes_today (snd run) = 202%Z
  /\ likes_done (calls (snd run))
     = [(CMediaLike "m1", None); (CStoryLike "s1", None)].
Proof. vm_compute. repeat split; reflexivity. Qed.

(** Two authentication-required answers in a row, then a success: the
    second failure does not propagate, the operation is attempted three
    times and its result returned. *)
Lemma retry_not_capped_at_one :
  let run := @_secure_request _ sim_env _ 5 fetch_medias world_flaky in
  fst run = Return [post1]
  /\ calls (snd run)
     = [(CUserMedias 7 (Some 6%Z), Some LoginRequired); (CLogin None, None);
        (CUserMedias 7 (Some 6%Z), Some LoginRequired); (CLogin None, None);
        (CUserMedias 7 (Some 6%Z), None)]
  /\ attempts (CUserMedias 7 (Some 6%Z)) (calls (snd run)) = 3.
Proof. vm_compute. repeat split; reflexivity. Qed.

Lemma flaky_auth_retries :
  @auth_retries _ sim_env _ fetch_medias 2 world_flaky world_flaky2.
Proof.
  eapply retries_S; [vm_compute; reflexivity ..|].
  eapply retries_S; [vm_compute; reflexivity ..|].
  apply retries_0.
Qed.

Lemma retries_until_authenticated_witness :
  @_secure_request _ sim_env _ 3 fetch_medias world_flaky
  = (Return [post1],
     snd (@_secure_request_try _ sim_env _ fetch_medias 0%Q world_flaky2))
  /\ attempts (CUserMedias 7 (Some 6%Z))
       (calls_since world_flaky
          (snd (@_secure_request_try _ sim_env _ fetch_medias 0%Q
                  world_flaky2)))
     = 3.
Proof.
  destruct (@retries_until_authenticated _ sim_env _ fetch_medias 2 3
              world_flaky world_flaky2 flaky_auth_retries
              ltac:(lia)) as [H _].
  destruct (H [post1]
              (snd (@_secure_request_try _ sim_env _ fetch_medias 0%Q
                      world_flaky2))
              ltac:(vm_compute; reflexivity)) as [H1 H2].
  split; [exact H1|exact (H2 eq_refl)].
Defined.

(** An operation answered authentication-required every time, with logins
    that succeed: no bound on the recursion depth is enough for
    [_secure_request] to come back. *)
Lemma stubborn_never_returns (fuel : nat) :
  forall w : World unit,
    proxies (proxy_manager w) = [] ->
    fst (@_secure_request _ StubbornEnv _ fuel stubborn_medias w) = Diverge.
Proof.
  induction fuel as [|fuel IH]; intros w Hp; [reflexivity|].
  assert (Ht : exists w1,
    @_secure_request_try _ StubbornEnv _ stubborn_medias
      (@time_time _ StubbornEnv (env w)) w
    = (Raise (Api LoginRequired), w1)
    /\ proxies (proxy_manager w1) = []).
  { unfold _secure_request_try, proxy_manager_get_proxy, get_proxy, bind.
    rewrite Hp. eexists. split; [reflexivity|]. cbn. exact Hp. }
  destruct Ht as (w1 & Ht & Hp1).
  destruct (@_rotate_device_spec _ StubbornEnv w1) as (p & Hr).
  assert (Hl : exists w3,
    @_login _ StubbornEnv (with_env p w1) = (Return tt, w3)
    /\ proxies (proxy_manager w3) = []).
  { eexists. split; [reflexivity|]. cbn. exact Hp1. }
  destruct Hl as (w3 & Hl & Hp3).
  erewrite _secure_request_retry by eassumption.
  apply IH. exact Hp3.
Qed.



(** The first login succeeds; later a lookup is answered
    authentication-required and the login that follows is refused: the
    process exits with status 1, and not during the initial login. *)
Lemma exit_one_on_refused_relogin :
  let run := @script _ sim_env 5 world_relogin_refused in
  fst run = Some 1%Z
  /\ calls (snd run)
     = [(CLogin None, None);
        (CUserIdFromUsername "joeygraceffa", Some LoginRequired);
        (CLogin None, Some ClientError)].
Proof. vm_compute. split; reflexivity. Qed.

(** The first account fails with a client error, the run goes on with the
    next one and the process exits with status 0. *)
Example exit_zero_with_failed_account :
  let run := @script _ sim_env 5 world_account_fails in
  fst run = Some 0%Z
  /\ firstn 3 (calls (snd run))
     = [(CLogin None, None);
        (CUserIdFromUsername "joeygraceffa", Some ClientError);
        (CUserIdFromUsername "tyleroakley", None)].
Proof. vm_compute. split; reflexivity. Qed.

(** With a limit of 0 the sampler looks at the first follower, keeps it and
    returns one candidate. *)
Lemma sampler_exceeds_limit_zero :
  let run :=
    @get_active_followers _ sim_env 5 "troyesivan" 0 world_two_followers in
  fst run = Return [11%Z]
  /\ ~ (Z.of_nat (length [11%Z]) <= 0)%Z.
Proof. split; [vm_compute; reflexivity|cbn; lia]. Qed.

Lemma sampler_bounded_witness :
  (1 <= 1)%Z
  /\ exists uid w1 page w2 examined skipped,
       @secure_user_id_from_username _ sim_env 5 "troyesivan"
         world_two_followers = (Return uid, w1)
       /\ @secure_user_followers _ sim_env 5 uid 150 w1 = (Return page, w2)
       /\ page = examined ++ skipped
       /\ (Z.of_nat (length [11%Z]) <= 1)%Z
       /\ Subseq [11%Z] examined
       /\ @probed _ sim_env 5 examined w2 [11%Z]
            (snd (@get_active_followers _ sim_env 5 "troyesivan" 1
                    world_two_followers))
       /\ (forall fid, In fid [11%Z] ->
             In (CUserInfo fid, None)
                (calls_since w2
                   (snd (@get_active_followers _ sim_env 5 "troyesivan" 1
                           world_two_followers)))
             /\ In (CUserStories fid, None)
                   (calls_since w2
                      (snd (@get_active_followers _ sim_env 5 "troyesivan" 1
                              world_two_followers))))
       /\ (forall fid o,
             In (CUserInfo fid, o)
                (calls_since w2
                   (snd (@get_active_followers _ sim_env 5 "troyesivan" 1
                           world_two_followers)))
             -> In fid examined)
       /\ ((Z.of_nat (length [11%Z]) < 1)%Z -> skipped = [])
       /\ ((Z.of_nat (length [11%Z]) = 1)%Z ->
           exists ex ad last,
             examined = ex ++ [last] /\ [11%Z] = ad ++ [last]).
Proof.
  split; [lia|].
  apply (@sampler_bounded _ sim_env 5 "troyesivan" 1 world_two_followers
           (snd (@get_active_followers _ sim_env 5 "troyesivan" 1
                   world_two_followers))
           [11%Z]).
  - lia.
  - vm_compute. reflexivity.
Defined.


(** Behind a console whose encoding has no check mark, the like goes
    through and is counted, the confirmation line cannot be printed, and
    [process_posts] returns 0 without the sleep. *)
Lemma like_counted_result_zero :
  let run := @process_posts _ ascii_env 5 7 "bob" world_noon in
  fst run = Return 0%Z
  /\ likes_today (snd run) = (likes_today world_noon + 1)%Z
  /\ likes_done (calls (snd run)) = [(CMediaLike "m1", None)]
  /\ slept (snd run) = []
  /\ stdout (snd run) = [].
Proof. vm_compute. repeat split; reflexivity. Qed.

(** A successful login, then a daily record whose bytes are not text: the
    tracker cannot be created and the process exits with status 1. *)
Example exit_one_on_unreadable_record :
  let run := @script _ sim_env 5 world_not_text in
  fst run = Some 1%Z
  /\ calls (snd run) = [(CLogin None, None)]
  /\ last_run_file (files (snd run)) = Some NotText.
Proof. vm_compute. repeat split; reflexivity. Qed.

(** * Further properties of the script *)

(** ** Follower limit, daily counter, histogram *)
Section MoreLeafFacts.

Context {P : Type} {E : Env P}.

(** X1.  [get_follower_limit] always returns, and its value is in [8, 12]
    for fewer than 10000 followers, in [6, 9] for fewer than 100000 and in
    [4, 6] from 100000 on; it only steps the random generator. *)
Theorem follower_limit_tiers (follower_count : Z) (w : World P) :
  exists n,
    get_follower_limit follower_count w
    = (Return n, with_env (snd (getrandbits (env w))) w)
    /\ if (follower_count <? 10000)%Z then (8 <= n <= 12)%Z
       else if (follower_count <? 100000)%Z then (6 <= n <= 9)%Z
       else (4 <= n <= 6)%Z.
Proof.
  unfold get_follower_limit.
  destruct (follower_count <? 10000)%Z;
    [|destruct (follower_count <? 100000)%Z].
  - apply randint_spec. lia.
  - apply randint_spec. lia.
  - apply randint_spec. lia.
Qed.

Lemma reset_counters_persisted (w w' : World P) :
  reset_counters w = (Return tt, w') ->
  likes_today w' = persisted_count w'.
Proof.
  unfold reset_counters, load_last_run, bind, get, ask, modify,
    save_last_run, bind, ask, modify, ret, raise, persisted_count.
  destruct (last_run_file (files w)) as [[date count| | |]|] eqn:Hf; cbn;
    try discriminate;
    match goal with
    | |- context [if ?b then _ else _] => destruct b
    end; intros H; inversion H; subst; clear H; cbn; rewrite ?Hf;
    reflexivity.
Qed.

(** The record on disk is never behind the last multiple of 10 reached. *)
Lemma increment_likes_persisted (w : World P) :
  (10 * (likes_today w / 10) <= persisted_count w <= likes_today w)%Z ->
  exists w', increment_likes w = (Return tt, w')
    /\ likes_today w' = (likes_today w + 1)%Z
    /\ (10 * (likes_today w' / 10) <= persisted_count w' <= likes_today w')%Z.
Proof.
  intros Hi.
  destruct (Z.eq_dec ((likes_today w + 1) mod 10) 0) as [Hm|Hm].
  - rewrite (increment_likes_write _ Hm).
    unfold save_last_run, bind, ask, modify, persisted_count.
    eexists. split; [reflexivity|].
    cbn [likes_today with_likes_today with_files files last_run_file
         snd].
    split; [reflexivity|].
    pose proof (Z.div_mod (likes_today w + 1) 10 ltac:(lia)). lia.
  - rewrite (increment_likes_quiet _ Hm).
    eexists. split; [reflexivity|]. unfold persisted_count in *.
    cbn [likes_today with_likes_today files snd].
    split; [reflexivity|].
    pose proof (Z.div_mod (likes_today w + 1) 10 ltac:(lia)).
    pose proof (Z.div_mod (likes_today w) 10 ltac:(lia)).
    pose proof (Z.mod_pos_bound (likes_today w + 1) 10 ltac:(lia)).
    pose proof (Z.mod_pos_bound (likes_today w) 10 ltac:(lia)).
    lia.
Qed.

Lemma increment_likes_n_persisted (n : nat) :
  forall w : World P,
    (10 * (likes_today w / 10) <= persisted_count w <= likes_today w)%Z ->
    exists w', increment_likes_n n w = (Return tt, w')
      /\ likes_today w' = (likes_today w + Z.of_nat n)%Z
      /\ (10 * (likes_today w' / 10) <= persisted_count w'
          <= likes_today w')%Z.
Proof.
  induction n as [|n IH]; intros w Hi.
  - exists w. split; [reflexivity|]. split; [lia|exact Hi].
  - cbn [increment_likes_n]. unfold bind at 1.
    destruct (increment_likes_persisted w Hi) as (w1 & -> & H1 & Hi1).
    destruct (IH w1 Hi1) as (w' & -> & H2 & Hi2).
    exists w'. split; [reflexivity|]. split; [lia|exact Hi2].
Qed.

(** X2.  After the tracker is created and incremented any number of times,
    the count that would be read back from last_run.json is at most the
    count in memory and at most 9 behind it. *)
Theorem persisted_count_lags_by_at_most_nine (n : nat) (w w0 : World P) :
  reset_counters w = (Return tt, w0) ->
  exists w',
    increment_likes_n n w0 = (Return tt, w')
    /\ likes_today w' = (likes_today w0 + Z.of_nat n)%Z
    /\ (persisted_count w' <= likes_today w' <= persisted_count w' + 9)%Z.
Proof.
  intros H0. pose proof (reset_counters_persisted _ H0) as Hp.
  assert (Hi : (10 * (likes_today w0 / 10) <= persisted_count w0
                <= likes_today w0)%Z).
  { rewrite <- Hp.
    pose proof (Z.div_mod (likes_today w0) 10 ltac:(lia)).
    pose proof (Z.mod_pos_bound (likes_today w0) 10 ltac:(lia)). lia. }
  destruct (increment_likes_n_persisted n w0 Hi) as (w' & H1 & H2 & H3).
  exists w'. repeat split; try assumption; try lia.
  pose proof (Z.div_mod (likes_today w') 10 ltac:(lia)).
  pose proof (Z.mod_pos_bound (likes_today w') 10 ltac:(lia)). lia.
Qed.

(** X3.  The count written by the [finally] clause of [main] is the count
    a process started later on the same date begins with. *)
Theorem count_survives_restart (w : World P) (p : P) :
  today p = today (env w) ->
  exists w1 w2,
    finalize w = (Return tt, w1)
    /\ reset_counters (initial_world p (files w1)) = (Return tt, w2)
    /\ likes_today w2 = likes_today w.
Proof.
  intros Hd.
  unfold finalize, bind, save_metrics, get, save_last_run, bind, ask, modify,
    log_event_json, modify.
  eexists. eexists. split; [reflexivity|].
  unfold reset_counters, load_last_run, bind, get, ask, ret. cbn.
  rewrite Hd, String.eqb_refl. cbn. split; reflexivity.
Qed.

(** X4.  When last_run.json is absent, holds text that is not JSON, or
    holds an object without a "count" key, the tracker starts at 0 whatever
    the date; in the first two cases, when the date is not the empty string,
    the record of today with count 0 is written.  When the file holds bytes
    that are not text, or a JSON value that is not an object, creating the
    tracker raises and changes nothing. *)
Theorem reset_without_count (w : World P) :
  (last_run_file (files w) = None
   \/ last_run_file (files w) = Some NotJSON
   \/ (exists d, last_run_file (files w) = Some (mkLastRun d None)) ->
   exists w',
     reset_counters w = (Return tt, w')
     /\ likes_today w' = 0%Z
     /\ (today (env w) <> EmptyString ->
         last_run_file (files w) = None
         \/ last_run_file (files w) = Some NotJSON ->
         last_run_file (files w')
         = Some (mkLastRun (Some (today (env w))) (Some 0%Z))))
  /\ (last_run_file (files w) = Some NotText ->
      reset_counters w = (Raise UnicodeDecodeError, w))
  /\ (last_run_file (files w) = Some NotAnObject ->
      reset_counters w = (Raise AttributeError, w)).
Proof.
  unfold reset_counters, load_last_run, bind, get, ask, modify,
    save_last_run, bind, ask, modify, ret, raise.
  split; [|split; intros ->; reflexivity].
  intros [Hf|[Hf|(d & Hf)]]; rewrite Hf; cbn [option_string_eqb].
  - destruct (String.eqb_spec EmptyString (today (env w))) as [He|He];
      cbn [negb]; eexists; (split; [reflexivity|]);
      (split; [reflexivity|]).
    + intros Hn. congruence.
    + intros _ _. reflexivity.
  - destruct (String.eqb_spec EmptyString (today (env w))) as [He|He];
      cbn [negb]; eexists; (split; [reflexivity|]);
      (split; [reflexivity|]).
    + intros Hn. congruence.
    + intros _ _. reflexivity.
  - destruct (negb (option_string_eqb d (today (env w))));
      eexists; (split; [reflexivity|]); (split; [reflexivity|]);
      intros _ [Hx|Hx]; discriminate.
Qed.

Lemma dict_get_set (d : list (Z * nat)) (k k' : Z) (v : nat) :
  dict_get (dict_set d k v) k'
  = if (k' =? k)%Z then v else dict_get d k'.
Proof.
  induction d as [|[k0 v0] d IH]; cbn.
  - destruct (k' =? k)%Z; reflexivity.
  - destruct (Z.eqb_spec k k0) as [->|Hk]; cbn.
    + destruct (k' =? k0)%Z; reflexivity.
    + rewrite IH. destruct (Z.eqb_spec k' k0) as [->|Hk'].
      * destruct (Z.eqb_spec k0 k); [congruence|reflexivity].
      * reflexivity.
Qed.

(** X5.  [track_hourly_engagement] adds one to the entry of the current
    hour (an absent entry counts as 0), leaves the entries of the other
    hours and the call and error counters as they were. *)
Theorem hourly_histogram_counts (w : World P) (h : Z) :
  exists w',
    track_hourly_engagement w = (Return tt, w')
    /\ dict_get (hourly_engagement (metrics w')) h
       = (if (h =? now_hour (env w))%Z
          then dict_get (hourly_engagement (metrics w)) h + 1
          else dict_get (hourly_engagement (metrics w)) h)
    /\ api_calls (metrics w') = api_calls (metrics w)
    /\ errors (metrics w') = errors (metrics w).
Proof.
  unfold track_hourly_engagement, bind, ask, modify.
  eexists. split; [reflexivity|]. cbn. rewrite dict_get_set.
  destruct (Z.eqb_spec h (now_hour (env w))) as [->|Hh]; auto.
Qed.

End MoreLeafFacts.

(** ** Shuffle, proxy pool *)
Section MoreLibraryFacts.

Context {P : Type} {E : Env P}.

Lemma list_set_head_permutation {A} (l : list A) (j : nat) (b y : A) :
  nth_error l j = Some b ->
  Permutation (b :: list_set l j y) (y :: l).
Proof.
  revert j. induction l as [|z l IH]; intros [|j] Hn; cbn in *;
    try discriminate.
  - inversion Hn; subst. apply perm_swap.
  - eapply perm_trans; [apply perm_swap|].
    eapply perm_trans; [apply perm_skip, (IH _ Hn)|]. apply perm_swap.
Qed.

Lemma swap_permutation {A} (x : list A) (i j : nat) :
  Permutation (swap x i j) x.
Proof.
  unfold swap.
  destruct (nth_error x i) as [a|] eqn:Hi; [|reflexivity].
  destruct (nth_error x j) as [b|] eqn:Hj; [|reflexivity].
  revert i j Hi Hj. induction x as [|y l IH]; intros [|i] [|j] Hi Hj;
    cbn in *; try discriminate.
  - inversion Hi; inversion Hj; subst. reflexivity.
  - inversion Hi; subst. now apply list_set_head_permutation.
  - inversion Hj; subst. now apply list_set_head_permutation.
  - apply perm_skip. now apply IH.
Qed.

Lemma shuffle_from_permutation {A} (i : nat) :
  forall (x : list A) (w : World P),
    exists y p,
      shuffle_from i x w = (Return y, with_env p w) /\ Permutation x y.
Proof.
  induction i as [|i IH]; intros x w.
  - exists x, (env w). destruct w. split; reflexivity.
  - cbn [shuffle_from]. unfold bind. rewrite randbelow_spec.
    match goal with
    | |- context [shuffle_from i ?x1 ?w1] =>
        destruct (IH x1 w1) as (y & p & -> & Hp)
    end.
    exists y, p. split; [reflexivity|].
    eapply perm_trans; [|exact Hp]. symmetry. apply swap_permutation.
Qed.

(** X6.  [random.shuffle] returns a permutation of its argument: the run
    goes through every target account, as often as it is in the list. *)
Theorem shuffle_is_permutation {A} (x : list A) (w : World P) :
  exists y p,
    shuffle x w = (Return y, with_env p w)
    /\ Permutation x y
    /\ length y = length x.
Proof.
  destruct (shuffle_from_permutation (length x - 1) x w)
    as (y & p & H & Hp).
  exists y, p. split; [exact H|]. split; [exact Hp|].
  symmetry. now apply Permutation_length.
Qed.

Lemma get_proxy_n_members (pool : list string) (k i : nat) :
  i < length pool ->
  Forall (fun r => exists p, r = Return (Some p) /\ In p pool)
         (fst (get_proxy_n k (mkProxyManager pool i))).
Proof.
  intros Hi. rewrite get_proxy_n_from by exact Hi. cbn [fst].
  apply Forall_forall. intros r Hr. apply in_map_iff in Hr.
  destruct Hr as (j & <- & _).
  assert (Hlt : (i + j) mod length pool < length pool)
    by (apply Nat.mod_upper_bound; lia).
  destruct (nth_error pool ((i + j) mod length pool)) as [p|] eqn:Hn.
  - exists p. split; [reflexivity|]. eapply nth_error_In; eauto.
  - apply nth_error_None in Hn. lia.
Qed.

(** X7.  After [ProxyManager()] the cursor is at 0 and the pool holds the
    non-blank lines of proxies.txt in their order (none when the file is
    absent); from then on [get_proxy] never raises, returns None only for
    an empty pool, and otherwise a non-blank member of the pool. *)
Theorem loaded_pool_is_sound (w : World P) (k : nat) :
  exists w',
    ProxyManager_init w = (Return tt, w')
    /\ index (proxy_manager w') = 0
    /\ proxies (proxy_manager w')
       = match proxy_file (files w) with
         | Some lines =>
             filter (fun line => negb (String.eqb line EmptyString)) lines
         | None => []
         end
    /\ Forall (fun r =>
                 match r with
                 | Return None => proxies (proxy_manager w') = []
                 | Return (Some p) =>
                     In p (proxies (proxy_manager w'))
                     /\ truthy (Some p) = true
                 | _ => False
                 end)
              (fst (get_proxy_n k (proxy_manager w'))).
Proof.
  unfold ProxyManager_init, _load_proxies, bind, get, modify.
  set (l := match proxy_file (files w) with
            | Some lines =>
                filter (fun line => negb (String.eqb line EmptyString)) lines
            | None => []
            end).
  exists (with_proxy_manager (mkProxyManager l 0) w).
  split; [unfold l; destruct (proxy_file (files w)); reflexivity|].
  split; [reflexivity|]. split; [reflexivity|].
  cbn [proxy_manager with_proxy_manager proxies].
  assert (Hl : Forall (fun p => truthy (Some p) = true) l).
  { unfold l. destruct (proxy_file (files w)) as [lines|]; [|constructor].
    apply Forall_forall. intros p Hp. apply filter_In in Hp.
    destruct Hp as [_ Hp]. exact Hp. }
  clearbody l. destruct l as [|p0 l].
  - rewrite get_proxy_n_empty. apply Forall_forall. intros r Hr.
    apply repeat_spec in Hr. subst r. reflexivity.
  - eapply Forall_impl;
      [|apply (@get_proxy_n_members (p0 :: l) k 0); cbn; lia].
    intros r (p & -> & Hp). split; [exact Hp|].
    rewrite Forall_forall in Hl. now apply Hl.
Qed.

End MoreLibraryFacts.

(** ** Login, request wrapper, sampler *)
Section MoreClientFacts.

Context {P : Type} {E : Env P}.

Ltac inv H := inversion H; subst; clear H.


(** X9.  With the proxy cursor inside the pool, an exception out of
    [_secure_request] has one of these origins: the last client call was a
    failed login; the operation was answered two-factor-required or a
    client error, which is raised unchanged; the operation failed with
    another error, which is raised as EnterpriseSecurityException. *)
Theorem request_failure_classes {A} (fuel : nat) (func : Call A)
        (w w' : World P) (e : exn) :
  pm_ok (proxy_manager w) ->
  _secure_request fuel func w = (Raise e, w') ->
  login_failed_last w'
  \/ exists l a,
       calls w' = l ++ [(tag func, Some a)]
       /\ ((a = TwoFactorRequired /\ e = Api TwoFactorRequired)
           \/ (a = ClientError /\ e = Api ClientError)
           \/ (a = OtherError /\ e = EnterpriseSecurityException)).
Proof.
  intros Hok H. apply _secure_request_spec in H.
  destruct H as (new & _ & _ & [[C _]|[(l & a & C1 & C2 & C3)|[_ C]]]).
  - now left.
  - right. exists l, a. split; [exact C1|].
    destruct a; subst e; auto. congruence.
  - contradiction.
Qed.

Lemma _login_frame (w : World P) :
  metrics (snd (_login w)) = metrics w
  /\ proxy_manager (snd (_login w)) = proxy_manager w
  /\ (session_file (files (snd (_login w))) = session_file (files w)
      \/ session_stored (snd (_login w)))
  /\ (forall a, fst (_login w) = Return a -> session_stored (snd (_login w)))
  /\ (forall e, fst (_login w) = Raise e ->
                e = SystemExit 1 \/ exists a, e = Api a).
Proof.
  unfold _login, try_except, bind, invoke, dump_settings, login_call,
    ask, modify, raise, step, session_stored.
  cbn [run tag].
  destruct (login USERNAME PASSWORD None (env w)) as [[[]|a] p] eqn:H1.
  - cbn. repeat split; eauto; discriminate.
  - destruct a; cbn;
      try (repeat split; auto; try discriminate;
           intros e He; inv He; eauto).
    destruct (input p) as [code p2]. cbn.
    destruct (login USERNAME PASSWORD (Some code) p2) as [[[]|a] p3] eqn:H2;
      cbn; repeat split; eauto; try discriminate.
    intros e He; inv He; eauto.
Qed.

Lemma _secure_request_try_frame {A} (func : Call A) (start : Q)
      (w : World P) (r : outcome A) (w1 : World P) :
  _secure_request_try func start w = (r, w1) ->
  files w1 = files w
  /\ match r with
     | Return _ =>
         api_calls (metrics w1) = api_calls (metrics w) + 1
         /\ errors (metrics w1) = errors (metrics w)
         /\ length (response_times (metrics w1))
            = length (response_times (metrics w)) + 1
     | _ => metrics w1 = metrics w
     end.
Proof.
  unfold _secure_request_try, bind at 1, proxy_manager_get_proxy.
  destruct (get_proxy (proxy_manager w)) as [[o|e|] pm].
  2:{ intros H; inv H. split; reflexivity. }
  2:{ intros H; inv H. split; reflexivity. }
  assert (Hset : exists p,
    (match o with
     | Some p => if truthy o then tell (set_proxy p) else ret tt
     | None => ret tt
     end) (with_proxy_manager pm w)
    = (Return tt, with_env p (with_proxy_manager pm w))).
  { destruct o as [s|]; [destruct (truthy (Some s))|]; unfold tell, ret;
      try (eexists; reflexivity);
      exists (env (with_proxy_manager pm w)); reflexivity. }
  destruct Hset as (p & Hset). unfold bind at 1. rewrite Hset.
  unfold bind, invoke, ask, track_call, modify, ret. cbn [env with_env].
  destruct (run func p) as [[a|e] p']; intros H; inv H; cbn.
  - rewrite length_app. cbn. auto.
  - auto.
Qed.

(** What [_secure_request] does to the metrics and to the session file. *)
Lemma _secure_request_frame {A} (fuel : nat) (func : Call A) :
  forall (w : World P) (r : outcome A) (w' : World P),
    _secure_request fuel func w = (r, w') ->
    (session_file (files w') = session_file (files w) \/ session_stored w')
    /\ match r with
       | Return _ =>
           api_calls (metrics w') = api_calls (metrics w) + 1
           /\ errors (metrics w') = errors (metrics w)
           /\ length (response_times (metrics w'))
              = length (response_times (metrics w)) + 1
       | Raise e =>
           api_calls (metrics w') = api_calls (metrics w)
           /\ response_times (metrics w') = response_times (metrics w)
           /\ (errors (metrics w') = errors (metrics w)
               \/ errors (metrics w') = errors (metrics w) + 1)
           /\ (is_Exception e = false ->
               errors (metrics w') = errors (metrics w))
           /\ (e = EnterpriseSecurityException ->
               errors (metrics w') = errors (metrics w) + 1)
       | Diverge => metrics w' = metrics w
       end.
Proof.
  induction fuel as [|fuel IH]; intros w r w' H.
  - inv H. split; [now left|reflexivity].
  - cbn [_secure_request] in H. unfold bind at 1, ask at 1, try_except in H.
    destruct (_secure_request_try func (time_time (env w)) w)
      as [[a|e|] w1] eqn:Ht;
      pose proof (_secure_request_try_frame _ _ _ Ht) as (Hf & Hm).
    + inv H. split; [left; now rewrite Hf|exact Hm].
    + pose proof (_secure_request_try_spec _ _ _ Ht) as Hs.
      destruct e as [a| | | | | | |code]; cbn [try_post] in Hs;
        try contradiction.
      * destruct a.
        -- unfold bind at 1 in H.
           destruct (_rotate_device_spec w1) as (p2 & Hr). rewrite Hr in H.
           unfold bind at 1 in H.
           pose proof (_login_frame (with_env p2 w1))
             as (L1 & L2 & L3 & L4 & L5).
           destruct (_login (with_env p2 w1)) as [[[]|e|] w3] eqn:Hl;
             cbn [fst snd] in *.
           ++ apply IH in H. destruct H as (S4 & M4).
              assert (Hst : session_stored w3) by (eapply L4; reflexivity).
              split.
              { right. destruct S4 as [S4|S4]; [|exact S4].
                destruct Hst as (s & Hst). exists s. now rewrite S4. }
              assert (Hmw : metrics w3 = metrics w)
                by (rewrite L1; cbn; exact Hm).
              rewrite Hmw in M4. exact M4.
           ++ inv H. split.
              { destruct L3 as [L3|L3]; [left|now right].
                rewrite L3. cbn. now rewrite Hf. }
              rewrite L1. cbn. rewrite Hm.
              repeat split; auto.
              intros ->. destruct (L5 _ eq_refl) as [Hx|(a & Hx)];
                discriminate.
           ++ inv H. split.
              { destruct L3 as [L3|L3]; [left|now right].
                rewrite L3. cbn. now rewrite Hf. }
              rewrite L1. cbn. exact Hm.
        -- unfold bind at 1, track_error at 1, modify at 1 in H.
           unfold bind at 1 in H.
           match type of H with
           | context [_rotate_device ?x] =>
               destruct (_rotate_device_spec x) as (p2 & Hr); rewrite Hr in H
           end.
           inv H. cbn. rewrite Hf, Hm. repeat split; auto; discriminate.
        -- unfold bind at 1, track_error at 1, modify at 1 in H.
           unfold bind at 1 in H.
           match type of H with
           | context [_rotate_device ?x] =>
               destruct (_rotate_device_spec x) as (p2 & Hr); rewrite Hr in H
           end.
           inv H. cbn. rewrite Hf, Hm. repeat split; auto; discriminate.
        -- unfold bind, track_error, modify, raise in H. inv H. cbn.
           rewrite Hf, Hm. repeat split; auto; discriminate.
      * unfold bind, track_error, modify, raise in H. inv H. cbn.
        rewrite Hf, Hm. repeat split; auto; discriminate.
    + inv H. split; [left; now rewrite Hf|exact Hm].
Qed.

(** X10.  [_secure_request] counts one api call and one response time
    when it returns, however many retries it took, and no error; when it
    raises it counts no api call and at most one error, none for a
    [SystemExit] and exactly one for an EnterpriseSecurityException; an
    authentication-required failure is never counted as an error. *)
Theorem request_metrics {A} (fuel : nat) (func : Call A) (w : World P) :
  match _secure_request fuel func w with
  | (Return _, w') =>
      api_calls (metrics w') = api_calls (metrics w) + 1
      /\ errors (metrics w') = errors (metrics w)
      /\ length (response_times (metrics w'))
         = length (response_times (metrics w)) + 1
  | (Raise e, w') =>
      api_calls (metrics w') = api_calls (metrics w)
      /\ response_times (metrics w') = response_times (metrics w)
      /\ (errors (metrics w') = errors (metrics w)
          \/ errors (metrics w') = errors (metrics w) + 1)
      /\ (is_Exception e = false ->
          errors (metrics w') = errors (metrics w))
      /\ (e = EnterpriseSecurityException ->
          errors (metrics w') = errors (metrics w) + 1)
  | (Diverge, w') => metrics w' = metrics w
  end.
Proof.
  destruct (_secure_request fuel func w) as [r w'] eqn:H.
  apply _secure_request_frame in H. destruct H as [_ H].
  destruct r; exact H.
Qed.

Lemma _load_session_stored (fuel : nat) (w w' : World P) :
  _load_session fuel w = (Return tt, w') -> session_stored w'.
Proof.
  assert (Hlogin : forall w0 w1 : World P,
             _login w0 = (Return tt, w1) -> session_stored w1).
  { intros w0 w1 H. pose proof (_login_frame w0) as (_ & _ & _ & L & _).
    rewrite H in L. eapply L. reflexivity. }
  unfold _load_session, bind at 1, get.
  destruct (session_file (files w)) as [content|] eqn:Hs;
    [|apply Hlogin].
  unfold bind at 1, try_except.
  destruct content as [settings|].
  - unfold bind at 1, tell at 1. unfold bind at 1.
    match goal with
    | |- context [secure_user_id_from_username fuel USERNAME ?x] =>
        destruct (secure_user_id_from_username fuel USERNAME x)
          as [[uid|e|] w1] eqn:H1;
          pose proof (_secure_request_frame _ _ _ H1) as (S1 & _)
    end.
    + intros H; inv H. destruct S1 as [S1|S1]; [|exact S1].
      exists settings. rewrite S1. cbn. exact Hs.
    + destruct (is_ClientError e).
      { unfold bind, remove_session_file, modify, ret. apply Hlogin. }
      destruct e; try (unfold raise; discriminate);
        unfold bind, remove_session_file, modify, ret; apply Hlogin.
    + discriminate.
  - unfold bind at 1, raise at 1. cbn [is_ClientError].
    unfold bind, remove_session_file, modify, ret. apply Hlogin.
Qed.

(** X11.  When the construction of the client returns, SESSION_FILE
    exists and holds decodable settings, whatever it held before. *)
Theorem client_has_session (fuel : nat) (w w' : World P) :
  AdaptiveSafeClient_init fuel w = (Return tt, w') ->
  session_stored w'.
Proof.
  unfold AdaptiveSafeClient_init, bind.
  destruct (_rotate_device_spec w) as (p & ->).
  apply _load_session_stored.
Qed.

(** The value a wrapper returns is one the client answered. *)
Lemma _secure_request_reply {A} (fuel : nat) (func : Call A) :
  forall (w : World P) (a : A) (w' : World P),
    _secure_request fuel func w = (Return a, w') ->
    exists p, fst (run func p) = Ok a.
Proof.
  induction fuel as [|fuel IH]; intros w a w' H; [discriminate|].
  cbn [_secure_request] in H. unfold bind at 1, ask at 1, try_except in H.
  destruct (_secure_request_try func (time_time (env w)) w)
    as [[a1|e|] w1] eqn:Ht.
  - inv H. revert Ht.
    unfold _secure_request_try, bind at 1, proxy_manager_get_proxy.
    destruct (get_proxy (proxy_manager w)) as [[o|e|] pm]; try discriminate.
    unfold bind at 1.
    match goal with
    | |- context [match ?m ?x with _ => _ end] =>
        destruct (m x) as [[[]|e|] w2]; try discriminate
    end.
    unfold bind, invoke, ask, track_call, modify, ret.
    destruct (run func (env w2)) as [[a2|e] p'] eqn:Hrun; intros H; inv H.
    exists (env w2). now rewrite Hrun.
  - destruct e as [[]| | | | | | |code];
      try (unfold bind, track_error, modify, raise in H; discriminate).
    + unfold bind at 1 in H.
      destruct (_rotate_device_spec w1) as (p2 & Hr). rewrite Hr in H.
      unfold bind at 1 in H.
      destruct (_login (with_env p2 w1)) as [[[]|e|] w3]; try discriminate.
      eapply IH; eauto.
    + unfold bind at 1, track_error at 1, modify at 1 in H.
      unfold bind at 1 in H.
      match type of H with
      | context [_rotate_device ?x] =>
          destruct (_rotate_device_spec x) as (p2 & Hr); rewrite Hr in H
      end. discriminate.
    + unfold bind at 1, track_error at 1, modify at 1 in H.
      unfold bind at 1 in H.
      match type of H with
      | context [_rotate_device ?x] =>
          destruct (_rotate_device_spec x) as (p2 & Hr); rewrite Hr in H
      end. discriminate.
  - discriminate.
Qed.

Lemma probe_follower_excludes (fuel : nat) (fid : Z) (acc acc' : list Z)
      (w w' : World P) :
  never_qualifies fid ->
  probe_follower fuel fid acc w = (Return acc', w') ->
  acc' = acc.
Proof.
  intros Hn. unfold probe_follower, try_except. unfold bind at 1.
  destruct (secure_user_info fuel fid w) as [[info|e|] w1] eqn:H1.
  2:{ destruct (is_Exception e); intros H; inv H. reflexivity. }
  2:{ discriminate. }
  apply _secure_request_reply in H1. cbn [run] in H1.
  destruct H1 as (p1 & H1).
  unfold bind at 1, is_active.
  destruct (is_private info) eqn:Hp; cbn [negb].
  { intros H; inv H. reflexivity. }
  destruct Hn as [Hn|[Hs Hm]].
  { rewrite (Hn _ _ H1) in Hp. discriminate. }
  unfold bind at 1.
  destruct (secure_user_stories fuel fid w1) as [[stories|e|] w2] eqn:H2.
  2:{ destruct (is_Exception e); intros H; inv H. reflexivity. }
  2:{ discriminate. }
  apply _secure_request_reply in H2. cbn [run] in H2.
  destruct H2 as (p2 & H2). rewrite (Hs _ _ H2).
  unfold bind at 1.
  destruct (secure_user_medias fuel fid (Some 1%Z) w2)
    as [[medias|e|] w3] eqn:H3.
  2:{ destruct (is_Exception e); intros H; inv H. reflexivity. }
  2:{ discriminate. }
  apply _secure_request_reply in H3. cbn [run] in H3.
  destruct H3 as (p3 & H3). rewrite (Hm _ _ H3).
  intros H; inv H. reflexivity.
Qed.

Lemma followers_loop_excludes (fuel : nat) (limit : Z) (fid : Z)
      (fs : list Z) :
  never_qualifies fid ->
  forall (acc result : list Z) (w w' : World P),
    followers_loop fuel limit fs acc w = (Return result, w') ->
    ~ In fid acc -> ~ In fid result.
Proof.
  intros Hn. induction fs as [|f rest IH]; intros acc result w w' H Hacc.
  - inv H. exact Hacc.
  - cbn [followers_loop] in H. unfold bind at 1 in H.
    destruct (probe_follower fuel f acc w) as [[acc'|e|] w1] eqn:Hb;
      try discriminate.
    assert (Hacc' : ~ In fid acc').
    { destruct (Z.eq_dec f fid) as [->|Hf].
      - apply probe_follower_excludes in Hb; [now subst acc'|exact Hn].
      - apply probe_follower_spec in Hb.
        destruct Hb as (new & _ & _ & [->|(-> & _)]); [exact Hacc|].
        intros Hin. apply in_app_or in Hin.
        destruct Hin as [Hin|[Hin|[]]]; [now apply Hacc|congruence]. }
    destruct (Z.of_nat (length acc') >=? limit)%Z.
    + inv H. exact Hacc'.
    + eapply IH; eauto.
Qed.

(** X12.  A follower that answers private whenever it is looked up, or
    that never has a story nor a media, is in no result of
    [get_active_followers]. *)
Theorem sampler_excludes_inactive (fuel : nat) (username : string)
        (limit : Z) (fid : Z) (w w' : World P) (result : list Z) :
  never_qualifies fid ->
  get_active_followers fuel username limit w = (Return result, w') ->
  ~ In fid result.
Proof.
  intros Hn. unfold get_active_followers, bind.
  destruct (secure_user_id_from_username fuel username w)
    as [[uid|e|] w1]; try discriminate.
  destruct (secure_user_followers fuel uid 150 w1)
    as [[page|e|] w2]; try discriminate.
  intros H. eapply followers_loop_excludes; eauto.
Qed.

(** X13.  When [process_posts] returns 1 its last client call is the like
    of a post that was in the list fetched for the user and whose
    [taken_at], read without its zone, is less than [POST_AGE_LIMIT_DAYS]
    days behind the reading of the local clock; the age of the post is then
    under that limit less the distance from the zone of [taken_at] to the
    local zone, which is above the limit west of the zone of [taken_at].
    When [process_stories] returns 1 its last client call is the like of a
    story of the fetched list. *)
Theorem liked_item_was_fetched (fuel : nat) (user_id : Z)
        (username : string) (w w' : World P) :
  (process_posts fuel user_id username w = (Return 1%Z, w') ->
   exists posts w1 post l,
     secure_user_medias fuel user_id (Some 6%Z)
       (snd (log_event_json "attempt_like_post"
               [("username", JStr username)] w))
     = (Return posts, w1)
     /\ In post posts
     /\ (now (env w1) - wall (taken_at post)
         < timedelta_days POST_AGE_LIMIT_DAYS)%Z
     /\ (forall offset age,
           tzinfo (taken_at post) = Some offset ->
           elapsed (taken_at post) (env w1) = Some age ->
           (age < timedelta_days POST_AGE_LIMIT_DAYS
                  - (utcoffset (env w1) - offset))%Z)
     /\ calls w' = l ++ [(CMediaLike (media_id post), None)])
  /\ (process_stories fuel user_id username w = (Return 1%Z, w') ->
      exists stories w1 story l,
        secure_user_stories fuel user_id
          (snd (log_event_json "attempt_view_story"
                  [("username", JStr username)] w))
        = (Return stories, w1)
        /\ In story stories
        /\ calls w' = l ++ [(CStoryLike (story_id story), None)]).
Proof.
  split.
  - unfold process_posts, try_except.
    unfold bind at 1, log_event_json at 1, modify at 1. cbn [snd].
    set (w0 := with_files _ w). unfold bind at 1.
    destruct (secure_user_medias fuel user_id (Some 6%Z) w0)
      as [[posts|e|] w1] eqn:H1.
    2:{ destruct (is_Exception e); unfold bind, log_event_json, modify, ret,
          raise; discriminate. }
    2:{ discriminate. }
    unfold bind at 1. rewrite recent_posts_spec.
    destruct (filter _ posts) as [|v valid] eqn:Hv; [discriminate|].
    unfold bind at 1.
    destruct (choice_spec v valid w1) as (post & -> & Hin).
    rewrite <- Hv in Hin. apply filter_In in Hin. destruct Hin as [Hin Hrec].
    apply Z.ltb_lt in Hrec.
    unfold bind at 1.
    destruct (secure_media_like fuel (media_id post) _)
      as [[[]|e|] w3] eqn:H3.
    2:{ destruct (is_Exception e); unfold bind, log_event_json, modify, ret,
          raise; discriminate. }
    2:{ discriminate. }
    apply _secure_request_spec in H3. cbn [tag] in H3.
    destruct H3 as (n3 & (_ & _ & G3 & _) & pre3 & -> & _).
    unfold bind at 1.
    destruct (increment_likes_spec w3) as (w4 & -> & _ & I2 & _).
    unfold bind at 1, track_hourly_engagement at 1, bind at 1,
      ask at 1, modify at 1.
    unfold bind at 1, log_event_json at 1, modify at 1.
    unfold bind at 1, print at 1, bind at 1, ask at 1.
    destruct (stdout_encodes _ _).
    2:{ unfold raise at 1. cbn [is_Exception].
        unfold bind, log_event_json, modify, ret. discriminate. }
    unfold modify at 1. unfold bind at 1.
    match goal with
    | |- context [uniform 30 55 ?x] =>
        destruct (uniform_returns 30 55 x) as (d & ->)
    end.
    unfold bind, time_sleep, bind, tell, modify, ret.
    intros H; inv H. exists posts, w1, post. eexists.
    split; [exact H1|]. split; [exact Hin|]. split; [exact Hrec|].
    split.
    { intros offset age Ht He. unfold elapsed in He. rewrite Ht in He.
      inv He. lia. }
    cbn. rewrite I2, G3. cbn. rewrite app_assoc. reflexivity.
  - unfold process_stories, try_except.
    unfold bind at 1, log_event_json at 1, modify at 1. cbn [snd].
    set (w0 := with_files _ w). unfold bind at 1.
    destruct (secure_user_stories fuel user_id w0)
      as [[stories|e|] w1] eqn:H1.
    2:{ destruct (is_Exception e); unfold bind, log_event_json, modify, ret,
          raise; discriminate. }
    2:{ discriminate. }
    destruct stories as [|v rest]; [discriminate|].
    unfold bind at 1.
    destruct (choice_spec v rest w1) as (story & -> & Hin).
    unfold bind at 1, log_event_json at 1, modify at 1.
    unfold bind at 1.
    destruct (secure_story_like fuel (story_id story) _)
      as [[[]|e|] w3] eqn:H3.
    2:{ destruct (is_Exception e); unfold bind, log_event_json, modify, ret,
          raise; discriminate. }
    2:{ discriminate. }
    apply _secure_request_spec in H3. cbn [tag] in H3.
    destruct H3 as (n3 & (_ & _ & G3 & _) & pre3 & -> & _).
    unfold bind at 1.
    destruct (increment_likes_spec w3) as (w4 & -> & _ & I2 & _).
    unfold bind at 1, track_hourly_engagement at 1, bind at 1,
      ask at 1, modify at 1.
    unfold bind at 1, log_event_json at 1, modify at 1.
    unfold bind at 1, print at 1, bind at 1, ask at 1.
    destruct (stdout_encodes _ _).
    2:{ unfold raise at 1. cbn [is_Exception].
        unfold bind, log_event_json, modify, ret. discriminate. }
    unfold modify at 1. unfold bind at 1.
    match goal with
    | |- context [uniform 30 55 ?x] =>
        destruct (uniform_returns 30 55 x) as (d & ->)
    end.
    unfold bind, time_sleep, bind, tell, modify, ret.
    intros H; inv H. exists (v :: rest), w1, story. eexists.
    split; [exact H1|]. split; [exact Hin|].
    cbn. rewrite I2, G3. cbn. rewrite app_assoc. reflexivity.
Qed.

(** *** The daily counter across an account *)

Lemma keeps_likes_ret {A} (a : A) : keeps_likes (@ret P A a).
Proof. intros w. reflexivity. Qed.

Lemma keeps_likes_raise {A} (e : exn) : keeps_likes (@raise P A e).
Proof. intros w. reflexivity. Qed.

Lemma keeps_likes_bind {A B} (m : M A) (k : A -> @M P B) :
  keeps_likes m -> (forall a, keeps_likes (k a)) -> keeps_likes (bind m k).
Proof.
  intros Hm Hk w. unfold bind. specialize (Hm w).
  destruct (m w) as [[a|e|] w1]; cbn in *; try exact Hm.
  rewrite (Hk a w1). exact Hm.
Qed.

Lemma keeps_likes_try_except {A} (m : @M P A) (h : exn -> M A) :
  keeps_likes m -> (forall e, keeps_likes (h e)) ->
  keeps_likes (try_except m h).
Proof.
  intros Hm Hh w. unfold try_except. specialize (Hm w).
  destruct (m w) as [[a|e|] w1]; cbn in *; try exact Hm.
  rewrite (Hh e w1). exact Hm.
Qed.

Lemma keeps_likes_secure {A} (fuel : nat) (func : Call A) :
  keeps_likes (_secure_request fuel func).
Proof.
  intros w. destruct (_secure_request fuel func w) as [r w'] eqn:H.
  apply _secure_request_spec in H. destruct H as (new & (G & _) & _).
  exact G.
Qed.

Lemma keeps_likes_is_active (fuel : nat) (fid : Z) (info : UserInfo) :
  keeps_likes (is_active fuel fid info).
Proof.
  unfold is_active. destruct (negb (is_private info));
    [|apply keeps_likes_ret].
  apply keeps_likes_bind; [apply keeps_likes_secure|].
  intros [|s ss]; [|apply keeps_likes_ret].
  apply keeps_likes_bind; [apply keeps_likes_secure|].
  intros medias. apply keeps_likes_ret.
Qed.

Lemma keeps_likes_probe_follower (fuel : nat) (fid : Z) (acc : list Z) :
  keeps_likes (probe_follower fuel fid acc).
Proof.
  unfold probe_follower. apply keeps_likes_try_except.
  - apply keeps_likes_bind; [apply keeps_likes_secure|]. intros info.
    apply keeps_likes_bind; [apply keeps_likes_is_active|].
    intros []; apply keeps_likes_ret.
  - intros e. destruct (is_Exception e);
      [apply keeps_likes_ret|apply keeps_likes_raise].
Qed.

Lemma keeps_likes_followers_loop (fuel : nat) (limit : Z) (fs : list Z) :
  forall acc, keeps_likes (followers_loop fuel limit fs acc).
Proof.
  induction fs as [|f rest IH]; intros acc; cbn [followers_loop].
  - apply keeps_likes_ret.
  - apply keeps_likes_bind; [apply keeps_likes_probe_follower|].
    intros acc'. destruct (Z.of_nat (length acc') >=? limit)%Z;
      [apply keeps_likes_ret|apply IH].
Qed.

Lemma keeps_likes_get_active_followers (fuel : nat) (username : string)
      (limit : Z) :
  keeps_likes (get_active_followers fuel username limit).
Proof.
  unfold get_active_followers.
  apply keeps_likes_bind; [apply keeps_likes_secure|]. intros uid.
  apply keeps_likes_bind; [apply keeps_likes_secure|]. intros page.
  apply keeps_likes_followers_loop.
Qed.

Lemma engagement_likes (fuel : nat) (line : string) (w : World P)
      (r : outcome Z) (w' : World P) :
  engagement_post fuel line w r w' ->
  (likes_today w <= likes_today w' <= likes_today w + 1)%Z.
Proof.
  intros (new & _ & H). destruct r as [n|e|].
  - destruct H as [(_ & H & _)|[(_ & H & _)|(_ & H & _)]]; lia.
  - destruct H as (_ & _ & H & _). lia.
  - destruct H as (_ & H & _). lia.
Qed.

Lemma engage_loop_likes (fuel : nat) (username : string) (fids : list Z) :
  forall (w : World P) (r : outcome unit) (w' : World P),
    engage_loop fuel username fids w = (r, w') ->
    (likes_today w <= likes_today w'
     <= likes_today w + 2 * Z.of_nat (length fids))%Z.
Proof.
  induction fids as [|fid rest IH]; intros w r w' H.
  - inv H. cbn. lia.
  - cbn [engage_loop] in H. unfold bind at 1 in H.
    assert (Hlen : Z.of_nat (length (fid :: rest))
                   = (Z.of_nat (length rest) + 1)%Z) by (cbn; lia).
    destruct (process_posts fuel fid username w) as [r1 w1] eqn:H1.
    apply process_posts_spec, engagement_likes in H1.
    destruct r1 as [n|e|]; try (inv H; lia).
    unfold bind at 1 in H.
    destruct (process_stories fuel fid username w1) as [r2 w2] eqn:H2.
    apply process_stories_spec, engagement_likes in H2.
    destruct r2 as [m|e|]; try (inv H; lia).
    apply IH in H. lia.
Qed.

(** X14.  Processing one target account never lowers the daily counter
    and raises it by at most 24 (at most 12 followers, a post and a story
    each), however the processing ends. *)
Theorem likes_per_account_bounded (fuel : nat) (username : string)
        (w : World P) :
  (likes_today w
   <= likes_today (snd (process_target_account fuel username w)))%Z
  /\ (likes_today (snd (process_target_account fuel username w))
      <= likes_today w + 24)%Z.
Proof.
  assert (H : forall r w',
             process_target_account fuel username w = (r, w') ->
             (likes_today w <= likes_today w' <= likes_today w + 24)%Z).
  { intros r w'. unfold process_target_account, try_except.
    match goal with
    | |- context [match ?m w with _ => _ end] =>
        assert (Hbody : forall r1 w1, m w = (r1, w1) ->
                  (likes_today w <= likes_today w1
                   <= likes_today w + 24)%Z)
    end.
    { intros r1 w1. unfold bind at 1.
      pose proof (keeps_likes_secure fuel
                    (mkCall (CUserIdFromUsername username)
                            (user_id_from_username username)) w) as K1.
      fold (secure_user_id_from_username fuel username) in K1.
      destruct (secure_user_id_from_username fuel username w)
        as [[uid|e|] w2]; cbn [snd] in K1; try (intros H; inv H; lia).
      unfold bind at 1.
      pose proof (keeps_likes_secure fuel
                    (mkCall (CUserInfo uid) (user_info uid)) w2) as K2.
      fold (secure_user_info fuel uid) in K2.
      destruct (secure_user_info fuel uid w2)
        as [[info|e|] w3]; cbn [snd] in K2; try (intros H; inv H; lia).
      unfold bind at 1.
      destruct (get_follower_limit_spec (follower_count info) w3)
        as (n & -> & Hn).
      unfold bind at 1.
      pose proof (keeps_likes_get_active_followers fuel username n
                    (with_env (snd (getrandbits (env w3))) w3)) as K3.
      destruct (get_active_followers fuel username n _)
        as [[fids|e|] w4] eqn:H3; cbn [snd likes_today with_env] in K3;
        try (intros H; inv H; lia).
      apply get_active_followers_spec in H3.
      destruct H3 as (uid' & w5 & page & w6 & _ & _ & Hs).
      destruct Hs as (ex & sk & ad & new & _ & Hr & _ & _ & _ & _ & _ & _
                      & Hb).
      destruct (Hb ltac:(cbn; lia)) as (Hlen & _).
      intros H. apply engage_loop_likes in H. lia. }
    match goal with
    | |- context [match ?m w with _ => _ end] =>
        destruct (m w) as [[[]|e|] w1] eqn:Hm
    end; pose proof (Hbody _ _ eq_refl) as Hb; clear Hbody.
    - intros H; inv H. exact Hb.
    - destruct (is_Exception e); unfold log_event_json, modify, raise;
        intros H; inv H; exact Hb.
    - intros H; inv H. exact Hb. }
  destruct (process_target_account fuel username w) as [r w'] eqn:Hp.
  specialize (H _ _ eq_refl). cbn [snd]. lia.
Qed.

(** *** The end of a run *)

Lemma main_after_startup (fuel : nat) (w : World P) :
  main fuel w
  = match main_startup fuel w with
    | (Return _, w1) =>
        try_finally
          (try_except
             (accounts <- shuffle TARGET_ACCOUNTS ;;
              accounts_loop fuel accounts)
             (fun e =>
                if is_Exception e
                then log_event_json "error" [("error", JStr (str_exn e))]
                else raise e))
          finalize w1
    | (Raise e, w1) => (Raise e, w1)
    | (Diverge, w1) => (Diverge, w1)
    end.
Proof.
  unfold main, main_startup, bind.
  destruct (log_event_json "session_start" _ w) as [[[]|e|] w1];
    try reflexivity.
  all: destruct (ProxyManager_init w1) as [[[]|e|] w2]; try reflexivity.
  all: destruct (AdaptiveSafeClient_init fuel w2) as [[[]|e|] w3];
    try reflexivity.
  all: destruct (reset_counters w3) as [[[]|e|] w4]; reflexivity.
Qed.

(** X15.  Once the statements before the [try] of [main] have returned,
    every end of [main] other than an exhausted recursion depth goes
    through the [finally] clause: the record holds the date and the count
    in memory, the audit file ends with "session_complete" and the metrics
    file with the metrics.  An exception of those first statements leaves
    [main] at once, without the [finally] clause. *)
Theorem main_finalizes (fuel : nat) (w w1 : World P) :
  (main_startup fuel w = (Return tt, w1) ->
   forall r w',
     main fuel w = (r, w') ->
     r <> Diverge ->
     last_run_file (files w')
     = Some (mkLastRun (Some (today (env w'))) (Some (likes_today w')))
     /\ (exists l,
           audit_log (files w')
           = l ++ [mkAuditEntry "session_complete"
                     [("message", JStr "Session complete.")]])
     /\ exists m, metrics_file (files w') = m ++ [metrics w'])
  /\ (forall e, main_startup fuel w = (Raise e, w1) ->
                main fuel w = (Raise e, w1)).
Proof.
  rewrite main_after_startup. split.
  - intros -> r w'. unfold try_finally.
    match goal with
    | |- context [match ?m w1 with _ => _ end] =>
        destruct (m w1) as [[[]|e|] w2]
    end.
    + unfold finalize, bind, save_metrics, get, save_last_run, bind, ask,
        modify, log_event_json, modify.
      intros H _. inv H. cbn. repeat split; eexists; reflexivity.
    + unfold finalize, bind, save_metrics, get, save_last_run, bind, ask,
        modify, log_event_json, modify.
      intros H _. inv H. cbn. repeat split; eexists; reflexivity.
    + intros H Hd. inv H. contradiction.
  - intros e ->. reflexivity.
Qed.

Lemma login_outcomes_calls (w w' : World P) (r : outcome unit) :
  _login w = (r, w') ->
  exists c o rest, calls w' = calls w ++ (CLogin c, o) :: rest.
Proof.
  unfold _login, try_except, bind, invoke, dump_settings, login_call,
    ask, modify, raise, step.
  cbn [run tag].
  destruct (login USERNAME PASSWORD None (env w)) as [[[]|a] p] eqn:H1.
  - cbn. intros H; inv H. do 3 eexists. cbn. reflexivity.
  - destruct a; cbn; try (intros H; inv H; do 3 eexists; cbn; reflexivity).
    destruct (input p) as [code p2]. cbn.
    destruct (login USERNAME PASSWORD (Some code) p2) as [[[]|a] p3] eqn:H2;
      cbn; intros H; inv H; do 3 eexists; cbn; rewrite <- app_assoc;
      reflexivity.
Qed.

(** X16.  When the persisted session decodes and its check returns
    without any login call, [_load_session] returns in the state the check
    left and the session file still holds the same settings. *)
Theorem valid_session_skips_login (fuel : nat) (w w1 : World P)
        (settings : string) (uid : Z) :
  session_file (files w) = Some (Some settings) ->
  secure_user_id_from_username (S fuel) USERNAME
    (with_env (set_settings settings (env w)) w)
  = (Return uid, w1) ->
  Forall (fun x => is_login (fst x) = false) (calls_since w w1) ->
  _load_session (S fuel) w = (Return tt, w1)
  /\ session_file (files w1) = Some (Some settings).
Proof.
  intros Hs H1 Hno. split.
  - unfold _load_session, bind at 1, get. rewrite Hs.
    unfold bind at 1, try_except, bind at 1, tell at 1, bind at 1.
    rewrite H1. reflexivity.
  - revert H1 Hno. unfold secure_user_id_from_username.
    generalize (mkCall (CUserIdFromUsername USERNAME)
                       (user_id_from_username USERNAME)).
    intros func.
    assert (Hgen : forall n (w0 : World P),
      session_file (files w0) = Some (Some settings) ->
      _secure_request n func w0 = (Return uid, w1) ->
      Forall (fun x => is_login (fst x) = false) (calls_since w0 w1) ->
      session_file (files w1) = Some (Some settings)).
    { induction n as [|n IH]; intros w0 Hs0 H Hno; [discriminate|].
      cbn [_secure_request] in H.
      unfold bind at 1, ask at 1, try_except in H.
      destruct (_secure_request_try func (time_time (env w0)) w0)
        as [[a|e|] w2] eqn:Ht.
      - inv H. apply _secure_request_try_frame in Ht.
        destruct Ht as (Hf & _). now rewrite Hf.
      - pose proof (_secure_request_try_spec _ _ _ Ht) as Hsp.
        destruct e as [[]| | | | | | |code]; cbn [try_post] in Hsp;
          try contradiction;
          try (unfold bind, track_error, modify, raise in H; discriminate).
        + exfalso. unfold bind at 1 in H.
          destruct (_rotate_device_spec w2) as (p2 & Hr). rewrite Hr in H.
          unfold bind at 1 in H.
          destruct (_login (with_env p2 w2)) as [[[]|e|] w3] eqn:Hl;
            try discriminate.
          pose proof (login_outcomes_calls _ Hl) as (c & o & rest & Hc).
          apply _secure_request_spec in H. destruct H as (n4 & G4 & _).
          destruct G4 as (_ & _ & G4 & _).
          destruct Hsp as (_ & _ & Hsp & _).
          unfold calls_since in Hno. rewrite G4, Hc in Hno.
          cbn [calls with_env] in Hno. rewrite Hsp in Hno.
          rewrite <- !app_assoc in Hno.
          rewrite skipn_app, skipn_all, Nat.sub_diag in Hno.
          cbn in Hno. inv Hno. inv H2. discriminate.
        + unfold bind at 1, track_error at 1, modify at 1 in H.
          unfold bind at 1 in H.
          match type of H with
          | context [_rotate_device ?x] =>
              destruct (_rotate_device_spec x) as (p2 & Hr);
                rewrite Hr in H
          end. discriminate.
        + unfold bind at 1, track_error at 1, modify at 1 in H.
          unfold bind at 1 in H.
          match type of H with
          | context [_rotate_device ?x] =>
              destruct (_rotate_device_spec x) as (p2 & Hr);
                rewrite Hr in H
          end. discriminate.
      - discriminate. }
    intros H1 Hno. eapply Hgen; [|exact H1|exact Hno]. exact Hs.
Qed.

(** X17.  When the processing of an account returns, the loop sleeps
    once, leaves the daily counter and the client alone and goes on with
    the next account; the sleep lies in [84, 210] or [156, 390] seconds
    (peak hours or not) when the processing took under 60 seconds, and in
    [210, 420] or [390, 780] seconds otherwise. *)
Theorem account_cooldown (fuel : nat) (account : string)
        (rest : list string) (w w1 : World P) :
  process_target_account fuel account w = (Return tt, w1) ->
  exists d w2,
    accounts_loop fuel (account :: rest) w = accounts_loop fuel rest w2
    /\ slept w2 = slept w1 ++ [d]
    /\ likes_today w2 = likes_today w1
    /\ calls w2 = calls w1
    /\ (if ((8 <=? now_hour (env w1)) && (now_hour (env w1) <? 20))%Z
        then if Qlt_bool (time_time (env w1) - time_time (env w)) 60
             then (84 <= d)%Q /\ (d <= 210)%Q
             else (210 <= d)%Q /\ (d <= 420)%Q
        else if Qlt_bool (time_time (env w1) - time_time (env w)) 60
             then (156 <= d)%Q /\ (d <= 390)%Q
             else (390 <= d)%Q /\ (d <= 780)%Q).
Proof.
  intros H1. cbn [accounts_loop].
  unfold bind at 1, try_except, bind at 1, ask at 1, bind at 1.
  rewrite H1. unfold bind at 1, ask at 1, bind at 1.
  unfold get_time_aware_delay, bind at 1, ask at 1.
  destruct ((8 <=? now_hour (env w1)) && (now_hour (env w1) <? 20))%Z;
    destruct (Qlt_bool (time_time (env w1) - time_time (env w)) 60);
    cbn [fst snd];
    match goal with
    | |- context [uniform ?a ?b w1] =>
        destruct (@uniform_spec _ _ a b w1
                    ltac:(unfold Qle; cbn; lia)) as (d & -> & D1 & D2)
    end;
    unfold bind at 1, log_event_json at 1, modify at 1;
    unfold time_sleep, bind at 1, tell, modify;
    exists d; eexists; (split; [reflexivity|]); cbn;
    repeat (split; [reflexivity|]);
    split; lra.
Qed.

End MoreClientFacts.

Lemma count_survives_restart_witness :
  exists w1 w2,
    @finalize _ sim_env (with_likes_today 37 world0) = (Return tt, w1)
    /\ @reset_counters _ sim_env (initial_world sim0 (files w1))
       = (Return tt, w2)
    /\ likes_today w2 = 37%Z.
Proof.
  apply (@count_survives_restart _ sim_env (with_likes_today 37 world0)
           sim0).
  reflexivity.
Defined.

Lemma persisted_count_lags_by_at_most_nine_witness :
  exists w',
    @increment_likes_n _ sim_env 13
      (snd (@reset_counters _ sim_env world_yesterday))
    = (Return tt, w')
    /\ likes_today w'
       = (likes_today (snd (@reset_counters _ sim_env world_yesterday))
          + Z.of_nat 13)%Z
    /\ (persisted_count w' <= likes_today w' <= persisted_count w' + 9)%Z.
Proof.
  apply (@persisted_count_lags_by_at_most_nine _ sim_env 13 world_yesterday).
  reflexivity.
Defined.

Lemma reset_without_count_witness :
  (exists w',
     @reset_counters _ sim_env world_no_count = (Return tt, w')
     /\ likes_today w' = 0%Z
     /\ (@today _ sim_env (env world_no_count) <> EmptyString ->
         last_run_file (files world_no_count) = None
         \/ last_run_file (files world_no_count) = Some NotJSON ->
         last_run_file (files w')
         = Some (mkLastRun (Some (@today _ sim_env (env world_no_count)))
                           (Some 0%Z))))
  /\ @reset_counters _ sim_env world_not_text
     = (Raise UnicodeDecodeError, world_not_text)
  /\ @reset_counters _ sim_env world_not_object
     = (Raise AttributeError, world_not_object).
Proof.
  split; [|split].
  - apply (proj1 (@reset_without_count _ sim_env world_no_count)).
    right. right. exists (Some "2024-05-02"). reflexivity.
  - apply (proj1 (proj2 (@reset_without_count _ sim_env world_not_text))).
    reflexivity.
  - apply (proj2 (proj2 (@reset_without_count _ sim_env world_not_object))).
    reflexivity.
Defined.

Lemma request_failure_classes_witness :
  login_failed_last
    (snd (@_secure_request _ sim_env _ 5 fetch_medias world_unclassified))
  \/ exists l a,
       calls (snd (@_secure_request _ sim_env _ 5 fetch_medias
                     world_unclassified))
       = l ++ [(tag fetch_medias, Some a)]
       /\ ((a = TwoFactorRequired
            /\ EnterpriseSecurityException = Api TwoFactorRequired)
           \/ (a = ClientError
               /\ EnterpriseSecurityException = Api ClientError)
           \/ (a = OtherError
               /\ EnterpriseSecurityException
                  = EnterpriseSecurityException)).
Proof.
  apply (@request_failure_classes _ sim_env _ 5 fetch_medias
           world_unclassified _ EnterpriseSecurityException).
  - left. reflexivity.
  - vm_compute. reflexivity.
Defined.

Lemma client_has_session_witness :
  session_stored
    (snd (@AdaptiveSafeClient_init _ sim_env 5 world_corrupt_session)).
Proof.
  apply (@client_has_session _ sim_env 5 world_corrupt_session).
  vm_compute. reflexivity.
Defined.

Lemma sampler_excludes_inactive_witness :
  @never_qualifies _ QuietEnv 11%Z /\ ~ In 11%Z [12%Z].
Proof.
  assert (Hn : @never_qualifies _ QuietEnv 11%Z).
  { left. intros p info H. cbn in H. inversion H. reflexivity. }
  split; [exact Hn|].
  apply (@sampler_excludes_inactive _ QuietEnv 5 "troyesivan" 5 11%Z
           world_quiet
           (snd (@get_active_followers _ QuietEnv 5 "troyesivan" 5
                   world_quiet))
           [12%Z] Hn).
  vm_compute. reflexivity.
Defined.

Lemma liked_item_was_fetched_witness :
  exists posts w1 post l,
    @secure_user_medias _ sim_env 5 7 (Some 6%Z)
      (snd (@log_event_json Sim "attempt_like_post"
              [("username", JStr "bob")] world_noon))
    = (Return posts, w1)
    /\ In post posts
    /\ (@now _ sim_env (env w1) - wall (taken_at post)
        < timedelta_days POST_AGE_LIMIT_DAYS)%Z
    /\ (forall offset age,
          tzinfo (taken_at post) = Some offset ->
          @elapsed _ sim_env (taken_at post) (env w1) = Some age ->
          (age < timedelta_days POST_AGE_LIMIT_DAYS
                 - (@utcoffset _ sim_env (env w1) - offset))%Z)
    /\ calls (snd (@process_posts _ sim_env 5 7 "bob" world_noon))
       = l ++ [(CMediaLike (media_id post), None)].
Proof.
  apply (@liked_item_was_fetched _ sim_env 5 7 "bob" world_noon
           (snd (@process_posts _ sim_env 5 7 "bob" world_noon))).
  vm_compute. reflexivity.
Defined.

(** Eight hours west of UTC a post taken 15 days and 7 hours ago is
    liked. *)
Example old_post_liked_west_of_utc :
  let run := @process_posts _ west_env 5 7 "bob" world_old_post in
  fst run = Return 1%Z
  /\ likes_done (calls (snd run)) = [(CMediaLike "m0", None)]
  /\ exists age,
       @elapsed _ west_env (taken_at post_old) (env world_old_post)
       = Some age
       /\ (timedelta_days POST_AGE_LIMIT_DAYS < age)%Z.
Proof.
  split; [vm_compute; reflexivity|]. split; [vm_compute; reflexivity|].
  eexists. split; [vm_compute; reflexivity|]. reflexivity.
Qed.

Lemma main_finalizes_witness :
  last_run_file (files (snd (@main _ sim_env 5 world0)))
  = Some (mkLastRun
            (Some (@today _ sim_env (env (snd (@main _ sim_env 5 world0)))))
            (Some (likes_today (snd (@main _ sim_env 5 world0)))))
  /\ (exists l,
        audit_log (files (snd (@main _ sim_env 5 world0)))
        = l ++ [mkAuditEntry "session_complete"
                  [("message", JStr "Session complete.")]])
  /\ exists m,
       metrics_file (files (snd (@main _ sim_env 5 world0)))
       = m ++ [metrics (snd (@main _ sim_env 5 world0))].
Proof.
  refine (proj1 (@main_finalizes _ sim_env 5 world0
                   (snd (@main_startup _ sim_env 5 world0)))
                _ (fst (@main _ sim_env 5 world0)) _ _ _).
  - vm_compute. reflexivity.
  - apply surjective_pairing.
  - vm_compute. discriminate.
Defined.

Lemma valid_session_skips_login_witness :
  @_load_session _ sim_env 5 world_valid_session
  = (Return tt,
     snd (@secure_user_id_from_username _ sim_env 5 "alice"
            world_valid_session))
  /\ session_file
       (files (snd (@secure_user_id_from_username _ sim_env 5 "alice"
                      world_valid_session)))
     = Some (Some "{}").
Proof.
  apply (@valid_session_skips_login _ sim_env 4 world_valid_session
           (snd (@secure_user_id_from_username _ sim_env 5 "alice"
                   world_valid_session))
           "{}" 1%Z).
  - reflexivity.
  - vm_compute. reflexivity.
  - vm_compute. repeat constructor.
Defined.

Lemma account_cooldown_witness :
  exists d w2,
    @accounts_loop _ sim_env 5 ["joeygraceffa"] world_account_fails
    = @accounts_loop _ sim_env 5 [] w2
    /\ slept w2
       = slept (snd (@process_target_account _ sim_env 5 "joeygraceffa"
                       world_account_fails)) ++ [d]
    /\ (84 <= d)%Q /\ (d <= 210)%Q.
Proof.
  destruct (@account_cooldown _ sim_env 5 "joeygraceffa" []
              world_account_fails
              (snd (@process_target_account _ sim_env 5 "joeygraceffa"
                      world_account_fails))
              ltac:(vm_compute; reflexivity))
    as (d & w2 & H1 & H2 & _ & _ & H3).
  exists d, w2. split; [exact H1|]. split; [exact H2|]. exact H3.
Defined.
